(** * mad-data-loader: document normalisation and version-gated processing

    A shallow embedding of [src/core/processor.py] (class [DocumentProcessor]),
    [src/utils/cache.py] (class [Cache]) and [src/models/document.py], with the
    properties of the natural-language specification stated and proved over it,
    and of [src/config/page_config.py] (class [PageConfig]), the branch of
    [src/main.py] that runs over the configured pages, and the endpoint
    handling of [src/connectors/azure_search/client.py], with laws of their
    own.

    Conventions of the embedding.
    - Python [str] values are ASCII text ([string], [list ascii]); the
      character functions ([upper], [lower], [strip], the classes of [re]) are
      the ASCII ones, and text with characters outside ASCII is not covered.
    - The library calls the code makes are modelled by their documented
      behaviour: [re] as a backtracking matcher (leftmost, alternatives in
      order, greedy repetition), BeautifulSoup trees as an inductive type with
      [find_all] in document order and [next_sibling] chains, [sqlite3] as a
      table with transactions, [float] on integers as rounding to 53 bits,
      the index client as a list of posted batches with its [dry_run] flag,
      the file system as what each path holds with the outcome of the calls
      that write, [json] as the dictionaries it reads and writes.
    - Code of other libraries that only transforms text ([markdown2], the
      summariser, the embedder) is a parameter of the development. *)

From Stdlib Require Import ZArith Ascii String List Bool Lia.
From stdpp Require Import base option list gmap strings pretty.
Import ListNotations.

Set Warnings "-register-all".
Local Open Scope string_scope.
Local Open Scope list_scope.

(** ** Characters and strings *)

Module Chars.

Definition code (c : ascii) : nat := nat_of_ascii c.

Definition between (lo hi : nat) (c : ascii) : bool :=
  (lo <=? code c)%nat && (code c <=? hi)%nat.

(** [\d] *)
Definition is_digit : ascii -> bool := between 48 57.
(** [A-Z] *)
Definition is_upper : ascii -> bool := between 65 90.
Definition is_lower : ascii -> bool := between 97 122.
(** [\s], also the set removed by [str.strip()], on ASCII text: tab to
    carriage return, the four separators 28 to 31, and the space. Python
    counts further characters outside ASCII as white space (U+0085, U+00A0
    and others); text that holds them is outside the embedding. *)
Definition is_space (c : ascii) : bool :=
  between 9 13 c || between 28 32 c.
(** [.] without DOTALL *)
Definition not_newline (c : ascii) : bool := negb (code c =? 10)%nat.

Definition lower_char (c : ascii) : ascii :=
  if is_upper c then ascii_of_nat (code c + 32) else c.
Definition upper_char (c : ascii) : ascii :=
  if is_lower c then ascii_of_nat (code c - 32) else c.

Definition eqb_ci (a b : ascii) : bool := Ascii.eqb (lower_char a) (lower_char b).

End Chars.

Module Str.

Definition chars : string -> list ascii := list_ascii_of_string.
Definition of_chars : list ascii -> string := string_of_list_ascii.

(** [str.upper()], [str.lower()] *)
Definition upper (s : string) : string := of_chars (map Chars.upper_char (chars s)).
Definition lower (s : string) : string := of_chars (map Chars.lower_char (chars s)).

Fixpoint lstrip (l : list ascii) : list ascii :=
  match l with
  | c :: l' => if Chars.is_space c then lstrip l' else l
  | [] => []
  end.

(** [str.strip()] *)
Definition strip (s : string) : string :=
  of_chars (rev (lstrip (rev (lstrip (chars s))))).

(** [a in s] for strings: substring test. *)
Fixpoint prefix_of (p l : list ascii) : bool :=
  match p, l with
  | [], _ => true
  | a :: p', b :: l' => Ascii.eqb a b && prefix_of p' l'
  | _ :: _, [] => false
  end.

Fixpoint contains_l (p l : list ascii) : bool :=
  prefix_of p l || match l with [] => false | _ :: l' => contains_l p l' end.

Definition contains (p s : string) : bool := contains_l (chars p) (chars s).

(** [s.startswith(p)] *)
Definition startswith (s p : string) : bool := prefix_of (chars p) (chars s).

(** [s.replace(a, b)] for single characters. *)
Definition replace_char (a b : ascii) (s : string) : string :=
  of_chars (map (fun c => if Ascii.eqb c a then b else c) (chars s)).

(** Python truthiness of a string. *)
Definition truthy (s : string) : bool := negb (String.eqb s "").

(** No underscore in the string. *)
Fixpoint no_underscore (s : string) : bool :=
  match s with
  | EmptyString => true
  | String c s' => negb (Ascii.eqb c "_") && no_underscore s'
  end.

End Str.

(** ** The [re] module: a backtracking matcher *)

Module Re.

Inductive regex : Type :=
| Eps
| Cls (p : ascii -> bool)
| Seq (r1 r2 : regex)
| Alt (r1 r2 : regex)
| Star (r : regex).

(** The words a pattern matches. *)
Inductive lang : regex -> list ascii -> Prop :=
| lang_eps : lang Eps []
| lang_cls p c : p c = true -> lang (Cls p) [c]
| lang_seq r1 r2 w1 w2 : lang r1 w1 -> lang r2 w2 -> lang (Seq r1 r2) (w1 ++ w2)
| lang_alt_l r1 r2 w : lang r1 w -> lang (Alt r1 r2) w
| lang_alt_r r1 r2 w : lang r2 w -> lang (Alt r1 r2) w
| lang_star_nil r : lang (Star r) []
| lang_star_cons r w1 w2 :
    lang r w1 -> lang (Star r) w2 -> lang (Star r) (w1 ++ w2).

Section Matcher.
Context {A : Type}.

(** One more iteration of the body is tried first (greedy); an iteration
    that consumes nothing is not repeated. *)
Fixpoint star_loop
    (body : list ascii -> (list ascii -> option A) -> option A)
    (fuel : nat) (s : list ascii) (k : list ascii -> option A) : option A :=
  match fuel with
  | O => k s
  | S n =>
      match body s (fun s' =>
               if (List.length s' <? List.length s)%nat
               then star_loop body n s' k else None) with
      | Some x => Some x
      | None => k s
      end
  end.

(** [rmatch r s k]: match [r] at the start of [s], then run the rest of the
    pattern [k] on what is left; the first success in priority order wins. *)
Fixpoint rmatch (r : regex) (s : list ascii)
    (k : list ascii -> option A) : option A :=
  match r with
  | Eps => k s
  | Cls p =>
      match s with
      | c :: s' => if p c then k s' else None
      | [] => None
      end
  | Seq r1 r2 => rmatch r1 s (fun s' => rmatch r2 s' k)
  | Alt r1 r2 =>
      match rmatch r1 s k with
      | Some x => Some x
      | None => rmatch r2 s k
      end
  | Star r1 => star_loop (rmatch r1) (List.length s) s k
  end.

(** A matcher finds only words of [L], and finds some match whenever a word
    of [L] starts the input and the rest of the pattern accepts what follows. *)
Definition sound_for (L : list ascii -> Prop)
    (m : list ascii -> (list ascii -> option A) -> option A) : Prop :=
  forall s k x, m s k = Some x ->
    exists w s', s = w ++ s' /\ L w /\ k s' = Some x.

Definition complete_for (L : list ascii -> Prop)
    (m : list ascii -> (list ascii -> option A) -> option A) : Prop :=
  forall w s' k, L w -> is_Some (k s') -> is_Some (m (w ++ s') k).
End Matcher.

(** Pattern combinators. *)
Definition chr (c : ascii) : regex := Cls (Ascii.eqb c).
Definition chr_ci (c : ascii) : regex := Cls (Chars.eqb_ci c).
Definition plus (r : regex) : regex := Seq r (Star r).
Definition seqs (rs : list regex) : regex := fold_right Seq Eps rs.
Definition alts (r : regex) (rs : list regex) : regex := fold_left Alt rs r.
Definition lit (s : string) : regex := seqs (map chr (Str.chars s)).
Definition lit_ci (s : string) : regex := seqs (map chr_ci (Str.chars s)).
Definition times (n : nat) (r : regex) : regex := seqs (repeat r n).
Definition digit : regex := Cls Chars.is_digit.
Definition space : regex := Cls Chars.is_space.
Definition any : regex := Cls Chars.not_newline.

(** The prefix of [s] consumed when [rest] is what is left. *)
Definition consumed (s rest : list ascii) : list ascii :=
  firstn (List.length s - List.length rest) s.

(** A match at the start of [s]: the matched text and the remainder. *)
Definition match_at (r : regex) (s : list ascii)
  : option (list ascii * list ascii) :=
  rmatch r s (fun rest => Some (consumed s rest, rest)).

(** [re.search(r, s)] as a truth value. *)
Fixpoint search_l (r : regex) (s : list ascii) : bool :=
  match rmatch r s (fun _ => Some tt) with
  | Some _ => true
  | None => match s with [] => false | _ :: s' => search_l r s' end
  end.

Definition search (r : regex) (s : string) : bool := search_l r (Str.chars s).

(** [re.findall(r, s)] for a pattern whose only group is the whole match:
    scan from the left; after a match continue behind it. [skip] counts the
    characters of the current match still to step over. *)
Fixpoint findall_l (r : regex) (skip : nat) (s : list ascii)
  : list (list ascii) :=
  match s with
  | [] =>
      match skip, match_at r [] with
      | O, Some (w, _) => [w]
      | _, _ => []
      end
  | _ :: s' =>
      match skip with
      | S n => findall_l r n s'
      | O =>
          match match_at r s with
          | Some (w, _) => w :: findall_l r (List.length w - 1) s'
          | None => findall_l r 0 s'
          end
      end
  end.

Definition findall (r : regex) (s : string) : list string :=
  map Str.of_chars (findall_l r 0 (Str.chars s)).

(** What [findall] is meant to return: the matches met on a scan from the
    left, where a position is passed over only if no match starts there. *)
Inductive scan (L : list ascii -> Prop) : list ascii -> list (list ascii) -> Prop :=
| scan_end : scan L [] []
| scan_skip c s ms :
    (forall w t, L w -> c :: s <> w ++ t) ->
    scan L s ms -> scan L (c :: s) ms
| scan_hit w s ms :
    L w -> w <> [] -> scan L s ms -> scan L (w ++ s) (w :: ms).

End Re.

(** ** BeautifulSoup trees *)

Module Soup.

(** A parsed node: a [NavigableString] or a [Tag]. *)
Inductive node : Type :=
| Text (s : string)
| Elem (name : string) (attrs : list (string * string)) (children : list node).

(** [node.name]: [None] for a string. *)
Definition name (n : node) : option string :=
  match n with
  | Text _ => None
  | Elem nm _ _ => Some nm
  end.

(** Truth value of a node: a [Tag] is always true, a string when not empty. *)
Definition node_truthy (n : node) : bool :=
  match n with
  | Text s => Str.truthy s
  | Elem _ _ _ => true
  end.

(** [tag.text]: the strings below the node, concatenated. *)
Fixpoint text (n : node) : string :=
  match n with
  | Text s => s
  | Elem _ _ ch =>
      (fix go (l : list node) : string :=
         match l with
         | [] => EmptyString
         | c :: l' => String.append (text c) (go l')
         end) ch
  end.

(** The strings below the node, in document order. *)
Fixpoint strings (n : node) : list string :=
  match n with
  | Text s => [s]
  | Elem _ _ ch =>
      (fix go (l : list node) : list string :=
         match l with
         | [] => []
         | c :: l' => strings c ++ go l'
         end) ch
  end.

Definition attrs_eqb (a b : list (string * string)) : bool :=
  bool_decide (a = b).

(** [==] on nodes: same name, same attributes, equal contents. *)
Fixpoint eqb (a b : node) : bool :=
  match a, b with
  | Text s, Text t => String.eqb s t
  | Elem n1 a1 c1, Elem n2 a2 c2 =>
      String.eqb n1 n2 && attrs_eqb a1 a2 &&
      (fix go (l1 l2 : list node) : bool :=
         match l1, l2 with
         | [], [] => true
         | x :: l1', y :: l2' => eqb x y && go l1' l2'
         | _, _ => false
         end) c1 c2
  | _, _ => false
  end.

(** [x in l] for a Python list of tags. A string never equals a tag. *)
Definition elem_of_tags (x : node) (l : list node) : bool :=
  existsb (eqb x) l.

Definition name_in (names : list string) (nm : string) : bool :=
  existsb (String.eqb nm) names.

(** The tags named in [names] at or below [n], in document order, each with
    its chain of [next_sibling]s; [sibs] is the chain of [n] itself. *)
Fixpoint select_node (names : list string) (n : node) (sibs : list node)
  : list (node * list node) :=
  match n with
  | Text _ => []
  | Elem nm _ ch =>
      (if name_in names nm then [(n, sibs)] else []) ++
      (fix go (l : list node) : list (node * list node) :=
         match l with
         | [] => []
         | c :: l' => select_node names c l' ++ go l'
         end) ch
  end.

Fixpoint select (names : list string) (ns : list node)
  : list (node * list node) :=
  match ns with
  | [] => []
  | c :: l' => select_node names c l' ++ select names l'
  end.

Definition children (n : node) : list node :=
  match n with
  | Text _ => []
  | Elem _ _ ch => ch
  end.

(** [soup.find_all(names)] on a document, [tag.find_all(names)] on a tag. *)
Definition find_all (names : list string) (ns : list node) : list node :=
  map fst (select names ns).

Definition find_all_in (names : list string) (t : node) : list node :=
  find_all names (children t).

(** [tag.find(name)] *)
Definition find (nm : string) (t : node) : option node :=
  head (find_all_in [nm] t).

(** [tag.find(string=pattern)] as a truth value: some string below the tag
    is matched by [re.search]. *)
Definition find_string (r : Re.regex) (t : node) : bool :=
  existsb (Re.search r) (flat_map strings (children t)).

End Soup.

(** ** Data model ([models/document.py]) *)

Inductive DocumentType : Type := ABRD | FBRD | UNKNOWN.

Record DocumentMetadata : Type := mkMetadata {
  document_id : string;
  document_type : DocumentType;
  project_code : string;
  document_version : string;
  status : string;
  created_date : string;
  last_updated_date : string;
  document_owner : string
}.

(** [DocumentMetadata()] with the defaults of the dataclass. *)
Definition empty_metadata : DocumentMetadata :=
  mkMetadata "" UNKNOWN "" "" "" "" "" "".

Record DocumentSection : Type := mkSection {
  section_id : string;
  title : string;
  level : nat;
  content : string;
  section_number : string;
  requirement_ids : list string
}.

(** A component of an embedding vector (a double, by its bit pattern). *)
Definition float64 : Type := Z.

(** [SearchableDocument.to_dict()]: the record handed to the index. The key
    [vectorized] is removed, [vector] is kept only when vectorized. *)
Record SearchableDocument : Type := mkDoc {
  doc_id : string;
  doc_content : string;
  source_page_id : string;
  source_page_title : string;
  source_url : string;
  is_section : bool;
  doc_section_id : string;
  doc_section_title : string;
  doc_section_level : nat;
  doc_section_number : string;
  doc_metadata : DocumentMetadata;
  doc_summary : string;
  doc_requirement_ids : list string;
  doc_vector : option (list float64)
}.

(** A page as [get_page_by_id] returns it. [version_number = None] stands for
    a page dictionary without [version.number]; [body] is the parse of
    [body.storage.value]. *)
Record Page : Type := mkPage {
  id : string;
  page_title : string;
  space_key : string;
  version_number : option Z;
  version_when : string;
  history_created_date : string;
  history_created_by : string;
  body : list Soup.node
}.

(** Text transformers of other libraries. [html_to_markdown] receives the
    parse of the markup it is called on. *)
Record Externals : Type := mkExternals {
  html_to_markdown : list Soup.node -> string;
  get_summary : string -> string;
  get_embedding : string -> option (list float64);
  base_url : string
}.

(** ** Metadata extraction ([DocumentProcessor._extract_metadata]) *)

Module Metadata.

Import Re.

Definition set_document_id v (m : DocumentMetadata) :=
  mkMetadata v (document_type m) (project_code m) (document_version m)
    (status m) (created_date m) (last_updated_date m) (document_owner m).
Definition set_document_type v (m : DocumentMetadata) :=
  mkMetadata (document_id m) v (project_code m) (document_version m)
    (status m) (created_date m) (last_updated_date m) (document_owner m).
Definition set_project_code v (m : DocumentMetadata) :=
  mkMetadata (document_id m) (document_type m) v (document_version m)
    (status m) (created_date m) (last_updated_date m) (document_owner m).
Definition set_document_version v (m : DocumentMetadata) :=
  mkMetadata (document_id m) (document_type m) (project_code m) v
    (status m) (created_date m) (last_updated_date m) (document_owner m).
Definition set_status v (m : DocumentMetadata) :=
  mkMetadata (document_id m) (document_type m) (project_code m)
    (document_version m) v (created_date m) (last_updated_date m)
    (document_owner m).
Definition set_created_date v (m : DocumentMetadata) :=
  mkMetadata (document_id m) (document_type m) (project_code m)
    (document_version m) (status m) v (last_updated_date m) (document_owner m).
Definition set_last_updated_date v (m : DocumentMetadata) :=
  mkMetadata (document_id m) (document_type m) (project_code m)
    (document_version m) (status m) (created_date m) v (document_owner m).
Definition set_document_owner v (m : DocumentMetadata) :=
  mkMetadata (document_id m) (document_type m) (project_code m)
    (document_version m) (status m) (created_date m) (last_updated_date m) v.

(** [[A-Z0-9]] *)
Definition upper_alnum : regex :=
  Cls (fun c => Chars.is_upper c || Chars.is_digit c).

(** [(?:ABRD|FBRD)-([A-Z0-9]+)-\d{4}-[\d\.]+] with [re.match]: group 1. *)
Definition match_project_code (s : list ascii) : option (list ascii) :=
  rmatch (Alt (lit "ABRD") (lit "FBRD")) s (fun s1 =>
  rmatch (chr "-") s1 (fun s2 =>
  rmatch (plus upper_alnum) s2 (fun s3 =>
  rmatch (seqs [chr "-"; times 4 digit; chr "-";
                plus (Cls (fun c => Chars.is_digit c || Ascii.eqb c "."))])
         s3 (fun _ => Some (consumed s2 s3))))).

(** [_parse_document_id] *)
Definition parse_document_id (m : DocumentMetadata) (document_id : string)
  : DocumentMetadata :=
  let m1 :=
    if Str.startswith document_id "ABRD-" then set_document_type ABRD m
    else if Str.startswith document_id "FBRD-" then set_document_type FBRD m
    else set_document_type UNKNOWN m in
  match match_project_code (Str.chars document_id) with
  | Some code => set_project_code (Str.of_chars code) m1
  | None => m1
  end.

(** The label patterns, searched with [re.IGNORECASE]. *)
Definition pat_document_id : regex :=
  seqs [lit_ci "document"; Star space; lit_ci "id"].
Definition pat_version : regex := lit_ci "version".
Definition pat_status : regex := lit_ci "status".
Definition pat_created : regex := Alt (lit_ci "created") (lit_ci "date created").
Definition pat_updated : regex := Alt (lit_ci "updated") (lit_ci "last updated").
Definition pat_owner : regex := Alt (lit_ci "owner") (lit_ci "author").

(** The body of the row loop for a row of two cells or more. *)
Definition assign_row (m : DocumentMetadata) (key value : string)
  : DocumentMetadata :=
  if search pat_document_id key then
    parse_document_id (set_document_id value m) value
  else if search pat_version key then set_document_version value m
  else if search pat_status key then set_status value m
  else if search pat_created key then set_created_date value m
  else if search pat_updated key then set_last_updated_date value m
  else if search pat_owner key then set_document_owner value m
  else m.

(** One table row: its cells, and the assignment when there are two. *)
Definition row_pair (row : Soup.node) : option (string * string) :=
  match Soup.find_all_in ["th"; "td"] row with
  | c0 :: c1 :: _ => Some (Str.strip (Soup.text c0), Str.strip (Soup.text c1))
  | _ => None
  end.

Definition scan_row (m : DocumentMetadata) (row : Soup.node) : DocumentMetadata :=
  match row_pair row with
  | Some (key, value) => assign_row m key value
  | None => m
  end.

(** The loop over [metadata_table.find_all("tr")]. *)
Definition scan_table (table : Soup.node) (m : DocumentMetadata)
  : DocumentMetadata :=
  fold_left scan_row (Soup.find_all_in ["tr"] table) m.

Definition is_control_table (table : Soup.node) : bool :=
  let first_cell :=
    match Soup.find "th" table with
    | Some c => Some c
    | None => Soup.find "td" table
    end in
  match first_cell with
  | Some c =>
      Str.contains "document" (Str.lower (Soup.text c)) &&
      Str.contains "control" (Str.lower (Soup.text c))
  | None => false
  end.

(** The two loops that pick [metadata_table]. *)
Definition metadata_table (soup : list Soup.node) : option Soup.node :=
  let tables := Soup.find_all ["table"] soup in
  match List.find is_control_table tables with
  | Some t => Some t
  | None => List.find (Soup.find_string (lit_ci "Document ID")) tables
  end.

(** [str(page.get("version", {}).get("number", "1.0"))] *)
Definition version_string (page : Page) : string :=
  match version_number page with
  | Some n => pretty n
  | None => "1.0"
  end.

Definition default_if_empty (current fallback : string) : string :=
  if Str.truthy current then current else fallback.

(** The defaults applied after the table. An empty page-history value leaves
    the field as it is, that is, empty. *)
Definition set_defaults (page : Page) (m : DocumentMetadata) : DocumentMetadata :=
  mkMetadata
    (default_if_empty (document_id m) ("DOC-" +:+ id page))
    (document_type m)
    (project_code m)
    (default_if_empty (document_version m) (version_string page))
    (default_if_empty (status m) "UNKNOWN")
    (default_if_empty (created_date m) (history_created_date page))
    (default_if_empty (last_updated_date m) (version_when page))
    (default_if_empty (document_owner m) (history_created_by page)).

Definition extract_metadata (page : Page) : DocumentMetadata :=
  let m :=
    match metadata_table (body page) with
    | Some table => scan_table table empty_metadata
    | None => empty_metadata
    end in
  set_defaults page m.

(** The fields the table rows assign, and the pattern chain read as a
    classification of the row label. *)
Inductive label : Type :=
| LDocumentId | LVersion | LStatus | LCreated | LUpdated | LOwner.

Definition label_eqb (a b : label) : bool :=
  match a, b with
  | LDocumentId, LDocumentId | LVersion, LVersion | LStatus, LStatus
  | LCreated, LCreated | LUpdated, LUpdated | LOwner, LOwner => true
  | _, _ => false
  end.

Definition field (l : label) (m : DocumentMetadata) : string :=
  match l with
  | LDocumentId => document_id m
  | LVersion => document_version m
  | LStatus => status m
  | LCreated => created_date m
  | LUpdated => last_updated_date m
  | LOwner => document_owner m
  end.

Definition classify (key : string) : option label :=
  if search pat_document_id key then Some LDocumentId
  else if search pat_version key then Some LVersion
  else if search pat_status key then Some LStatus
  else if search pat_created key then Some LCreated
  else if search pat_updated key then Some LUpdated
  else if search pat_owner key then Some LOwner
  else None.

(** The rows of a table that have two cells or more, as (label, value). *)
Definition table_pairs (table : Soup.node) : list (string * string) :=
  omap row_pair (Soup.find_all_in ["tr"] table).

(** The values of the rows classified [l], in row order. *)
Definition values_for (l : label) (pairs : list (string * string)) : list string :=
  map snd (List.filter (fun kv =>
    match classify (fst kv) with
    | Some l' => label_eqb l l'
    | None => false
    end) pairs).

End Metadata.

(** ** Section segmentation ([DocumentProcessor._split_content_into_sections]) *)

Module Sections.

Import Re.

Definition heading_names : list string := ["h1"; "h2"; "h3"; "h4"; "h5"; "h6"].

Definition is_heading (n : Soup.node) : bool :=
  match Soup.name n with
  | Some nm => Soup.name_in heading_names nm
  | None => false
  end.

(** [soup.find_all(["h1", ..., "h6"])]: every heading with its siblings. *)
Definition headings (soup : list Soup.node) : list (Soup.node * list Soup.node) :=
  Soup.select heading_names soup.

(** [int(heading_tag[1])] *)
Definition heading_level (n : Soup.node) : nat :=
  match Soup.name n with
  | Some nm =>
      match Str.chars nm with
      | _ :: d :: _ => Chars.code d - 48
      | _ => 0
      end
  | None => 0
  end.

(** [$]: at the end, or before a newline that ends the string. *)
Definition at_end (s : list ascii) : bool :=
  match s with
  | [] => true
  | [c] => negb (Chars.not_newline c)
  | _ => false
  end.

(** [\d+(?:\.\d+)*] *)
Definition dotted_number : regex :=
  Seq (plus digit) (Star (Seq (chr ".") (plus digit))).

(** [re.match] of the heading text against a dotted number, [\s+], [.+] and
    [$]: groups 1 (the number) and 2 (the rest). *)
Definition number_match (heading_text : list ascii)
  : option (list ascii * list ascii) :=
  rmatch dotted_number heading_text (fun s1 =>
  rmatch (plus space) s1 (fun s2 =>
  rmatch (plus any) s2 (fun s3 =>
  if at_end s3
  then Some (consumed heading_text s1, consumed s2 s3)
  else None))).

(** Section number and title of a heading. *)
Definition number_and_title (heading : Soup.node) : string * string :=
  let heading_text := Str.strip (Soup.text heading) in
  match number_match (Str.chars heading_text) with
  | Some (num, rest) => (Str.of_chars num, Str.of_chars rest)
  | None => ("", heading_text)
  end.

(** [section_{i+1}], or [section_] and the number with dots replaced. *)
Definition make_section_id (i : nat) (section_number : string) : string :=
  if Str.truthy section_number
  then "section_" +:+ Str.replace_char "." "_" section_number
  else "section_" +:+ pretty (i + 1)%nat.

(** A node the loop appends: it has a name, and not a heading name. *)
Definition is_content (n : Soup.node) : bool :=
  match Soup.name n with
  | Some nm => Str.truthy nm && negb (Soup.name_in heading_names nm)
  | None => false
  end.

(** The [while] loop from [heading.next_sibling]: [last] is
    [i == len(headings) - 1], [later] is [headings[i+1:]]. *)
Fixpoint collect (last : bool) (later : list Soup.node)
    (sibs : list Soup.node) : list Soup.node :=
  match sibs with
  | [] => []
  | current :: rest =>
      if Soup.node_truthy current && (last || negb (Soup.elem_of_tags current later))
      then (if is_content current then [current] else [])
             ++ collect last later rest
      else []
  end.

(** [content_elements] of the heading at index [i]. *)
Definition content_elements (hs : list (Soup.node * list Soup.node))
    (i : nat) (sibs : list Soup.node) : list Soup.node :=
  collect (i =? List.length hs - 1)%nat (map fst (drop (S i) hs)) sibs.

(** [(FR|PR|SR|UR|RR|CR|BR|INT)-[A-Z0-9]+-\d{3}] *)
Definition requirement_pattern : regex :=
  seqs [alts (lit "FR") [lit "PR"; lit "SR"; lit "UR"; lit "RR"; lit "CR";
                         lit "BR"; lit "INT"];
        chr "-"; plus Metadata.upper_alnum; chr "-"; times 3 digit].

Definition find_requirement_ids (content : string) : list string :=
  findall requirement_pattern content.

Section WithExternals.
Context (ext : Externals).

(** The section built for the heading at index [i]. *)
Definition make_section (hs : list (Soup.node * list Soup.node))
    (i : nat) (h : Soup.node * list Soup.node) : DocumentSection :=
  let '(number, heading_text) := number_and_title (fst h) in
  let content := html_to_markdown ext (content_elements hs i (snd h)) in
  mkSection (make_section_id i number) heading_text (heading_level (fst h))
    content number (find_requirement_ids content).

Definition split_content_into_sections (soup : list Soup.node)
    (metadata : DocumentMetadata) : list DocumentSection :=
  let hs := headings soup in
  match hs with
  | [] => [mkSection "section_1" "Main Content" 1
             (html_to_markdown ext soup) "" []]
  | _ => imap (make_section hs) hs
  end.
End WithExternals.

(** The siblings after a heading up to the next heading among them. *)
Fixpoint run_to_next_heading (sibs : list Soup.node) : list Soup.node :=
  match sibs with
  | [] => []
  | n :: rest => if is_heading n then [] else n :: run_to_next_heading rest
  end.

(** No empty string node at this level, as in a parsed document. *)
Definition no_empty_strings (ns : list Soup.node) : Prop :=
  Forall (fun n => Soup.node_truthy n = true) ns.

(** The siblings after a heading up to the node that ends the loop: the
    next heading among them or, in a tree that has one, an empty string. *)
Fixpoint run_to_boundary (sibs : list Soup.node) : list Soup.node :=
  match sibs with
  | [] => []
  | n :: rest =>
      if is_heading n || negb (Soup.node_truthy n) then []
      else n :: run_to_boundary rest
  end.

End Sections.

(** ** Effects: exceptions and the state of the collaborators *)

(** A Python exception, by its message. *)
Inductive exn : Type := Exn (msg : string).

Definition exn_message (e : exn) : string := match e with Exn msg => msg end.

Inductive result (A : Type) : Type :=
| Ok (a : A)
| Raise (e : exn).
Arguments Ok {A} a.
Arguments Raise {A} e.

(** The value [process_page] stores under a page key. *)
Record CacheRecord : Type := mkRecord {
  version : Z;
  metadata : DocumentMetadata;
  processed_at : nat;
  document_count : nat;
  vectorized : bool
}.

(** A row of the table [document_cache]; the JSON text of the column [value]
    is represented by the record it encodes. *)
Record Row : Type := mkRow {
  value : CacheRecord;
  created_at : nat;
  last_accessed : nat
}.

(** The statements the cache sends to the store. *)
Inductive stmt : Type :=
| SelectValue (key : string)
| SelectCount (key : string)
| UpdateAccessed (key : string) (now : nat)
| InsertOrReplace (key : string) (v : CacheRecord) (now : nat)
| DeleteKey (key : string)
| CountAll
| DeleteAll
| SelectKeys.

(** The SQLite store: the committed table, the table as the open connection
    sees it, the statements not yet committed, the committed ones, and what
    the coming storage calls do ([Some e]: the call raises [e]). *)
Record Store : Type := mkStore {
  db : gmap string Row;
  txn : gmap string Row;
  pending : list stmt;
  journal : list stmt;
  faults : list (option exn)
}.

(** The index client and the search index behind it: the batches posted to
    the index so far, what the coming posts do ([Some e]: the call raises
    [e]), and the [dry_run] flag the client was built with. *)
Record Sink : Type := mkSink {
  uploads : list (list SearchableDocument);
  sink_faults : list (option exn);
  dry_run : bool
}.

Record World : Type := mkWorld {
  remote : gmap string Page;
  store : Store;
  sink : Sink;
  clock : nat;
  logs : list string
}.

Definition M (A : Type) : Type := World -> result A * World.

Definition ret {A} (a : A) : M A := fun w => (Ok a, w).

Definition bind {A B} (m : M A) (f : A -> M B) : M B :=
  fun w =>
    match m w with
    | (Ok a, w') => f a w'
    | (Raise e, w') => (Raise e, w')
    end.

Definition raise {A} (e : exn) : M A := fun w => (Raise e, w).

(** [try: m except Exception as e: h e] *)
Definition try_except {A} (m : M A) (h : exn -> M A) : M A :=
  fun w =>
    match m w with
    | (Ok a, w') => (Ok a, w')
    | (Raise e, w') => h e w'
    end.

Declare Scope py_scope.
Delimit Scope py_scope with py.
Notation "'let!' x ':=' m 'in' k" := (bind m (fun x => k))
  (at level 10, x name, m at level 100, k at level 200) : py_scope.
Notation "m ';;' k" := (bind m (fun _ => k))
  (at level 100, k at level 200, right associativity) : py_scope.
Local Open Scope py_scope.

Definition with_store (f : Store -> Store) : M unit :=
  fun w =>
    (Ok tt, mkWorld (remote w) (f (store w)) (sink w) (clock w) (logs w)).

Definition log (msg : string) : M unit :=
  fun w =>
    (Ok tt,
     mkWorld (remote w) (store w) (sink w) (clock w) (logs w ++ [msg])).

(** [Cache.current_timestamp()]: reading the clock; time passes. *)
Definition current_timestamp : M nat :=
  fun w =>
    (Ok (clock w),
     mkWorld (remote w) (store w) (sink w) (S (clock w)) (logs w)).

(** ** The storage layer ([sqlite3]) *)

Module Sql.

(** Every call into the store takes the next entry of the fault plan. *)
Definition storage_call : M unit :=
  fun w =>
    match faults (store w) with
    | Some e :: rest =>
        (Raise e,
         mkWorld (remote w)
           (mkStore (db (store w)) (txn (store w)) (pending (store w))
              (journal (store w)) rest)
           (sink w) (clock w) (logs w))
    | None :: rest =>
        (Ok tt,
         mkWorld (remote w)
           (mkStore (db (store w)) (txn (store w)) (pending (store w))
              (journal (store w)) rest)
           (sink w) (clock w) (logs w))
    | [] => (Ok tt, w)
    end.

(** What a statement returns. *)
Inductive rows : Type :=
| NoRows
| OneValue (v : option CacheRecord)
| Count (n : nat)
| Keys (ks : list string).

Definition touch (now : nat) (r : Row) : Row :=
  mkRow (value r) (created_at r) now.

Definition run_stmt (q : stmt) (t : gmap string Row) : rows * gmap string Row :=
  match q with
  | SelectValue k => (OneValue (value <$> t !! k), t)
  | SelectCount k => (Count (if bool_decide (is_Some (t !! k)) then 1 else 0), t)
  | UpdateAccessed k now => (NoRows, alter (touch now) k t)
  | InsertOrReplace k v now => (NoRows, <[k := mkRow v now now]> t)
  | DeleteKey k => (NoRows, delete k t)
  | CountAll => (Count (size t), t)
  | DeleteAll => (NoRows, ∅)
  | SelectKeys => (Keys (map fst (map_to_list t)), t)
  end.

(** [sqlite3.connect(path)] *)
Definition connect : M unit :=
  storage_call ;;
  with_store (fun s => mkStore (db s) (db s) [] (journal s) (faults s)).

(** [cursor.execute(q)] with the fetch that follows it. *)
Definition execute (q : stmt) : M rows :=
  storage_call ;;
  fun w =>
    let s := store w in
    let '(r, t) := run_stmt q (txn s) in
    (Ok r,
     mkWorld (remote w)
       (mkStore (db s) t (pending s ++ [q]) (journal s) (faults s))
       (sink w) (clock w) (logs w)).

(** [conn.commit()] *)
Definition commit : M unit :=
  storage_call ;;
  with_store (fun s =>
    mkStore (txn s) (txn s) [] (journal s ++ pending s) (faults s)).

Definition rollback : M unit :=
  with_store (fun s => mkStore (db s) (db s) [] (journal s) (faults s)).

(** [with sqlite3.connect(path) as conn: body]: commit when the body ends
    normally, roll back and let the exception through otherwise. *)
Definition with_connection {A} (body : M A) : M A :=
  connect ;;
  let! r := try_except body (fun e => rollback ;; raise e) in
  try_except commit (fun e => rollback ;; raise e) ;;
  ret r.

End Sql.

(** ** The cache ([utils/cache.py]) *)

Module Cache.

Import Sql.

Definition get_body (key : string) : M (option CacheRecord) :=
  with_connection (
    let! result := execute (SelectValue key) in
    match result with
    | OneValue (Some v) =>
        let! now := current_timestamp in
        execute (UpdateAccessed key now) ;;
        commit ;;
        ret (Some v)
    | _ => ret None
    end).

Definition get (key : string) : M (option CacheRecord) :=
  try_except (get_body key) (fun e =>
    log ("Error retrieving cache for key " +:+ key +:+ ": " +:+ exn_message e) ;;
    ret None).

Definition set_body (key : string) (v : CacheRecord) : M bool :=
  let! now := current_timestamp in
  with_connection (
    execute (InsertOrReplace key v now) ;;
    commit) ;;
  ret true.

Definition set (key : string) (v : CacheRecord) : M bool :=
  try_except (set_body key v) (fun e =>
    log ("Error setting cache for key " +:+ key +:+ ": " +:+ exn_message e) ;;
    ret false).

Definition delete_body (key : string) : M bool :=
  with_connection (
    execute (DeleteKey key) ;;
    commit) ;;
  ret true.

Definition delete (key : string) : M bool :=
  try_except (delete_body key) (fun e =>
    log ("Error deleting cache for key " +:+ key +:+ ": " +:+ exn_message e) ;;
    ret false).

Definition clear_body : M nat :=
  with_connection (
    let! r := execute CountAll in
    execute DeleteAll ;;
    commit ;;
    ret (match r with Count n => n | _ => 0 end)).

Definition clear : M nat :=
  try_except clear_body (fun e =>
    log ("Error clearing cache: " +:+ exn_message e) ;;
    ret 0).

Definition get_keys_body : M (list string) :=
  with_connection (
    let! r := execute SelectKeys in
    ret (match r with Keys ks => ks | _ => [] end)).

Definition get_keys : M (list string) :=
  try_except get_keys_body (fun e =>
    log ("Error getting cache keys: " +:+ exn_message e) ;;
    ret []).

End Cache.

(** ** The orchestrator ([DocumentProcessor.process_page]) *)

Module Processor.

(** The flags given to the constructor. *)
Record Config : Type := mkConfig {
  summarize : bool;
  vectorize : bool;
  force_reindex : bool
}.

(** Rounding to a multiple of the unit in the last place, ties to even. *)
Definition round_at (ulp a : Z) : Z :=
  (if (ulp <? 2 * (a mod ulp)) || ((ulp =? 2 * (a mod ulp)) && Z.odd (a / ulp))
   then (a / ulp + 1) * ulp
   else a / ulp * ulp)%Z.

(** [float(n)] for an integer [n]: the nearest double, ties to even. Every
    double of magnitude [2^53] or more is an integer, so the result is given
    as an integer. Revision numbers are far below the range where [float]
    overflows. *)
Definition float_of_nonneg (a : Z) : Z :=
  (if Z.log2 a <? 53 then a else round_at (2 ^ (Z.log2 a - 52)) a)%Z.

Definition float_of_int (n : Z) : Z :=
  (if n <? 0 then - float_of_nonneg (- n) else float_of_nonneg n)%Z.

(** [confluence_client.get_page_by_id]: the page the wiki serves, or an
    exception, logged and raised again. *)
Definition get_page_by_id (page_id : string) : M Page :=
  fun w =>
    match remote w !! page_id with
    | Some page => (Ok page, w)
    | None =>
        (log ("Failed to fetch page " +:+ page_id) ;;
         raise (Exn "page not found")) w
    end.

(** [azure_search_client.index_documents(documents, action="upload")]: a
    client built with [dry_run] logs and returns with nothing sent; otherwise
    the batch is posted and the call returns, or the call raises. A response
    that reports failures for single records is only logged, so a posted
    batch counts whatever the index made of its records. *)
Definition index_documents (documents : list SearchableDocument) : M unit :=
  fun w =>
    let s := sink w in
    if dry_run s then
      log ("DRY RUN: Would index " +:+ pretty (List.length documents) +:+
           " documents with action 'upload'") w
    else
      match sink_faults s with
      | Some e :: rest =>
          (Raise e,
           mkWorld (remote w) (store w) (mkSink (uploads s) rest false)
             (clock w) (logs w))
      | None :: rest =>
          (Ok tt,
           mkWorld (remote w) (store w)
             (mkSink (uploads s ++ [documents]) rest false)
             (clock w) (logs w))
      | [] =>
          (Ok tt,
           mkWorld (remote w) (store w)
             (mkSink (uploads s ++ [documents]) [] false)
             (clock w) (logs w))
      end.

(** The identifier [f"{page_id}_v{current_version}_{part}"]. *)
Definition record_id (page_id : string) (current_version : Z) (part : string)
  : string :=
  page_id +:+ "_v" +:+ pretty current_version +:+ "_" +:+ part.

(** [vector] as [to_dict] leaves it: dropped unless it is a non-empty list. *)
Definition kept_vector (v : option (list float64)) : option (list float64) :=
  match v with
  | Some (x :: l) => Some (x :: l)
  | _ => None
  end.

(** What the code does once the version gate lets a page through. *)
Inductive decision : Type := Skip | Process.

Section WithExternals.
Context (ext : Externals) (cfg : Config).

(** [_get_page_url] *)
Definition get_page_url (page : Page) : string :=
  base_url ext +:+ "/display/" +:+ space_key page +:+ "/" +:+ id page.

Definition full_document (page_id : string) (page : Page)
    (current_version : Z) (metadata : DocumentMetadata)
    (markdown_content : string) : SearchableDocument :=
  mkDoc (record_id page_id current_version "full") markdown_content
    page_id (page_title page) (get_page_url page)
    false "" "" 0 "" metadata
    (if summarize cfg then get_summary ext markdown_content else "")
    []
    (kept_vector
       (if vectorize cfg then get_embedding ext markdown_content else None)).

Definition section_document (page_id : string) (page : Page)
    (current_version : Z) (metadata : DocumentMetadata)
    (section : DocumentSection) : SearchableDocument :=
  mkDoc (record_id page_id current_version (section_id section))
    (content section)
    page_id (page_title page) (get_page_url page)
    true (section_id section) (title section) (level section)
    (section_number section) metadata
    ""
    (requirement_ids section)
    (kept_vector
       (if vectorize cfg then get_embedding ext (content section) else None)).

(** The list [documents]: the full document, then one entry per section. *)
Definition build_documents (page_id : string) (page : Page)
    (current_version : Z) (metadata : DocumentMetadata)
    : list SearchableDocument :=
  full_document page_id page current_version metadata
      (html_to_markdown ext (body page))
  :: map (section_document page_id page current_version metadata)
       (Sections.split_content_into_sections ext (body page) metadata).

(** [metadata.status.upper() in ("DRAFT", "APPROVED")] *)
Definition status_allowed (metadata : DocumentMetadata) : bool :=
  String.eqb (Str.upper (status metadata)) "DRAFT" ||
  String.eqb (Str.upper (status metadata)) "APPROVED".

(** The version check on the cached record (a dictionary of five keys,
    hence true when present); each branch logs what it decided. *)
Definition version_gate (page_id : string)
    (cached_data : option CacheRecord) (current_version : Z) : M decision :=
  match cached_data, force_reindex cfg with
  | Some cached, false =>
      if (float_of_int current_version <=? float_of_int (version cached))%Z
      then
        log ("Page " +:+ page_id +:+
             " is not newer than cached version. Skipping.") ;;
        ret Skip
      else
        log ("Page " +:+ page_id +:+
             " is newer than cached version. Processing.") ;;
        ret Process
  | _, true =>
      log ("Force reindexing page " +:+ page_id) ;; ret Process
  | None, false =>
      log ("Page " +:+ page_id +:+ " not found in cache. Processing.") ;;
      ret Process
  end.

(** From "Extract metadata and content" to the end of the [try] block. *)
Definition process_content (page_id : string) (page : Page)
    (current_version : Z) : M bool :=
  let metadata := Metadata.extract_metadata page in
  if negb (status_allowed metadata) then
    log ("Skipping page " +:+ page_id +:+ " with status " +:+ status metadata) ;;
    ret true
  else
    let documents := build_documents page_id page current_version metadata in
    index_documents documents ;;
    let! now := current_timestamp in
    Cache.set page_id
      (mkRecord current_version metadata now (List.length documents)
         (vectorize cfg)) ;;
    log ("Successfully processed page " +:+ page_id) ;;
    ret true.

(** The [except Exception] clause of [process_page]. *)
Definition on_error (page_id : string) (e : exn) : M bool :=
  log ("Error processing page " +:+ page_id +:+ ": " +:+ exn_message e) ;;
  ret false.

Definition process_page_body (page_id : string) : M bool :=
  let! page := get_page_by_id page_id in
  let current_version := default 0%Z (version_number page) in
  let! cached_data := Cache.get page_id in
  let! d := version_gate page_id cached_data current_version in
  match d with
  | Skip => ret true
  | Process => process_content page_id page current_version
  end.

Definition process_page (page_id : string) : M bool :=
  try_except (process_page_body page_id) (on_error page_id).


End WithExternals.

End Processor.

(** ** What is observed of a run *)

Module Observe.

Import Processor.

(** The cache operations of the storage failure clause: the guarded method,
    its [try] block, and the value returned when the block raises. *)
Inductive cache_op : Type -> Type :=
| OpGet (key : string) : cache_op (option CacheRecord)
| OpSet (key : string) (v : CacheRecord) : cache_op bool
| OpDelete (key : string) : cache_op bool
| OpClear : cache_op nat
| OpGetKeys : cache_op (list string).

Definition call {A} (op : cache_op A) : M A :=
  match op with
  | OpGet key => Cache.get key
  | OpSet key v => Cache.set key v
  | OpDelete key => Cache.delete key
  | OpClear => Cache.clear
  | OpGetKeys => Cache.get_keys
  end.

Definition try_block {A} (op : cache_op A) : M A :=
  match op with
  | OpGet key => Cache.get_body key
  | OpSet key v => Cache.set_body key v
  | OpDelete key => Cache.delete_body key
  | OpClear => Cache.clear_body
  | OpGetKeys => Cache.get_keys_body
  end.

Definition benign {A} (op : cache_op A) : A :=
  match op with
  | OpGet _ => None
  | OpSet _ _ => false
  | OpDelete _ => false
  | OpClear => 0%nat
  | OpGetKeys => []
  end.

(** The committed upserts. *)
Definition is_upsert (q : stmt) : bool :=
  match q with
  | InsertOrReplace _ _ _ => true
  | _ => false
  end.

Definition upserts (w : World) : nat :=
  List.length (List.filter is_upsert (journal (store w))).

(** The records the cache holds, without the row timestamps. *)
Definition cache_values (w : World) : gmap string CacheRecord :=
  value <$> db (store w).

Definition cached_version (page_id : string) (w : World) : option Z :=
  version <$> cache_values w !! page_id.




(** The decision table: skip exactly on a cached version, without forced
    reprocessing, that the current version does not exceed as a float. *)
Definition skips (cfg : Config) (cached : option Z) (current_version : Z)
  : bool :=
  match cached with
  | Some c =>
      negb (force_reindex cfg) &&
      (float_of_int current_version <=? float_of_int c)%Z
  | None => false
  end.

(** The part of the world the version gate is about. *)
Record View : Type := mkView {
  seen_uploads : list (list SearchableDocument);
  seen_version : option Z;
  seen_upserts : nat;
  seen_sink_faults : list (option exn)
}.

Definition view (page_id : string) (w : World) : View :=
  mkView (uploads (sink w)) (cached_version page_id w) (upserts w)
    (sink_faults (sink w)).

(** One invocation as the specification describes it, on the view: the
    decision table, the status gate, one upload, one upsert. *)
Definition gated_step (ext : Externals) (cfg : Config) (page_id : string)
    (page : Page) (s : View) : bool * View :=
  let current_version := default 0%Z (version_number page) in
  if skips cfg (seen_version s) current_version then (true, s)
  else if negb (status_allowed (Metadata.extract_metadata page)) then (true, s)
  else
    match seen_sink_faults s with
    | Some _ :: rest =>
        (false, mkView (seen_uploads s) (seen_version s) (seen_upserts s) rest)
    | faults =>
        (true,
         mkView
           (seen_uploads s ++
              [build_documents ext cfg page_id page current_version
                 (Metadata.extract_metadata page)])
           (Some current_version) (S (seen_upserts s)) (List.tl faults))
    end.



(** A world after [msg] has been logged. *)
Definition logged (msg : string) (w : World) : World :=
  mkWorld (remote w) (store w) (sink w) (clock w) (logs w ++ [msg]).

(** Outside the log, the clock and the row timestamps the two worlds are the
    same: same wiki, same index, same cached records, same upserts. *)
Definition only_read (w w' : World) : Prop :=
  remote w' = remote w /\ sink w' = sink w /\
  cache_values w' = cache_values w /\ upserts w' = upserts w.

(** The world as another run of the program meets it: the same wiki and the
    same cache directory, with the index client that run was started with. *)
Definition with_sink (s : Sink) (w : World) : World :=
  mkWorld (remote w) (store w) s (clock w) (logs w).

End Observe.

(** ** The other cache methods ([utils/cache.py]) *)

Module CacheAdmin.

Import Sql.

(** [Cache._init_db]: the table is created when missing; an error is
    logged and raised again. In this model the table always exists, so the
    statement changes nothing. *)
Definition init_db_body : M unit :=
  with_connection (
    storage_call ;;
    commit).

Definition init_db : M unit :=
  try_except init_db_body (fun e =>
    log ("Error initializing cache database: " +:+ exn_message e) ;;
    raise e).

(** [Cache.is_cached] *)
Definition is_cached_body (key : string) : M bool :=
  with_connection (
    let! r := execute (SelectCount key) in
    let count := match r with Count n => n | _ => 0%nat end in
    (if (0 <? count)%nat
     then
       let! now := current_timestamp in
       execute (UpdateAccessed key now) ;;
       commit
     else ret tt) ;;
    ret (0 <? count)%nat).

Definition is_cached (key : string) : M bool :=
  try_except (is_cached_body key) (fun e =>
    log ("Error checking cache for key " +:+ key +:+ ": " +:+ exn_message e) ;;
    ret false).

(** The two queries of [get_stats] on the creation times: the first row in
    descending, respectively ascending, order. *)
Definition newest (t : gmap string Row) : option nat :=
  match map (fun kv => created_at (snd kv)) (map_to_list t) with
  | [] => None
  | x :: l => Some (fold_right Nat.max x l)
  end.

Definition oldest (t : gmap string Row) : option nat :=
  match map (fun kv => created_at (snd kv)) (map_to_list t) with
  | [] => None
  | x :: l => Some (fold_right Nat.min x l)
  end.

Definition query_created (pick : gmap string Row -> option nat)
  : M (option nat) :=
  storage_call ;;
  fun w => (Ok (pick (txn (store w))), w).

(** What [get_stats] returns: the statistics, or the error dictionary. *)
Inductive stats : Type :=
| Stats (total_entries : nat) (most_recent_entry oldest_entry : option nat)
| StatsError (error : string).

Definition get_stats_body : M stats :=
  with_connection (
    let! r := execute CountAll in
    let total_count := match r with Count n => n | _ => 0%nat end in
    let! most_recent := query_created newest in
    let! oldest_entry := query_created oldest in
    ret (Stats total_count most_recent oldest_entry)).

Definition get_stats : M stats :=
  try_except get_stats_body (fun e =>
    log ("Error getting cache stats: " +:+ exn_message e) ;;
    ret (StatsError (exn_message e))).

End CacheAdmin.

(** ** Runs over several pages ([DocumentProcessor.process_space]) *)

Module Batch.

Import Processor.

Section WithExternals.
Context (ext : Externals) (cfg : Config).

(** What [confluence_client.get_pages_in_space] answers for a space key:
    the pages of the space, or an exception. *)
Context (pages_in_space : string -> result (list Page)).

(** The loop over the pages with its two counters. *)
Fixpoint count_pages (page_ids : list string)
    (success_count failure_count : nat) : M (nat * nat) :=
  match page_ids with
  | [] => ret (success_count, failure_count)
  | page_id :: rest =>
      let! ok := process_page ext cfg page_id in
      if ok
      then count_pages rest (S success_count) failure_count
      else count_pages rest success_count (S failure_count)
  end.

(** [get_pages_in_space]: an exception is logged and raised again. *)
Definition get_pages_in_space (space_key : string) : M (list Page) :=
  match pages_in_space space_key with
  | Ok pages => ret pages
  | Raise e =>
      log ("Failed to fetch pages in space " +:+ space_key) ;;
      raise e
  end.

Definition process_space (space_key : string) : M (nat * nat) :=
  log ("Processing all pages in space " +:+ space_key) ;;
  let! pages := get_pages_in_space space_key in
  log ("Found " +:+ pretty (List.length pages) +:+ " pages in space "
       +:+ space_key) ;;
  let! counts := count_pages (map id pages) 0 0 in
  log ("Finished processing space " +:+ space_key) ;;
  ret counts.
End WithExternals.

(** The page ids of a list the wiki does not serve. *)
Definition unserved (w : World) (page_ids : list string) : list string :=
  List.filter (fun page_id => bool_decide (remote w !! page_id = None))
    page_ids.

End Batch.

(** ** Where an extracted field comes from *)

Module MetadataView.

Import Metadata.

(** The labelled rows of the table [_extract_metadata] picks; none when it
    picks no table. *)
Definition metadata_pairs (page : Page) : list (string * string) :=
  match metadata_table (body page) with
  | Some table => table_pairs table
  | None => []
  end.

(** The value a field gets when the table leaves it empty. *)
Definition default_for (l : label) (page : Page) : string :=
  match l with
  | LDocumentId => "DOC-" +:+ id page
  | LVersion => version_string page
  | LStatus => "UNKNOWN"
  | LCreated => history_created_date page
  | LUpdated => version_when page
  | LOwner => history_created_by page
  end.

(** A document id of the form TAG-CODE-YEAR-VERSION followed by anything. *)
Definition well_formed_id (tag code year ver rest : list ascii)
    (s : list ascii) : Prop :=
  s = tag ++ "-"%char :: code ++ "-"%char :: year ++ "-"%char :: ver ++ rest /\
  (tag = Str.chars "ABRD" \/ tag = Str.chars "FBRD") /\
  code <> [] /\
  Forall (fun c => Chars.is_upper c || Chars.is_digit c = true) code /\
  List.length year = 4%nat /\
  Forall (fun c => Chars.is_digit c = true) year /\
  ver <> [] /\
  Forall (fun c => Chars.is_digit c || Ascii.eqb c "." = true) ver.

(** The type [_parse_document_id] reads off the start of an id. *)
Definition prefix_type (document_id : string) : DocumentType :=
  if Str.startswith document_id "ABRD-" then ABRD
  else if Str.startswith document_id "FBRD-" then FBRD
  else UNKNOWN.

(** The project codes of the id rows the pattern of [_parse_document_id]
    matches, in row order. *)
Definition id_codes (pairs : list (string * string)) : list string :=
  omap (fun v => Str.of_chars <$> match_project_code (Str.chars v))
    (values_for LDocumentId pairs).

End MetadataView.

(** ** How a heading text reads as number and title *)

Module SectionsView.

Import Re Sections.

(** A dotted number, white space, and a title on one line that does not
    start with white space. *)
Definition numbered_text (num ws title text : list ascii) : Prop :=
  text = num ++ ws ++ title /\
  lang dotted_number num /\
  ws <> [] /\ Forall (fun c => Chars.is_space c = true) ws /\
  title <> [] /\ Forall (fun c => Chars.not_newline c = true) title /\
  Str.lstrip title = title.

Definition digit_or_dot (c : ascii) : bool :=
  Chars.is_digit c || Ascii.eqb c ".".

(** The section number of the heading at index [i], empty when the heading
    has none. *)
Definition numbers_of (soup : list Soup.node) : list string :=
  map (fun h => fst (number_and_title (fst h))) (headings soup).

End SectionsView.

(** ** The page configuration ([config/page_config.py]) *)

Module PageConfig.

(** A value of an entry of the configuration file. Entries hold scalars;
    [add_page] writes a string and a boolean. *)
Inductive jvalue : Type :=
| JNull
| JBool (b : bool)
| JNum (n : Z)
| JStr (s : string).

(** Python truthiness. *)
Definition jtruthy (v : jvalue) : bool :=
  match v with
  | JNull => false
  | JBool b => b
  | JNum n => negb (n =? 0)%Z
  | JStr s => Str.truthy s
  end.

(** [str(v)] *)
Definition jstr (v : jvalue) : string :=
  match v with
  | JNull => "None"
  | JBool true => "True"
  | JBool false => "False"
  | JNum n => pretty n
  | JStr s => s
  end.

(** The dictionary of one page or space. *)
Definition info : Type := gmap string jvalue.

(** A dictionary in insertion order, as Python keeps it. *)
Definition dict : Type := list (string * info).

Definition has_key (k : string) (kv : string * info) : bool :=
  String.eqb (fst kv) k.

(** [d.get(k)] *)
Definition dict_get (k : string) (d : dict) : option info :=
  snd <$> List.find (has_key k) d.

(** [k in d] *)
Definition dict_in (k : string) (d : dict) : bool := existsb (has_key k) d.

(** [d[k] = v]: in place for a key that is there, at the end otherwise. *)
Definition dict_set (k : string) (v : info) (d : dict) : dict :=
  if dict_in k d
  then map (fun kv => if has_key k kv then (k, v) else kv) d
  else d ++ [(k, v)].

(** [del d[k]] *)
Definition dict_del (k : string) (d : dict) : dict :=
  List.filter (fun kv => negb (has_key k kv)) d.

(** [list(d.keys())] *)
Definition dict_keys (d : dict) : list string := map fst d.

(** The object: its path and the two dictionaries. *)
Record PageConfig : Type := mkPageConfig {
  config_path : string;
  pages : dict;
  spaces : dict
}.

(** What a path holds: a directory, a file that [open], [json.load] or
    [config.get] raises on (an empty or partly written file among them), or
    a JSON object whose keys [pages] and [spaces], when present, hold
    dictionaries of entries. *)
Inductive file : Type :=
| Directory
| Unreadable
| Json (pages spaces : option dict).

(** A call into the file system that raises; for [os.makedirs], [made] is
    the number of missing directories it had made by then. *)
Inductive fs_fault : Type := Fails (made : nat).

(** The file system as the class meets it: what the paths hold, and what
    the coming calls that write do ([None]: the call succeeds). *)
Record Disk : Type := mkDisk {
  files : gmap string file;
  fs_faults : list (option fs_fault)
}.

(** Every call that writes takes the next entry of the plan. *)
Definition fs_call (d : Disk) : option fs_fault * Disk :=
  match fs_faults d with
  | [] => (None, d)
  | outcome :: rest => (outcome, mkDisk (files d) rest)
  end.

Definition set_files (fs : gmap string file) (d : Disk) : Disk :=
  mkDisk fs (fs_faults d).

Fixpoint through_slash (l : list ascii) : list ascii :=
  match l with
  | [] => []
  | c :: l' => if Ascii.eqb c "/" then l else through_slash l'
  end.

Fixpoint drop_slashes (l : list ascii) : list ascii :=
  match l with
  | [] => []
  | c :: l' => if Ascii.eqb c "/" then drop_slashes l' else l
  end.

(** [os.path.dirname] (posixpath): the path up to its last slash, without
    trailing slashes unless it consists of slashes. *)
Definition dirname (p : string) : string :=
  let head := rev (through_slash (rev (Str.chars p))) in
  if forallb (Ascii.eqb "/") head
  then Str.of_chars head
  else Str.of_chars (rev (drop_slashes (rev head))).

(** A path and the directories above it, the path first. *)
Fixpoint upwards (fuel : nat) (p : string) : list string :=
  match fuel with
  | O => []
  | S n =>
      if String.eqb p "" then []
      else if String.eqb (dirname p) p then [p]
      else p :: upwards n (dirname p)
  end.

(** The directories [os.makedirs(dir)] goes through, the topmost first. *)
Definition parents (dir : string) : list string :=
  rev (upwards (String.length dir) dir).

Definition missing (fs : gmap string file) (paths : list string)
  : list string :=
  List.filter (fun p => bool_decide (fs !! p = None)) paths.

(** A file stands where a directory is needed. *)
Definition blocked (fs : gmap string file) (paths : list string) : bool :=
  existsb (fun p =>
    match fs !! p with
    | Some Unreadable | Some (Json _ _) => true
    | Some Directory | None => false
    end) paths.

Definition is_directory (fs : gmap string file) (p : string) : bool :=
  match fs !! p with
  | Some Directory => true
  | _ => false
  end.

(** [mkdir] for each of the paths that hold nothing. *)
Definition make_dirs (paths : list string) (fs : gmap string file)
  : gmap string file :=
  fold_left (fun fs p =>
    match fs !! p with
    | None => <[p := Directory]> fs
    | Some _ => fs
    end) paths fs.

(** [load_config]; the log lines are left out here and below. A path that
    holds a directory exists, and [open] raises on it. *)
Definition load_config (pc : PageConfig) (d : Disk) : bool * PageConfig :=
  match files d !! config_path pc with
  | None => (false, pc)
  | Some Directory => (false, pc)
  | Some Unreadable => (false, pc)
  | Some (Json ps ss) =>
      (true, mkPageConfig (config_path pc) (default [] ps) (default [] ss))
  end.

(** [PageConfig(config_path)] *)
Definition new (path : string) (d : Disk) : PageConfig :=
  snd (load_config (mkPageConfig path [] []) d).

Definition get_all_page_ids (pc : PageConfig) : list string :=
  dict_keys (pages pc).

Definition get_page_info (pc : PageConfig) (page_id : string) : option info :=
  dict_get page_id (pages pc).

(** [is_page_enabled]: an entry that is missing or empty counts as
    disabled; otherwise the value under [enabled], [True] without one. *)
Definition is_page_enabled (pc : PageConfig) (page_id : string) : jvalue :=
  match get_page_info pc page_id with
  | None => JBool false
  | Some page_info =>
      if bool_decide (page_info = ∅) then JBool false
      else default (JBool true) (page_info !! "enabled")
  end.

(** [os.makedirs(dir, exist_ok=True)]: whether it returns, and the disk
    after it. It raises on the empty name and on a file in the way before it
    touches anything, and it returns on a directory that is there; when it
    raises otherwise, the directories made so far stay. *)
Definition makedirs (dir : string) (d : Disk) : bool * Disk :=
  if String.eqb dir "" then (false, d)
  else if blocked (files d) (parents dir) then (false, d)
  else if is_directory (files d) dir then (true, d)
  else
    match fs_call d with
    | (Some (Fails made), d1) =>
        (false,
         set_files
           (make_dirs (firstn made (missing (files d1) (parents dir)))
              (files d1)) d1)
    | (None, d1) =>
        (true, set_files (make_dirs (parents dir) (files d1)) d1)
    end.

(** [with open(path, 'w') as f: json.dump(config, f, indent=2)]: [open]
    raises on a directory and otherwise, when it succeeds, empties the file;
    when [json.dump] or the closing of the file raises after that, the file
    stays empty or partly written. *)
Definition write_json (path : string) (content : file) (d : Disk)
  : bool * Disk :=
  if is_directory (files d) path then (false, d)
  else
    match fs_call d with
    | (Some _, d1) => (false, d1)
    | (None, d1) =>
        match fs_call d1 with
        | (Some _, d2) =>
            (false, set_files (<[path := Unreadable]> (files d2)) d2)
        | (None, d2) => (true, set_files (<[path := content]> (files d2)) d2)
        end
    end.

(** [save_config]: every exception of the [try] block gives [False]. *)
Definition save_config (pc : PageConfig) (d : Disk) : bool * Disk :=
  match makedirs (dirname (config_path pc)) d with
  | (false, d1) => (false, d1)
  | (true, d1) =>
      write_json (config_path pc)
        (Json (Some (pages pc)) (Some (spaces pc))) d1
  end.

Definition page_entry (name : string) (enabled : bool) : info :=
  {[ "name" := JStr name; "enabled" := JBool enabled ]}.

Definition add_page (page_id name : string) (enabled : bool)
    (pc : PageConfig) (d : Disk) : bool * PageConfig * Disk :=
  let pc' :=
    mkPageConfig (config_path pc)
      (dict_set page_id (page_entry name enabled) (pages pc)) (spaces pc) in
  let '(ok, d') := save_config pc' d in
  (ok, pc', d').

Definition remove_page (page_id : string) (pc : PageConfig) (d : Disk)
  : bool * PageConfig * Disk :=
  if dict_in page_id (pages pc) then
    let pc' :=
      mkPageConfig (config_path pc) (dict_del page_id (pages pc))
        (spaces pc) in
    let '(ok, d') := save_config pc' d in
    (ok, pc', d')
  else (false, pc, d).

End PageConfig.

(** ** The run over the configured pages ([main.py], [--process-all]) *)

Module Main.

Import Processor PageConfig.

Section WithExternals.
Context (ext : Externals) (cfg : Config).

Definition enabled_pages (pc : PageConfig) : list string :=
  List.filter (fun page_id => jtruthy (is_page_enabled pc page_id))
    (get_all_page_ids pc).

(** The loop over [enabled_pages] with its two counters. *)
Fixpoint run_pages (pc : PageConfig) (page_ids : list string)
    (success_count failure_count : nat) : M (nat * nat) :=
  match page_ids with
  | [] => ret (success_count, failure_count)
  | page_id :: rest =>
      match get_page_info pc page_id with
      | None => raise (Exn "'NoneType' object has no attribute 'get'")
      | Some page_info =>
          log ("Processing page " +:+ page_id +:+ ": " +:+
               jstr (default (JStr "Unnamed") (page_info !! "name"))) ;;
          let! ok := process_page ext cfg page_id in
          if ok
          then run_pages pc rest (S success_count) failure_count
          else run_pages pc rest success_count (S failure_count)
      end
  end.

(** The branch of [main] for [--process-all], from the list of enabled
    pages to the exit code, inside the [try] of [main]. *)
Definition process_all (pc : PageConfig) : M Z :=
  try_except
    (match enabled_pages pc with
     | [] => log "No enabled pages found in configuration" ;; ret 0%Z
     | page_ids =>
         log ("Processing " +:+ pretty (List.length page_ids) +:+
              " pages from configuration") ;;
         let! counts := run_pages pc page_ids 0 0 in
         log ("Processing complete. Success: " +:+ pretty (fst counts) +:+
              ", Failures: " +:+ pretty (snd counts)) ;;
         log "Processing completed successfully" ;;
         ret 0%Z
     end)
    (fun e => log ("Error during processing: " +:+ exn_message e) ;; ret 1%Z).
End WithExternals.

(** The batches uploaded by a run are those of pages among [page_ids]. *)
Definition batches_of (page_ids : list string)
    (batches : list (list SearchableDocument)) : Prop :=
  Forall (fun batch =>
    exists page_id, In page_id page_ids /\
      Forall (fun d => source_page_id d = page_id) batch) batches.

End Main.

(** ** The endpoint of the index ([AzureSearchClient.__init__]) *)

Module Endpoint.

(** [s.replace(old, new)] for a non-empty [old]: the occurrences are taken
    from the left and do not overlap; [skip] counts the characters of the
    current occurrence still to step over. *)
Fixpoint replace_l (old new : list ascii) (skip : nat) (s : list ascii)
  : list ascii :=
  match s with
  | [] => []
  | c :: s' =>
      match skip with
      | S n => replace_l old new n s'
      | O =>
          if Str.prefix_of old s
          then new ++ replace_l old new (List.length old - 1) s'
          else c :: replace_l old new 0 s'
      end
  end.

Definition replace (old new s : string) : string :=
  Str.of_chars (replace_l (Str.chars old) (Str.chars new) 0 (Str.chars s)).

(** [s.endswith(p)] *)
Definition endswith (s p : string) : bool :=
  Str.prefix_of (rev (Str.chars p)) (rev (Str.chars s)).

(** [s.rstrip('/')] *)
Definition rstrip_slash (s : string) : string :=
  Str.of_chars (rev (PageConfig.drop_slashes (rev (Str.chars s)))).

(** The value kept in [self.endpoint]. *)
Definition endpoint_of (endpoint : string) : string :=
  if Str.contains "windows.ne" endpoint && negb (endswith endpoint ".net")
  then rstrip_slash (replace "windows.ne" "windows.net" endpoint)
  else rstrip_slash endpoint.

End Endpoint.

(** ** Sample data *)

Module Examples.

Import Soup.

(** Stand-ins for the text transformers: markdown as the text of the nodes,
    no summary service, no embedding service. *)
Definition plain : Externals :=
  mkExternals (fun ns => String.concat "" (map Soup.text ns))
    (fun s => s) (fun _ => None) "https://wiki.example".

Definition tag (nm : string) (s : string) : node := Elem nm [] [Text s].
Definition p (s : string) : node := tag "p" s.

(** The headings of the boundary example of the specification. *)
Definition scope_document : list node :=
  [tag "h1" "1 Scope"; p "a"; tag "h2" "1.1 Detail"; p "b";
   tag "h1" "2 Design"; p "c"].

(** The same headings with "1.1 Detail" inside a container. *)
Definition nested_document : list node :=
  [tag "h1" "1 Scope";
   Elem "div" [] [tag "h2" "1.1 Detail"; p "b"];
   tag "h1" "2 Design"; p "c"].

(** A document without headings that names a requirement twice. *)
Definition requirement_document : list node :=
  [p "See FR-ABC-001 and FR-ABC-001 again"].

Definition row (k v : string) : node :=
  Elem "tr" [] [tag "td" k; tag "td" v].

(** A world: the wiki serves [page], cache and index are empty, and the
    storage and index calls behave as the two plans say. *)
Definition world_of (page : Page) (store_plan sink_plan : list (option exn))
  : World :=
  mkWorld {[ id page := page ]} (mkStore ∅ ∅ [] [] store_plan)
    (mkSink [] sink_plan false) 0 [].

(** The same world with an index client built with [dry_run]. *)
Definition dry_run_world (page : Page) (store_plan : list (option exn))
  : World :=
  mkWorld {[ id page := page ]} (mkStore ∅ ∅ [] [] store_plan)
    (mkSink [] [] true) 0 [].

Definition disk_error : exn := Exn "disk I/O error".

Definition no_flags : Processor.Config := Processor.mkConfig false false false.

(** A table with two status rows. *)
Definition status_table : node :=
  Elem "table" []
    [Elem "tr" [] [tag "th" "Document Control"; tag "th" "Value"];
     row "Status" "Draft";
     row "Status" "Approved"].

Definition control_table (status : string) : node :=
  Elem "table" []
    [Elem "tr" [] [tag "th" "Document Control"; tag "th" "Value"];
     row "Document ID" "ABRD-HRMS-2025-1.0";
     row "Status" status].

Definition page_with (version : Z) (body : list node) : Page :=
  mkPage "42" "Requirements" "HR" (Some version) "2025-01-02" "2025-01-01"
    "Author" body.

(** An approved page with an unnumbered heading followed by heading "1". *)
Definition overview_page : Page :=
  page_with 3
    [control_table "Approved"; tag "h1" "Overview"; p "intro";
     tag "h1" "1 Scope"; p "text"].

Definition rejected_page : Page :=
  page_with 3 [control_table "Rejected"; tag "h1" "1 Scope"; p "text"].

Definition approved_page (version : Z) : Page :=
  page_with version [control_table "Approved"; tag "h1" "1 Scope"; p "text"].

End Examples.

(** ** Proof tools *)

(** Unfolding of the monad and of the storage primitives. *)
Ltac unfold_effects :=
  unfold Sql.with_connection, Sql.connect, Sql.execute, Sql.commit,
    Sql.rollback,
    current_timestamp, log, try_except, bind, ret, raise, with_store,
    Sql.storage_call;
  cbn [store faults db txn pending journal remote sink clock logs fst snd].

(** Case analysis on what the next storage call does. *)
Ltac next_fault :=
  match goal with
  | |- context [match ?f with [] => _ | _ :: _ => _ end] =>
      is_var f; destruct f as [|[?|] ?];
      cbn [store faults db txn pending journal remote sink clock logs fst snd
           Sql.run_stmt]
  end.

(** The view after the upload and the upsert that follows it. *)
Ltac view_after_set w2 Hr Hs Hf Hv Hu :=
  destruct w2 as [? ? ? ? ?];
  cbn [remote sink store faults] in Hr, Hs, Hf |- *; subst;
  unfold Observe.view, Observe.cached_version, Observe.cache_values,
    Observe.upserts in *;
  cbn [sink store uploads sink_faults Observe.seen_upserts
       Observe.seen_uploads List.tl] in *;
  rewrite Hv, lookup_insert_eq, Hu;
  by repeat split.

(** * Properties *)

(** ** The matcher against the language of a pattern *)

Module ReFacts.

Import Re.

Lemma consumed_app (w rest : list ascii) : consumed (w ++ rest) rest = w.
Proof.
  unfold consumed. rewrite List.length_app.
  replace (List.length w + List.length rest - List.length rest)%nat
    with (List.length w) by lia.
  rewrite firstn_app, Nat.sub_diag, firstn_all. simpl. apply app_nil_r.
Qed.

Section Sound.
Context {A : Type}.

Lemma star_loop_sound r body :
  sound_for (A := A) (lang r) body ->
  forall n, sound_for (A := A) (lang (Star r)) (star_loop body n).
Proof.
  intros Hbody n. induction n as [|n IH]; intros s k x H; simpl in H.
  - exists [], s. split; [reflexivity|]. split; [constructor|exact H].
  - destruct (body s _) as [y|] eqn:Hb.
    + injection H as ->.
      apply Hbody in Hb as (w1 & s1 & -> & Hw1 & Hk).
      destruct (_ <? _)%nat; [|discriminate].
      apply IH in Hk as (w2 & s2 & -> & Hw2 & Hk).
      exists (w1 ++ w2), s2. rewrite <- app_assoc.
      split; [reflexivity|]. split; [by constructor|exact Hk].
    + exists [], s. split; [reflexivity|]. split; [constructor|exact H].
Qed.

Lemma rmatch_sound r : sound_for (A := A) (lang r) (rmatch r).
Proof.
  induction r as [|p|r1 IH1 r2 IH2|r1 IH1 r2 IH2|r IH]; intros s k x H; simpl in H.
  - exists [], s. split; [reflexivity|]. split; [constructor|exact H].
  - destruct s as [|c s']; [discriminate|].
    destruct (p c) eqn:Hp; [|discriminate].
    exists [c], s'. split; [reflexivity|]. split; [by constructor|exact H].
  - apply IH1 in H as (w1 & s1 & -> & Hw1 & H).
    apply IH2 in H as (w2 & s2 & -> & Hw2 & H).
    exists (w1 ++ w2), s2. rewrite <- app_assoc.
    split; [reflexivity|]. split; [by constructor|exact H].
  - destruct (rmatch r1 s k) as [y|] eqn:H1.
    + injection H as ->. apply IH1 in H1 as (w & s' & -> & Hw & Hk).
      exists w, s'. split; [reflexivity|]. split; [by apply lang_alt_l|exact Hk].
    + apply IH2 in H as (w & s' & -> & Hw & Hk).
      exists w, s'. split; [reflexivity|]. split; [by apply lang_alt_r|exact Hk].
  - eapply star_loop_sound; eauto.
Qed.

Lemma star_loop_complete r body :
  complete_for (A := A) (lang r) body ->
  forall w, lang (Star r) w ->
  forall n s' k, (List.length (w ++ s') <= n)%nat ->
    is_Some (k s') -> is_Some (star_loop body n (w ++ s') k).
Proof.
  intros Hbody w Hw. remember (Star r) as sr eqn:Hsr.
  induction Hw as [| | | | |r0|r0 w1 w2 Hw1 _ Hw2 IH2]; try discriminate.
  - intros n s' k _ Hk. simpl. destruct n as [|n]; simpl; [exact Hk|].
    destruct (body s' _); [by eexists|exact Hk].
  - injection Hsr as ->. intros n s' k Hlen Hk.
    destruct w1 as [|c w1]; [by apply IH2|].
    destruct n as [|n]; [simpl in Hlen; lia|].
    cbn [star_loop].
    match goal with
    | |- is_Some (match ?b with _ => _ end) => assert (is_Some b) as [y Hy]
    end.
    { rewrite <- app_assoc. apply Hbody; [exact Hw1|].
      replace (_ <? _)%nat with true.
      - apply IH2; [reflexivity| |exact Hk].
        rewrite <- app_assoc in Hlen. simpl in Hlen.
        rewrite List.length_app in Hlen. lia.
      - symmetry. apply Nat.ltb_lt. simpl. rewrite !List.length_app. lia. }
    rewrite Hy. by eexists.
Qed.

Lemma rmatch_complete r : complete_for (A := A) (lang r) (rmatch r).
Proof.
  induction r as [|p|r1 IH1 r2 IH2|r1 IH1 r2 IH2|r IH]; intros w s' k Hw Hk.
  - inversion Hw; subst. exact Hk.
  - inversion Hw; subst. simpl. rewrite H0. exact Hk.
  - inversion Hw; subst. simpl. rewrite <- app_assoc.
    apply IH1; [assumption|]. by apply IH2.
  - simpl. inversion Hw; subst.
    + destruct (IH1 w s' k H2 Hk) as [y ->]. by eexists.
    + destruct (rmatch r1 (w ++ s') k); [by eexists|]. by apply IH2.
  - simpl. eapply star_loop_complete; eauto.
Qed.
End Sound.

Lemma match_at_sound r s w rest :
  match_at r s = Some (w, rest) -> s = w ++ rest /\ lang r w.
Proof.
  unfold match_at. intros H.
  apply rmatch_sound in H as (w' & s' & -> & Hw & H).
  rewrite consumed_app in H. injection H as <- <-. by split.
Qed.

Lemma match_at_none r s :
  match_at r s = None -> forall w t, lang r w -> s <> w ++ t.
Proof.
  unfold match_at. intros H w t Hw ->.
  destruct (rmatch_complete (A := list ascii * list ascii) r w t
              (fun rest => Some (consumed (w ++ t) rest, rest)) Hw) as [y Hy].
  - by eexists.
  - congruence.
Qed.

Lemma findall_l_skip r (w s : list ascii) :
  findall_l r (List.length w) (w ++ s) = findall_l r 0 s.
Proof. induction w as [|c w IH]; [reflexivity|exact IH]. Qed.

(** On a pattern that does not match the empty word, [findall] returns the
    matches of a scan from the left. *)
Lemma findall_l_scan r :
  ~ lang r [] -> forall s, scan (lang r) s (findall_l r 0 s).
Proof.
  intros Hne s.
  remember (List.length s) as n eqn:Hn. revert s Hn.
  induction n as [n IH] using lt_wf_ind. intros s Hn.
  destruct s as [|c s'].
  - simpl. destruct (match_at r []) as [[w rest]|] eqn:Hm; [|constructor].
    apply match_at_sound in Hm as [Heq Hw].
    symmetry in Heq. apply app_eq_nil in Heq as [-> _]. contradiction.
  - simpl. destruct (match_at r (c :: s')) as [[w rest]|] eqn:Hm.
    + apply match_at_sound in Hm as [Heq Hw].
      destruct w as [|c' w']; [contradiction|].
      simpl in Heq. injection Heq as <- ->.
      simpl. rewrite Nat.sub_0_r, findall_l_skip.
      apply (scan_hit (lang r) (c :: w') rest); [exact Hw|discriminate|].
      apply (IH (List.length rest)); [|reflexivity].
      subst n. simpl. rewrite List.length_app. lia.
    + apply scan_skip; [by apply match_at_none|].
      apply (IH (List.length s')); [subst n; simpl; lia|reflexivity].
Qed.

End ReFacts.

(** ** Trees *)

Module SoupFacts.

Import Soup.

(** Induction on a list of sibling nodes and, inside, on their children. *)
Lemma forest_ind (P : list node -> Prop) :
  P [] ->
  (forall s l, P l -> P (Text s :: l)) ->
  (forall nm a ch l, P ch -> P l -> P (Elem nm a ch :: l)) ->
  forall l, P l.
Proof.
  intros Hnil Htext Helem.
  assert (forall n l, P l -> P (n :: l)) as Hstep.
  { fix IHn 1. intros [s|nm a ch] l Hl.
    - by apply Htext.
    - apply Helem; [|exact Hl].
      induction ch as [|c ch' IHch]; [exact Hnil|].
      apply IHn, IHch. }
  intros l. induction l as [|n l IH]; [exact Hnil|by apply Hstep].
Qed.

Lemma select_node_elem names nm a ch sibs :
  select_node names (Elem nm a ch) sibs =
  (if name_in names nm then [(Elem nm a ch, sibs)] else []) ++ select names ch.
Proof.
  cbn [select_node]. f_equal.
  induction ch as [|c ch' IH]; [reflexivity|].
  cbn [select]. by rewrite <- IH.
Qed.

Lemma eqb_refl_forest (l : list node) : Forall (fun n => eqb n n = true) l.
Proof.
  induction l as [|s l IH|nm a ch l IHch IH] using forest_ind.
  - constructor.
  - constructor; [|exact IH]. simpl. apply String.eqb_refl.
  - constructor; [|exact IH]. simpl.
    rewrite String.eqb_refl. unfold attrs_eqb. rewrite bool_decide_eq_true_2 by done.
    simpl. induction IHch as [|x l' Hx _ IHl]; [reflexivity|].
    rewrite Hx. exact IHl.
Qed.

Lemma eqb_refl (n : node) : eqb n n = true.
Proof.
  pose proof (eqb_refl_forest [n]) as H. by inversion H.
Qed.

Lemma eqb_name (a b : node) : eqb a b = true -> name a = name b.
Proof.
  destruct a as [s|n1 a1 c1], b as [t|n2 a2 c2]; simpl; try discriminate; [done|].
  intros H. apply andb_prop in H as [H _]. apply andb_prop in H as [H _].
  apply String.eqb_eq in H. by subst.
Qed.

(** Every selected tag carries one of the names asked for. *)
Lemma select_names names (l : list node) :
  Forall (fun p => exists nm, name (fst p) = Some nm /\ name_in names nm = true)
    (select names l).
Proof.
  induction l as [|s l IH|nm a ch l IHch IH] using forest_ind.
  - constructor.
  - exact IH.
  - cbn [select]. rewrite select_node_elem.
    apply Forall_app. split; [|exact IH].
    apply Forall_app. split; [|exact IHch].
    destruct (name_in names nm) eqn:Hn; constructor; [|constructor].
    exists nm. by split.
Qed.

(** A sibling that carries one of the names is selected. *)
Lemma select_sibling names (l : list node) n nm :
  n ∈ l -> name n = Some nm -> name_in names nm = true ->
  n ∈ map fst (select names l).
Proof.
  intros Hin Hname Hnm. induction l as [|c l IH]; [by apply elem_of_nil in Hin|].
  cbn [select]. rewrite map_app. apply elem_of_app.
  apply elem_of_cons in Hin as [<-|Hin].
  - left. destruct n as [s|nm' a ch]; [discriminate|].
    injection Hname as ->. rewrite select_node_elem, Hnm. simpl.
    apply elem_of_cons. by left.
  - right. by apply IH.
Qed.

(** In document order a tag comes before the named tags among its later
    siblings. *)
Lemma select_later_siblings names (l : list node) :
  forall i h sibs, select names l !! i = Some (h, sibs) ->
  forall n nm, n ∈ sibs -> name n = Some nm -> name_in names nm = true ->
  n ∈ map fst (drop (S i) (select names l)).
Proof.
  induction l as [|s l IH|nm a ch l IHch IH] using forest_ind;
    intros i h sibs Hi n nm' Hin Hname Hnm.
  - discriminate.
  - cbn [select] in *. simpl in *. by eapply IH.
  - cbn [select] in *. rewrite select_node_elem in *.
    set (hd := if name_in names nm then [(Elem nm a ch, l)] else []) in *.
    rewrite <- app_assoc in *.
    destruct (decide (i < List.length hd)%nat) as [Hlt|Hge].
    + (* the tag itself *)
      rewrite lookup_app_l in Hi by exact Hlt.
      subst hd. destruct (name_in names nm); [|simpl in Hlt; lia].
      destruct i as [|i]; [|simpl in Hlt; lia].
      injection Hi as <- <-. simpl. rewrite drop_0, map_app. apply elem_of_app. right.
      by eapply select_sibling.
    + rewrite lookup_app_r in Hi by lia.
      rewrite drop_app_ge by lia.
      replace (S i - List.length hd)%nat with (S (i - List.length hd)) by lia.
      set (j := (i - List.length hd)%nat) in *.
      destruct (decide (j < List.length (select names ch))%nat) as [Hlt|Hge'].
      * rewrite lookup_app_l in Hi by exact Hlt.
        rewrite drop_app_le by lia. rewrite map_app. apply elem_of_app. left.
        by eapply IHch.
      * rewrite lookup_app_r in Hi by lia.
        rewrite drop_app_ge by lia.
        replace (S j - List.length (select names ch))%nat
          with (S (j - List.length (select names ch))) by lia.
        by eapply IH.
Qed.

End SoupFacts.

(** ** Section segmentation *)

Module SectionsFacts.

Import Soup Sections SoupFacts.

Lemma is_heading_name n :
  is_heading n = true <->
  exists nm, name n = Some nm /\ name_in heading_names nm = true.
Proof.
  unfold is_heading. destruct (name n) as [nm|]; split.
  - intros H. by exists nm.
  - by intros (nm' & [= <-] & H).
  - discriminate.
  - by intros (nm' & [=] & _).
Qed.

Lemma elem_of_tags_true x l :
  elem_of_tags x l = true <-> exists y, y ∈ l /\ eqb x y = true.
Proof.
  unfold elem_of_tags. rewrite existsb_exists.
  split; intros (y & Hy & He); exists y; (split; [|exact He]);
    by apply list_elem_of_In.
Qed.

(** The loop under the two facts that hold for the headings of a document:
    a heading among the siblings is one of the later headings, and only
    headings equal later headings. *)
Lemma collect_boundary last later sibs :
  (forall n, n ∈ sibs -> is_heading n = true ->
     elem_of_tags n later = true /\ last = false) ->
  (forall n, elem_of_tags n later = true -> is_heading n = true) ->
  collect last later sibs = List.filter is_content (run_to_boundary sibs).
Proof.
  intros Hhead Hlater.
  induction sibs as [|cur rest IH]; [reflexivity|].
  cbn [collect run_to_boundary].
  destruct (node_truthy cur) eqn:Hcur; cbn [andb negb];
    [|by rewrite orb_true_r].
  rewrite orb_false_r.
  destruct (is_heading cur) eqn:Hh.
  - destruct (Hhead cur) as [-> ->]; [by left|done|]. reflexivity.
  - assert (elem_of_tags cur later = false) as ->.
    { destruct (elem_of_tags cur later) eqn:He; [|done].
      apply Hlater in He. congruence. }
    rewrite orb_true_r. cbn [negb List.filter].
    rewrite IH; [|intros n Hn; apply Hhead; by right].
    by destruct (is_content cur).
Qed.

Lemma content_elements_boundary soup i h sibs :
  headings soup !! i = Some (h, sibs) ->
  content_elements (headings soup) i sibs =
  List.filter is_content (run_to_boundary sibs).
Proof.
  intros Hi. unfold content_elements. apply collect_boundary.
  - intros n Hn Hh. apply is_heading_name in Hh as (nm & Hname & Hnm).
    pose proof (select_later_siblings heading_names soup i h sibs Hi n nm
                  Hn Hname Hnm) as Hlater.
    split.
    + apply elem_of_tags_true. exists n. split; [exact Hlater|apply eqb_refl].
    + apply Nat.eqb_neq. intros ->.
      apply lookup_lt_Some in Hi.
      rewrite drop_ge in Hlater by (unfold headings in *; lia).
      by apply elem_of_nil in Hlater.
  - intros n Hn. apply elem_of_tags_true in Hn as (y & Hy & He).
    apply list_elem_of_In, in_map_iff in Hy as ([y' ys] & <- & Hy).
    apply list_elem_of_In, (subseteq_drop (S i)) in Hy.
    pose proof (select_names heading_names soup) as Hall.
    rewrite Forall_forall in Hall.
    destruct (Hall (y', ys) Hy) as (nm & Hname & Hnm).
    apply is_heading_name. exists nm. split; [|exact Hnm].
    apply eqb_name in He. simpl in *. congruence.
Qed.

Lemma run_to_boundary_parsed sibs :
  no_empty_strings sibs -> run_to_boundary sibs = run_to_next_heading sibs.
Proof.
  induction 1 as [|n rest Hn _ IH]; [reflexivity|].
  cbn [run_to_boundary run_to_next_heading]. rewrite Hn. cbn [negb].
  rewrite orb_false_r. by rewrite IH.
Qed.

Lemma requirement_pattern_nonempty : ~ Re.lang requirement_pattern [].
Proof.
  intros H.
  pose proof (ReFacts.match_at_none requirement_pattern []) as Hnone.
  by apply (Hnone eq_refl [] [] H).
Qed.

(** X27. For a section built from a heading, the requirement ids are the
    matches of the pattern met on a scan of its content from the left: in
    order, with repetitions, none overlapping, and a position is passed over
    only if no match starts there. *)
Lemma heading_requirement_ids ext hs i h :
  let sec := make_section ext hs i h in
  requirement_ids sec = find_requirement_ids (content sec) /\
  Re.scan (Re.lang requirement_pattern) (Str.chars (content sec))
    (map Str.chars (requirement_ids sec)).
Proof.
  unfold make_section. destruct (number_and_title h.1) as [number heading_text].
  cbn [requirement_ids content]. split; [reflexivity|].
  unfold find_requirement_ids, Re.findall. rewrite map_map.
  erewrite map_ext; [|intros; apply list_ascii_of_string_of_list_ascii].
  rewrite map_id. apply ReFacts.findall_l_scan, requirement_pattern_nonempty.
Qed.

(** C7, as the code has it. The boundary is a sibling: for every heading of
    every document, the content of its section is made of the siblings that
    follow the heading up to, and without, the first heading among them,
    whatever its level (of these, the tags; strings are left out). The run
    ends as well at an empty string node, which a parsed document does not
    have: without one it is the run to the next sibling heading. A heading
    that lies inside a following sibling does not end the run. *)
Theorem flat_section_boundary ext soup m i h sibs :
  headings soup !! i = Some (h, sibs) ->
  exists sec,
    split_content_into_sections ext soup m !! i = Some sec /\
    content sec =
      html_to_markdown ext (List.filter is_content (run_to_boundary sibs)) /\
    (no_empty_strings sibs ->
     content sec =
       html_to_markdown ext
         (List.filter is_content (run_to_next_heading sibs))).
Proof.
  intros Hi. unfold split_content_into_sections.
  destruct (headings soup) as [|h0 hs] eqn:Hhs; [discriminate|].
  rewrite <- Hhs in *. rewrite list_lookup_imap, Hi. cbn [fmap option_fmap option_map].
  eexists. split; [reflexivity|].
  unfold make_section. cbn [fst snd].
  destruct (number_and_title h) as [number heading_text]. cbn [content].
  rewrite (content_elements_boundary soup i h sibs Hi).
  split; [reflexivity|]. intros Hne. by rewrite run_to_boundary_parsed.
Qed.

(** The example of the specification, its three headings being siblings:
    the run of "1 Scope" stops at "1.1 Detail". *)
Lemma flat_section_boundary_witness :
  let sibs := List.tl Examples.scope_document in
  headings Examples.scope_document !! 0%nat
    = Some (Examples.tag "h1" "1 Scope", sibs) /\
  no_empty_strings sibs /\
  List.filter is_content (run_to_boundary sibs) = [Examples.p "a"] /\
  List.filter is_content (run_to_next_heading sibs) = [Examples.p "a"] /\
  exists sec,
    split_content_into_sections Examples.plain Examples.scope_document
      empty_metadata !! 0%nat = Some sec /\
    content sec =
      html_to_markdown Examples.plain
        (List.filter is_content (run_to_boundary sibs)) /\
    (no_empty_strings sibs ->
     content sec =
       html_to_markdown Examples.plain
         (List.filter is_content (run_to_next_heading sibs))).
Proof.
  split; [reflexivity|]. split; [repeat constructor|]. split; [reflexivity|].
  split; [reflexivity|].
  apply (flat_section_boundary Examples.plain Examples.scope_document
           empty_metadata 0 (Examples.tag "h1" "1 Scope")
           (List.tl Examples.scope_document)).
  reflexivity.
Defined.

(** C7 as stated fails: with the same three headings, "1.1 Detail" lying
    inside an element that follows "1 Scope", the run of "1 Scope" is that
    element, heading and all; it stops at "2 Design", not at the next
    heading. *)
Lemma heading_inside_run :
  let doc := Examples.nested_document in
  let hs := headings doc in
  let sibs := List.tl doc in
  let run := content_elements hs 0 sibs in
  map (fun h => (name h.1, text h.1)) hs =
    [(Some "h1", "1 Scope"); (Some "h2", "1.1 Detail");
     (Some "h1", "2 Design")] /\
  hs !! 0%nat = Some (Examples.tag "h1" "1 Scope", sibs) /\
  run = [Elem "div" [] [Examples.tag "h2" "1.1 Detail"; Examples.p "b"]] /\
  find_all heading_names run = [Examples.tag "h2" "1.1 Detail"] /\
  map content
    (split_content_into_sections Examples.plain doc empty_metadata)
    = ["1.1 Detailb"; "b"; "c"] /\
  ~ (find_all heading_names run = []).
Proof. vm_compute. repeat split. discriminate. Qed.

(** C10. When headings exist, the content of a section is built from the
    collected nodes only, and every collected node is a tag whose name is not
    a heading name: a string that lies directly between two headings is in no
    section, so the sections are the same with it and without it. *)
Theorem loose_text_omitted ext :
  (forall hs i h,
     content (make_section ext hs i h)
       = html_to_markdown ext (content_elements hs i (snd h)) /\
     Forall (fun n => exists nm a ch,
               n = Elem nm a ch /\ name_in heading_names nm = false)
       (content_elements hs i (snd h))) /\
  (forall t m,
     split_content_into_sections ext
       [Examples.tag "h1" "A"; Text t; Examples.tag "h1" "B"] m =
     split_content_into_sections ext
       [Examples.tag "h1" "A"; Examples.tag "h1" "B"] m).
Proof.
  split.
  - intros hs i h. split.
    + unfold make_section. by destruct (number_and_title h.1).
    + unfold content_elements.
      generalize (i =? List.length hs - 1)%nat (map fst (drop (S i) hs)).
      intros last later. induction (snd h) as [|cur rest IH]; [constructor|].
      cbn [collect].
      destruct (node_truthy cur && (last || negb (elem_of_tags cur later)));
        [|constructor].
      apply Forall_app. split; [|exact IH].
      destruct (is_content cur) eqn:Hc; [|constructor].
      constructor; [|constructor].
      unfold is_content in Hc. destruct cur as [s|nm a ch]; [discriminate|].
      cbn [name] in Hc. apply andb_prop in Hc as [_ Hc].
      exists nm, a, ch. split; [reflexivity|].
      by destruct (name_in heading_names nm).
  - intros [|c t] m; reflexivity.
Qed.

(** C9, on the missed case. A document without headings becomes one section
    whose content names a requirement twice, and whose requirement ids are
    empty; the pattern finds both occurrences in that content. *)
Theorem requirement_ids_without_headings :
  let secs := split_content_into_sections Examples.plain
                Examples.requirement_document empty_metadata in
  map content secs = ["See FR-ABC-001 and FR-ABC-001 again"] /\
  map requirement_ids secs = [[]] /\
  find_requirement_ids "See FR-ABC-001 and FR-ABC-001 again"
    = ["FR-ABC-001"; "FR-ABC-001"].
Proof. vm_compute. by repeat split. Qed.

End SectionsFacts.

(** ** Metadata extraction *)

Module MetadataFacts.

Import Metadata.

Lemma field_parse_document_id l m v :
  field l (parse_document_id m v) = field l m.
Proof.
  unfold parse_document_id.
  destruct (match_project_code _);
    destruct (Str.startswith v "ABRD-"), (Str.startswith v "FBRD-");
    by destruct l.
Qed.

(** A row assigns the field its label is classified to, and no other. *)
Lemma field_assign_row l m key value :
  field l (assign_row m key value) =
  match classify key with
  | Some l' => if label_eqb l l' then value else field l m
  | None => field l m
  end.
Proof.
  unfold assign_row, classify.
  destruct (Re.search pat_document_id key).
  { rewrite field_parse_document_id. by destruct l. }
  destruct (Re.search pat_version key); [by destruct l|].
  destruct (Re.search pat_status key); [by destruct l|].
  destruct (Re.search pat_created key); [by destruct l|].
  destruct (Re.search pat_updated key); [by destruct l|].
  destruct (Re.search pat_owner key); by destruct l.
Qed.

Lemma scan_table_pairs table m :
  scan_table table m =
  fold_left (fun m kv => assign_row m (fst kv) (snd kv)) (table_pairs table) m.
Proof.
  unfold scan_table, table_pairs.
  generalize (Soup.find_all_in ["tr"] table) as rows. intros rows. revert m.
  induction rows as [|r rows IH]; intros m; [reflexivity|].
  cbn [fold_left omap list_omap]. rewrite IH. unfold scan_row.
  destruct (row_pair r) as [[key value]|]; reflexivity.
Qed.

Lemma last_cons {A} (a d : A) (l : list A) :
  List.last (a :: l) d = List.last l a.
Proof.
  revert a d. induction l as [|b l IH]; intros a d; [reflexivity|].
  change (List.last (a :: b :: l) d) with (List.last (b :: l) d).
  by rewrite !IH.
Qed.

Lemma field_fold_pairs l pairs m :
  field l (fold_left (fun m kv => assign_row m (fst kv) (snd kv)) pairs m) =
  List.last (values_for l pairs) (field l m).
Proof.
  revert m. induction pairs as [|[key value] pairs IH]; intros m; [reflexivity|].
  cbn [fold_left]. rewrite IH, field_assign_row. unfold values_for.
  cbn [List.filter fst snd].
  destruct (classify key) as [l'|]; [|reflexivity].
  destruct (label_eqb l l'); [|reflexivity].
  cbn [map snd]. by rewrite last_cons.
Qed.

(** C3, as the code has it. After the scan of a table every field holds the
    value of the last row, among the rows of two cells or more, whose label
    the pattern chain classifies to that field: a later row overwrites an
    earlier one. A field no row is classified to keeps its value. *)
Theorem last_match_wins table l m0 :
  field l (scan_table table m0) =
  List.last (values_for l (table_pairs table)) (field l m0).
Proof. rewrite scan_table_pairs. apply field_fold_pairs. Qed.

(** C3 as stated fails: of two status rows the second one is kept. *)
Lemma first_match_overwritten :
  values_for LStatus (table_pairs Examples.status_table) = ["Draft"; "Approved"] /\
  status (scan_table Examples.status_table empty_metadata) = "Approved" /\
  status (extract_metadata (Examples.page_with 1 [Examples.status_table]))
    <> List.hd "" (values_for LStatus (table_pairs Examples.status_table)).
Proof. vm_compute. repeat split; discriminate. Qed.

End MetadataFacts.

(** ** Record identifiers *)

Module IdFacts.

Import Processor.

Lemma pretty_N_go_clean x s :
  Str.no_underscore s = true -> Str.no_underscore (pretty_N_go x s) = true.
Proof.
  revert s. induction (N.lt_wf_0 x) as [x _ IH]. intros s Hs.
  destruct (decide (0 < x)%N) as [Hx|Hx].
  - rewrite pretty_N_go_step by done. apply IH; [by apply N.div_lt|].
    cbn [Str.no_underscore]. rewrite Hs, andb_true_r.
    unfold pretty_N_char. by repeat case_match.
  - replace x with 0%N by lia. by rewrite pretty_N_go_0.
Qed.

Lemma pretty_N_clean (x : N) : Str.no_underscore (pretty x) = true.
Proof.
  unfold pretty, pretty_N. case_decide; [reflexivity|].
  by apply pretty_N_go_clean.
Qed.

Lemma pretty_Z_clean (x : Z) : Str.no_underscore (pretty x) = true.
Proof.
  destruct x as [|x|x]; [reflexivity|apply pretty_N_clean|].
  change (pretty (Z.neg x)) with (String "-" (pretty (N.pos x))).
  cbn [Str.no_underscore]. by rewrite pretty_N_clean.
Qed.

Lemma clean_prefix_unique a b x y :
  Str.no_underscore a = true -> Str.no_underscore b = true ->
  a +:+ String "_" x = b +:+ String "_" y -> a = b.
Proof.
  revert b. induction a as [|c a IH]; intros [|d b] Ha Hb H; cbn in *.
  - reflexivity.
  - injection H as <- _. discriminate.
  - injection H as -> _. discriminate.
  - injection H as -> H. apply andb_prop in Ha as [_ Ha].
    apply andb_prop in Hb as [_ Hb]. f_equal. by apply IH.
Qed.

(** Two identifiers of one page are equal only at the same version. *)
Lemma record_id_version page_id v1 v2 part1 part2 :
  record_id page_id v1 part1 = record_id page_id v2 part2 -> v1 = v2.
Proof.
  unfold record_id. intros H.
  apply (inj (String.app page_id)) in H.
  apply (inj (String.app "_v")) in H.
  apply clean_prefix_unique in H; [|apply pretty_Z_clean..].
  by apply (inj pretty) in H.
Qed.

Lemma build_documents_ids ext cfg page_id page v m d :
  In d (build_documents ext cfg page_id page v m) ->
  exists part, doc_id d = record_id page_id v part.
Proof.
  unfold build_documents. intros [<-|H]; [by eexists|].
  apply in_map_iff in H as (section & <- & _). by eexists.
Qed.

(** X28. The records built for two different versions of a page share no
    identifier. *)
Lemma versions_never_collide ext cfg page_id page1 page2 v1 v2 m1 m2 d1 d2 :
  v1 <> v2 ->
  In d1 (build_documents ext cfg page_id page1 v1 m1) ->
  In d2 (build_documents ext cfg page_id page2 v2 m2) ->
  doc_id d1 <> doc_id d2.
Proof.
  intros Hne H1 H2 Heq.
  apply build_documents_ids in H1 as [part1 H1].
  apply build_documents_ids in H2 as [part2 H2].
  rewrite H1, H2 in Heq. by apply record_id_version in Heq.
Qed.

Lemma versions_never_collide_witness :
  let page3 := Examples.approved_page 3 in
  let page4 := Examples.approved_page 4 in
  let d1 := full_document Examples.plain Examples.no_flags "42" page3 3
              empty_metadata (html_to_markdown Examples.plain (body page3)) in
  let d2 := full_document Examples.plain Examples.no_flags "42" page4 4
              empty_metadata (html_to_markdown Examples.plain (body page4)) in
  doc_id d1 = "42_v3_full" /\ doc_id d2 = "42_v4_full" /\
  doc_id d1 <> doc_id d2.
Proof.
  split; [reflexivity|]. split; [reflexivity|].
  apply (versions_never_collide Examples.plain Examples.no_flags "42"
           (Examples.approved_page 3) (Examples.approved_page 4) 3 4
           empty_metadata empty_metadata).
  - lia.
  - left. reflexivity.
  - left. reflexivity.
Defined.

End IdFacts.

(** ** Exceptions and state *)

Module EffectFacts.

Lemma bind_ok {A B} (m : M A) (f : A -> M B) w a w' :
  m w = (Ok a, w') -> bind m f w = f a w'.
Proof. unfold bind. by intros ->. Qed.

Lemma bind_raise {A B} (m : M A) (f : A -> M B) w e w' :
  m w = (Raise e, w') -> bind m f w = (Raise e, w').
Proof. unfold bind. by intros ->. Qed.

Lemma try_except_ok {A} (m : M A) h w a w' :
  m w = (Ok a, w') -> try_except m h w = (Ok a, w').
Proof. unfold try_except. by intros ->. Qed.

Lemma try_except_raise {A} (m : M A) h w e w' :
  m w = (Raise e, w') -> try_except m h w = h e w'.
Proof. unfold try_except. by intros ->. Qed.

Lemma try_except_bind_ok {A B} (m : M A) (f : A -> M B) h w a w' :
  m w = (Ok a, w') -> try_except (bind m f) h w = try_except (f a) h w'.
Proof. unfold try_except, bind. by intros ->. Qed.

End EffectFacts.

Module CacheFacts.

Import Sql Cache Observe EffectFacts.

Lemma fmap_value_touch now key (d : gmap string Row) :
  value <$> alter (touch now) key d = value <$> d.
Proof.
  apply map_eq. intros k. rewrite !lookup_fmap, lookup_alter.
  case_decide; [subst|done]. by destruct (d !! k).
Qed.

Lemma filter_upsert_reads (j : list stmt) (qs : list stmt) :
  forallb (fun q => negb (is_upsert q)) qs = true ->
  List.length (List.filter is_upsert (j ++ qs)) =
  List.length (List.filter is_upsert j).
Proof.
  intros H. rewrite List.filter_app, List.length_app.
  assert (List.filter is_upsert qs = []) as ->; [|simpl; lia].
  induction qs as [|q qs IH]; [reflexivity|].
  simpl in *. apply andb_prop in H as [Hq H].
  destruct (is_upsert q); [discriminate|]. by apply IH.
Qed.

Lemma get_cases key w :
  exists r w', get key w = (Ok r, w') /\ only_read w w' /\
    (r = None \/ r = cache_values w !! key) /\
    (faults (store w) = [] -> r = cache_values w !! key /\ faults (store w') = []).
Proof.
  destruct w as [rem [d t p j f] snk clk lg].
  unfold get, get_body. unfold_effects.
  unfold only_read, cache_values, upserts.
  cbn [store faults db txn pending journal remote sink clock logs fst snd run_stmt].
  rewrite lookup_fmap.
  repeat next_fault;
    try (destruct (d !! key) as [row|] eqn:Hrow; cbn; repeat next_fault);
    (eexists _, _; split; [reflexivity|]; cbn).
  all: rewrite ?fmap_value_touch, ?app_nil_r.
  all: split; [repeat split; try reflexivity;
               try (apply filter_upsert_reads; reflexivity)|].
  all: split; [auto|intros; try discriminate; auto].
Qed.

(** A guarded method is its [try] block with a handler that logs and returns
    the benign value. *)
Lemma call_guarded {A} (op : cache_op A) :
  exists msg : exn -> string,
    call op =
    try_except (try_block op)
      (fun e => bind (log (msg e)) (fun _ => ret (benign op))).
Proof. destruct op; eexists (fun e => _); reflexivity. Qed.

Lemma call_total {A} (op : cache_op A) w :
  exists r w', call op w = (Ok r, w').
Proof.
  destruct (call_guarded op) as [msg ->]. unfold try_except.
  destruct (try_block op w) as [[a|e] w1]; [by eexists _, _|].
  unfold bind, log, ret. by eexists _, _.
Qed.

Lemma call_raise {A} (op : cache_op A) w e w1 :
  try_block op w = (Raise e, w1) ->
  exists msg, call op w = (Ok (benign op), logged msg w1).
Proof.
  intros H. destruct (call_guarded op) as [msg ->].
  rewrite (try_except_raise _ _ _ _ _ H). by exists (msg e).
Qed.

End CacheFacts.

(** ** The orchestrator *)

Module ProcessorFacts.

Import Processor Observe EffectFacts CacheFacts.

Lemma only_read_refl w : only_read w w.
Proof. by repeat split. Qed.

Lemma only_read_logged msg w w' : only_read w w' -> only_read w (logged msg w').
Proof. intros (? & ? & ? & ?). by repeat split. Qed.

Lemma version_gate_run cfg pid cached current_version w :
  exists msg,
    version_gate cfg pid cached current_version w =
    (Ok (if skips cfg (version <$> cached) current_version then Skip else Process),
     logged msg w).
Proof.
  unfold version_gate, skips.
  destruct cached as [c|], (force_reindex cfg);
    cbn [fmap option_fmap option_map negb andb];
    try destruct (_ <=? _)%Z; by eexists.
Qed.

Lemma skips_iff cfg (cached : option CacheRecord) current_version :
  skips cfg (version <$> cached) current_version = true <->
  exists record, cached = Some record /\ force_reindex cfg = false /\
    (float_of_int current_version <= float_of_int (version record))%Z.
Proof.
  unfold skips. destruct cached as [c|]; cbn [fmap option_fmap option_map].
  - rewrite andb_true_iff, negb_true_iff, Z.leb_le. split.
    + intros [Hf Hle]. by exists c.
    + by intros (record & [= <-] & Hf & Hle).
  - split; [discriminate|]. by intros (record & [=] & _).
Qed.

(** [process_page] up to the decision of the version gate. *)
Lemma process_page_gate ext cfg pid page w :
  remote w !! pid = Some page ->
  let current_version := default 0%Z (version_number page) in
  exists cached w1 msg,
    Cache.get pid w = (Ok cached, w1) /\ only_read w w1 /\
    (cached = None \/ cached = cache_values w !! pid) /\
    (faults (store w) = [] ->
       cached = cache_values w !! pid /\ faults (store w1) = []) /\
    process_page ext cfg pid w =
      if skips cfg (version <$> cached) current_version
      then (Ok true, logged msg w1)
      else try_except (process_content ext cfg pid page current_version)
             (on_error pid) (logged msg w1).
Proof.
  intros Hpage current_version.
  destruct (get_cases pid w) as (cached & w1 & Hget & Hread & Hval & Hnf).
  destruct (version_gate_run cfg pid cached current_version w1) as [msg Hgate].
  exists cached, w1, msg. repeat (split; [assumption|]).
  unfold process_page, process_page_body.
  rewrite (try_except_bind_ok _ _ _ w page w);
    [|unfold get_page_by_id; by rewrite Hpage].
  rewrite (try_except_bind_ok _ _ _ _ _ _ Hget).
  fold current_version.
  rewrite (try_except_bind_ok _ _ _ _ _ _ Hgate).
  by destruct (skips cfg (version <$> cached) current_version).
Qed.

(** C1. Version gate: once the page is fetched, [process_page] returns
    success from the state the cache lookup left, publishing nothing, exactly
    when the lookup returned a record, forced reprocessing is off and the
    current version, as a float, is at most the cached one; otherwise it goes
    on to process the page from that state. *)
Theorem version_gate_decision ext cfg pid page w :
  remote w !! pid = Some page ->
  let current_version := default 0%Z (version_number page) in
  exists cached w1 msg,
    Cache.get pid w = (Ok cached, w1) /\
    let skip :=
      exists record, cached = Some record /\ force_reindex cfg = false /\
        (float_of_int current_version <= float_of_int (version record))%Z in
    (skip ->
       process_page ext cfg pid w = (Ok true, logged msg w1) /\
       only_read w (logged msg w1)) /\
    (~ skip ->
       process_page ext cfg pid w =
       try_except (process_content ext cfg pid page current_version)
         (on_error pid) (logged msg w1)).
Proof.
  intros Hpage current_version.
  destruct (process_page_gate ext cfg pid page w Hpage)
    as (cached & w1 & msg & Hget & Hread & _ & _ & Hrun).
  exists cached, w1, msg. split; [exact Hget|]. cbn zeta.
  fold current_version in Hrun. rewrite <- skips_iff.
  destruct (skips cfg (version <$> cached) current_version); split.
  - intros _. split; [exact Hrun|by apply only_read_logged].
  - intros H. by destruct H.
  - discriminate.
  - intros _. exact Hrun.
Qed.

End ProcessorFacts.

(** ** [float] on integers *)

Module FloatFacts.

Import Processor.

Local Open Scope Z_scope.











End FloatFacts.

(** ** The gates of [process_page] *)

Module GateFacts.

Import Processor Observe EffectFacts CacheFacts ProcessorFacts.

(** The gate on a page the wiki serves, cache empty. *)
Lemma version_gate_decision_witness :
  let page := Examples.approved_page 3 in
  let w := Examples.world_of page [] [] in
  remote w !! "42" = Some page /\
  exists cached w1 msg,
    Cache.get "42" w = (Ok cached, w1) /\
    let skip :=
      exists record, cached = Some record /\
        force_reindex Examples.no_flags = false /\
        (float_of_int 3 <= float_of_int (version record))%Z in
    (skip ->
       process_page Examples.plain Examples.no_flags "42" w
         = (Ok true, logged msg w1) /\
       only_read w (logged msg w1)) /\
    (~ skip ->
       process_page Examples.plain Examples.no_flags "42" w =
       try_except (process_content Examples.plain Examples.no_flags "42" page 3)
         (on_error "42") (logged msg w1)).
Proof.
  split; [reflexivity|].
  apply (version_gate_decision Examples.plain Examples.no_flags "42"
           (Examples.approved_page 3)
           (Examples.world_of (Examples.approved_page 3) [] [])).
  reflexivity.
Defined.

(** C5. Status gate: when the status of the extracted metadata, in upper
    case, is neither DRAFT nor APPROVED, [process_page] returns success, the
    index is as before (nothing is published) and so are the cached records
    and the number of upserts (no cache update). *)
Theorem status_gate ext cfg pid page w :
  remote w !! pid = Some page ->
  status_allowed (Metadata.extract_metadata page) = false ->
  exists w', process_page ext cfg pid w = (Ok true, w') /\ only_read w w'.
Proof.
  intros Hpage Hstatus.
  destruct (process_page_gate ext cfg pid page w Hpage)
    as (cached & w1 & msg & _ & Hread & _ & _ & ->).
  destruct (skips cfg _ _).
  - eexists. split; [reflexivity|]. by apply only_read_logged.
  - unfold process_content. rewrite Hstatus. cbn [negb].
    unfold try_except, bind, log, ret. eexists. split; [reflexivity|].
    by apply (only_read_logged _ w), only_read_logged.
Qed.

(** A page whose control table says "Rejected". *)
Lemma status_gate_witness :
  let page := Examples.rejected_page in
  let w := Examples.world_of page [] [] in
  remote w !! "42" = Some page /\
  status_allowed (Metadata.extract_metadata page) = false /\
  exists w',
    process_page Examples.plain Examples.no_flags "42" w = (Ok true, w') /\
    only_read w w'.
Proof.
  split; [reflexivity|]. split; [reflexivity|].
  apply (status_gate Examples.plain Examples.no_flags "42"
           Examples.rejected_page
           (Examples.world_of Examples.rejected_page [] []));
    reflexivity.
Defined.

(** C8. Cache error absorption: a guarded cache operation never raises; when
    its [try] block raises, whatever the storage error, the operation returns
    its benign value ([None], [False], [False], 0, the empty list) after
    logging; and [process_page], on a page whose cache lookup fails this way,
    goes on to process the version. *)
Theorem cache_errors_absorbed ext cfg :
  (forall A (op : cache_op A) w, exists r w', call op w = (Ok r, w')) /\
  (forall A (op : cache_op A) w e w1,
     try_block op w = (Raise e, w1) ->
     exists msg, call op w = (Ok (benign op), logged msg w1)) /\
  (forall pid page w e w1,
     remote w !! pid = Some page ->
     Cache.get_body pid w = (Raise e, w1) ->
     exists w2,
       process_page ext cfg pid w =
       try_except
         (process_content ext cfg pid page (default 0%Z (version_number page)))
         (on_error pid) w2).
Proof.
  split; [intros; apply call_total|].
  split; [intros; by eapply call_raise|].
  intros pid page w e w1 Hpage Hraise.
  destruct (call_raise (OpGet pid) w e w1 Hraise) as [msg Hget].
  cbn [call benign] in Hget.
  destruct (process_page_gate ext cfg pid page w Hpage)
    as (cached & w1' & msg' & Hget' & _ & _ & _ & ->).
  rewrite Hget in Hget'. injection Hget' as <- <-.
  cbn [fmap option_fmap option_map skips]. by eexists.
Qed.

(** The first storage call of the lookup raises. *)
Lemma cache_errors_absorbed_witness :
  let page := Examples.approved_page 3 in
  let w := Examples.world_of page [Some Examples.disk_error] [] in
  exists w1,
    Cache.get_body "42" w = (Raise Examples.disk_error, w1) /\
    (exists msg, Cache.get "42" w = (Ok None, logged msg w1)) /\
    exists w2,
      process_page Examples.plain Examples.no_flags "42" w =
      try_except
        (process_content Examples.plain Examples.no_flags "42" page 3)
        (on_error "42") w2.
Proof.
  eexists. split; [reflexivity|].
  destruct (cache_errors_absorbed Examples.plain Examples.no_flags)
    as (_ & Hraise & Hpage).
  split.
  - apply (Hraise _ (OpGet "42") _ Examples.disk_error). reflexivity.
  - eapply (Hpage "42" (Examples.approved_page 3)); reflexivity.
Defined.

End GateFacts.

(** ** A run without storage faults against the decision table *)

Module RunFacts.

Import Sql Processor Observe EffectFacts CacheFacts ProcessorFacts.

Lemma set_no_faults key v w :
  faults (store w) = [] ->
  exists w', Cache.set key v w = (Ok true, w') /\
    remote w' = remote w /\ sink w' = sink w /\ faults (store w') = [] /\
    cache_values w' = <[key := v]> (cache_values w) /\
    upserts w' = S (upserts w).
Proof.
  destruct w as [rem [d t p j f] snk clk lg]. cbn [store faults]. intros ->.
  unfold Cache.set, Cache.set_body. unfold_effects.
  unfold cache_values, upserts. cbn. rewrite app_nil_r.
  eexists. split; [reflexivity|]. cbn.
  repeat split; [by rewrite fmap_insert|].
  rewrite List.filter_app, List.length_app. cbn. lia.
Qed.

Lemma view_only_read pid w w' : only_read w w' -> view pid w' = view pid w.
Proof.
  intros (_ & Hsink & Hval & Hups). unfold view, cached_version.
  by rewrite Hsink, Hval, Hups.
Qed.

Lemma view_logged pid msg w : view pid (logged msg w) = view pid w.
Proof. reflexivity. Qed.

(** Without storage faults, and with an index client that is not a dry run,
    one invocation of [process_page] changes the view as the decision table
    says. *)
Lemma process_page_refines ext cfg pid page w :
  faults (store w) = [] ->
  dry_run (sink w) = false ->
  remote w !! pid = Some page ->
  exists ok w',
    process_page ext cfg pid w = (Ok ok, w') /\
    (ok, view pid w') = gated_step ext cfg pid page (view pid w) /\
    faults (store w') = [] /\ remote w' = remote w /\
    dry_run (sink w') = false.
Proof.
  intros Hnf Hlive Hpage.
  destruct (process_page_gate ext cfg pid page w Hpage)
    as (cached & w1 & msg & _ & Hread & _ & Hval & ->).
  destruct (Hval Hnf) as [-> Hnf1]. clear Hval.
  pose proof (view_only_read pid w w1 Hread) as Hview.
  destruct Hread as (Hrem & Hsink & Hcv & _).
  rewrite <- Hsink in Hlive. clear Hsink.
  unfold gated_step.
  change (seen_version (view pid w)) with (version <$> cache_values w !! pid).
  destruct (skips cfg _ _).
  { eexists _, _. split; [reflexivity|]. by rewrite view_logged, Hview. }
  unfold process_content.
  destruct (status_allowed (Metadata.extract_metadata page)); cbn [negb].
  2:{ unfold try_except, bind, log, ret. eexists _, _. split; [reflexivity|].
      by rewrite <- Hview. }
  set (docs := build_documents ext cfg pid page _ _).
  rewrite <- Hview. clear Hview.
  destruct w1 as [rem1 st1 [ups sf dry] clk1 lg1].
  cbn [store] in Hnf1. cbn [remote] in Hrem. cbn [sink dry_run] in Hlive.
  subst dry.
  unfold try_except at 1. unfold bind at 1. unfold index_documents, logged.
  cbn [sink sink_faults uploads dry_run remote store clock logs view
       seen_sink_faults].
  destruct sf as [|[e|] rest].
  - (* plan exhausted: the upload succeeds *)
    unfold bind at 1, current_timestamp at 1.
    cbn [sink sink_faults uploads remote store clock logs].
    match goal with
    | |- context [Cache.set ?k ?v] =>
        edestruct (set_no_faults k v) as (w2 & Hset & Hr2 & Hs2 & Hf2 & Hv2 & Hu2);
        [|unfold bind at 1; rewrite Hset]
    end; [exact Hnf1|].
    unfold bind, log, ret. eexists _, _. split; [reflexivity|].
    view_after_set w2 Hr2 Hs2 Hf2 Hv2 Hu2.
  - (* the upload raises *)
    unfold on_error, bind, log, ret. eexists _, _. split; [reflexivity|].
    cbn [remote store sink dry_run]. rewrite <- Hcv.
    split; [reflexivity|]. by repeat split.
  - unfold bind at 1, current_timestamp at 1.
    cbn [sink sink_faults uploads remote store clock logs].
    match goal with
    | |- context [Cache.set ?k ?v] =>
        edestruct (set_no_faults k v) as (w2 & Hset & Hr2 & Hs2 & Hf2 & Hv2 & Hu2);
        [|unfold bind at 1; rewrite Hset]
    end; [exact Hnf1|].
    unfold bind, log, ret. eexists _, _. split; [reflexivity|].
    view_after_set w2 Hr2 Hs2 Hf2 Hv2 Hu2.
Qed.

(** Without storage faults, an invocation on a page whose version the
    cache covers: a skip, whatever the index client is. *)
Lemma process_page_skips ext cfg pid page w :
  faults (store w) = [] ->
  remote w !! pid = Some page ->
  skips cfg (cached_version pid w) (default 0%Z (version_number page)) = true ->
  exists w',
    process_page ext cfg pid w = (Ok true, w') /\
    faults (store w') = [] /\ remote w' = remote w /\ sink w' = sink w /\
    cached_version pid w' = cached_version pid w /\
    upserts w' = upserts w.
Proof.
  intros Hnf Hpage Hskip.
  destruct (process_page_gate ext cfg pid page w Hpage)
    as (cached & w1 & msg & _ & Hread & _ & Hval & ->).
  destruct (Hval Hnf) as [-> Hnf1]. clear Hval.
  destruct Hread as (Hrem & Hsink & Hcv & Hups).
  unfold cached_version in Hskip. rewrite Hskip.
  exists (logged msg w1). split; [reflexivity|].
  unfold cached_version, cache_values, upserts in *. cbn [logged store sink remote].
  by rewrite Hcv.
Qed.

(** Without storage faults, one invocation with a dry-run client on a page
    that is due: the index is left alone and the version is cached. *)
Lemma process_page_dry ext cfg pid page w :
  faults (store w) = [] ->
  dry_run (sink w) = true ->
  remote w !! pid = Some page ->
  skips cfg (cached_version pid w) (default 0%Z (version_number page)) = false ->
  status_allowed (Metadata.extract_metadata page) = true ->
  exists w',
    process_page ext cfg pid w = (Ok true, w') /\
    faults (store w') = [] /\ remote w' = remote w /\ sink w' = sink w /\
    cached_version pid w' = Some (default 0%Z (version_number page)) /\
    upserts w' = S (upserts w).
Proof.
  intros Hnf Hdry Hpage Hskip Hstatus.
  destruct (process_page_gate ext cfg pid page w Hpage)
    as (cached & w1 & msg & _ & Hread & _ & Hval & ->).
  destruct (Hval Hnf) as [-> Hnf1]. clear Hval.
  destruct Hread as (Hrem & Hsink & Hcv & Hups).
  unfold cached_version in Hskip. rewrite Hskip.
  unfold process_content. rewrite Hstatus. cbn [negb].
  set (docs := build_documents ext cfg pid page _ _).
  rewrite <- Hsink in Hdry.
  destruct w1 as [rem1 st1 [ups sf dry] clk1 lg1].
  cbn [store] in Hnf1. cbn [remote] in Hrem. cbn [sink dry_run] in Hdry.
  subst dry.
  unfold try_except at 1. unfold bind at 1. unfold index_documents, logged.
  cbn [sink sink_faults uploads dry_run remote store clock logs].
  unfold log at 1. cbn [sink sink_faults uploads dry_run remote store clock logs].
  unfold bind at 1, current_timestamp at 1.
  cbn [sink sink_faults uploads remote store clock logs].
  match goal with
  | |- context [Cache.set ?k ?v] =>
      edestruct (set_no_faults k v) as (w2 & Hset & Hr2 & Hs2 & Hf2 & Hv2 & Hu2);
      [|unfold bind at 1; rewrite Hset]
  end; [exact Hnf1|].
  unfold bind, log, ret. eexists. split; [reflexivity|].
  destruct w2 as [rem2 st2 snk2 clk2 lg2].
  cbn [remote sink store faults] in Hr2, Hs2, Hf2 |- *. subst.
  unfold cached_version, cache_values, upserts in *. cbn [store sink] in *.
  rewrite Hv2, lookup_insert_eq, Hu2, Hups. by repeat split.
Qed.

End RunFacts.

(** ** Sequences of invocations *)

Module SequenceFacts.

Import Processor Observe EffectFacts ProcessorFacts RunFacts.

Local Open Scope Z_scope.








End SequenceFacts.

(** ** One invocation under any faults *)

Module OutcomeFacts.

Import Sql Processor Observe EffectFacts CacheFacts ProcessorFacts.

(** What [set] can do to the world, whatever storage call fails. *)
Lemma set_cases key v w :
  exists ok w',
    Cache.set key v w = (Ok ok, w') /\
    remote w' = remote w /\ sink w' = sink w /\
    (cache_values w' = cache_values w \/
     cache_values w' = <[key := v]> (cache_values w)).
Proof.
  destruct w as [rem [d t p j f] snk clk lg].
  unfold Cache.set, Cache.set_body. unfold_effects. unfold cache_values.
  cbn [store faults db txn pending journal remote sink clock logs fst snd run_stmt].
  repeat next_fault; (eexists _, _; split; [reflexivity|]; cbn);
    rewrite ?fmap_insert; auto.
Qed.

(** The four ways the part of [process_page] behind the version gate can
    end: stopped by the status gate, upload raised, batch uploaded, and, with
    a dry-run client, nothing sent. In the last two the cache is written
    unless a storage call fails. *)
Lemma process_content_cases ext cfg pid page v w :
  let m := Metadata.extract_metadata page in
  let docs := build_documents ext cfg pid page v m in
  exists ok w',
    try_except (process_content ext cfg pid page v) (on_error pid) w
      = (Ok ok, w') /\
    remote w' = remote w /\
    dry_run (sink w') = dry_run (sink w) /\
    ((ok = true /\ status_allowed m = false /\ sink w' = sink w /\
      cache_values w' = cache_values w) \/
     (ok = false /\ status_allowed m = true /\
      dry_run (sink w) = false /\
      (exists e, sink_faults (sink w) = Some e :: sink_faults (sink w')) /\
      uploads (sink w') = uploads (sink w) /\
      cache_values w' = cache_values w) \/
     (ok = true /\ status_allowed m = true /\
      dry_run (sink w) = false /\
      (forall e rest, sink_faults (sink w) <> Some e :: rest) /\
      uploads (sink w') = uploads (sink w) ++ [docs] /\
      sink_faults (sink w') = List.tl (sink_faults (sink w)) /\
      (cache_values w' = cache_values w \/
       exists now,
         cache_values w' =
         <[pid := mkRecord v m now (List.length docs) (vectorize cfg)]>
           (cache_values w))) \/
     (ok = true /\ status_allowed m = true /\
      dry_run (sink w) = true /\ sink w' = sink w /\
      (cache_values w' = cache_values w \/
       exists now,
         cache_values w' =
         <[pid := mkRecord v m now (List.length docs) (vectorize cfg)]>
           (cache_values w)))).
Proof.
  intros m docs. unfold process_content. fold m. fold docs.
  destruct (status_allowed m) eqn:Hstatus; cbn [negb].
  2:{ unfold try_except, bind, log, ret. eexists _, _.
      split; [reflexivity|]. split; [reflexivity|]. split; [reflexivity|].
      left. by repeat split. }
  assert (forall w0 : World,
            exists ok w2,
              (let! now := current_timestamp in
               Cache.set pid
                 (mkRecord v m now (List.length docs) (vectorize cfg)) ;;
               log ("Successfully processed page " +:+ pid) ;;
               ret true) w0 = (Ok ok, w2) /\
              ok = true /\ remote w2 = remote w0 /\ sink w2 = sink w0 /\
              (cache_values w2 = cache_values w0 \/
               exists now,
                 cache_values w2 =
                 <[pid := mkRecord v m now (List.length docs) (vectorize cfg)]>
                   (cache_values w0))) as Hset.
  { intros w0. unfold bind at 1, current_timestamp at 1.
    cbn [sink sink_faults uploads remote store clock logs].
    match goal with
    | |- context [bind (Cache.set ?k ?r) _ ?w1] =>
        destruct (set_cases k r w1) as (ok & w2 & Hset & Hr2 & Hs2 & Hv2)
    end.
    unfold bind at 1. rewrite Hset. unfold bind, log, ret.
    eexists _, _. split; [reflexivity|]. split; [reflexivity|].
    destruct w2 as [rem2 st2 snk2 clk2 lg2].
    cbn [remote sink store] in *. subst rem2 snk2.
    repeat split.
    unfold cache_values in *. cbn [store] in *.
    destruct Hv2 as [->| ->]; [by left|right; by eexists]. }
  destruct w as [rem st [ups sf dry] clk lg].
  unfold try_except at 1. unfold bind at 1. unfold index_documents.
  cbn [sink sink_faults uploads dry_run remote store clock logs].
  destruct dry.
  - (* a dry run: nothing is sent *)
    unfold log at 1. cbn [sink sink_faults uploads dry_run remote store clock logs].
    match goal with
    | |- context [bind current_timestamp _ ?w0] =>
        destruct (Hset w0) as (ok & w2 & Hrun & -> & Hr2 & Hs2 & Hv2)
    end.
    rewrite Hrun. exists true, w2. split; [reflexivity|].
    cbn [remote sink] in Hr2, Hs2. split; [exact Hr2|].
    split; [by rewrite Hs2|]. right. right. right.
    by repeat split.
  - destruct sf as [|[e|] rest].
    + match goal with
      | |- context [bind current_timestamp _ ?w0] =>
          destruct (Hset w0) as (ok & w2 & Hrun & -> & Hr2 & Hs2 & Hv2)
      end.
      rewrite Hrun. exists true, w2. split; [reflexivity|].
      cbn [remote sink] in Hr2, Hs2. split; [exact Hr2|].
      split; [by rewrite Hs2|]. right. right. left. rewrite Hs2.
      by repeat split.
    + unfold on_error, bind, log, ret. eexists _, _. split; [reflexivity|].
      split; [reflexivity|]. split; [reflexivity|]. right. left. cbn.
      repeat split; by eauto.
    + match goal with
      | |- context [bind current_timestamp _ ?w0] =>
          destruct (Hset w0) as (ok & w2 & Hrun & -> & Hr2 & Hs2 & Hv2)
      end.
      rewrite Hrun. exists true, w2. split; [reflexivity|].
      cbn [remote sink] in Hr2, Hs2. split; [exact Hr2|].
      split; [by rewrite Hs2|]. right. right. left. rewrite Hs2.
      by repeat split.
Qed.

(** Every way one invocation can end, whatever storage call fails. *)
Lemma process_page_cases ext cfg pid w :
  exists ok w',
    process_page ext cfg pid w = (Ok ok, w') /\
    remote w' = remote w /\
    dry_run (sink w') = dry_run (sink w) /\
    match remote w !! pid with
    | None =>
        ok = false /\ sink w' = sink w /\ store w' = store w
    | Some page =>
        let v := default 0%Z (version_number page) in
        let m := Metadata.extract_metadata page in
        let docs := build_documents ext cfg pid page v m in
        (ok = true /\ sink w' = sink w /\ cache_values w' = cache_values w /\
         (force_reindex cfg = true -> status_allowed m = false)) \/
        (ok = false /\ status_allowed m = true /\
         dry_run (sink w) = false /\
         (exists e, sink_faults (sink w) = Some e :: sink_faults (sink w')) /\
         uploads (sink w') = uploads (sink w) /\
         cache_values w' = cache_values w) \/
        (ok = true /\ status_allowed m = true /\
         dry_run (sink w) = false /\
         (forall e rest, sink_faults (sink w) <> Some e :: rest) /\
         uploads (sink w') = uploads (sink w) ++ [docs] /\
         sink_faults (sink w') = List.tl (sink_faults (sink w)) /\
         (cache_values w' = cache_values w \/
          exists now,
            cache_values w' =
            <[pid := mkRecord v m now (List.length docs) (vectorize cfg)]>
              (cache_values w))) \/
        (ok = true /\ status_allowed m = true /\
         dry_run (sink w) = true /\ sink w' = sink w /\
         (cache_values w' = cache_values w \/
          exists now,
            cache_values w' =
            <[pid := mkRecord v m now (List.length docs) (vectorize cfg)]>
              (cache_values w)))
    end.
Proof.
  destruct (remote w !! pid) as [page|] eqn:Hpage.
  - destruct (process_page_gate ext cfg pid page w Hpage)
      as (cached & w1 & msg & _ & (Hrem & Hsink & Hval & _) & _ & _ & ->).
    destruct (skips cfg _ _) eqn:Hskip.
    + eexists _, _. split; [reflexivity|]. split; [exact Hrem|].
      split; [cbn [logged sink]; by rewrite Hsink|]. left.
      repeat split; [exact Hsink|exact Hval|].
      intros Hforce. unfold skips in Hskip. rewrite Hforce in Hskip.
      by destruct (version <$> cached).
    + destruct (process_content_cases ext cfg pid page
                  (default 0%Z (version_number page)) (logged msg w1))
        as (ok & w' & -> & Hrem' & Hdry & Hcases).
      exists ok, w'. split; [reflexivity|].
      cbn [logged remote sink] in *. split; [congruence|].
      split; [by rewrite Hdry, Hsink|].
      change (cache_values (logged msg w1)) with (cache_values w1) in Hcases.
      rewrite Hsink, Hval in Hcases.
      destruct Hcases as [(-> & Hst & Hs & Hv)|[H|[H|H]]];
        [left|right; by left|right; right; by left|right; right; by right].
      repeat split; try done.
  - unfold process_page, process_page_body, get_page_by_id, try_except, bind,
      on_error, log, raise, ret.
    rewrite Hpage. eexists _, _. split; [reflexivity|]. by repeat split.
Qed.

End OutcomeFacts.

(** ** Versions across invocations *)

Module VersionFacts.

Import Processor Observe EffectFacts ProcessorFacts RunFacts SequenceFacts.

Local Open Scope Z_scope.

Lemma gated_step_publish ext cfg pid page s :
  skips cfg (seen_version s) (default 0 (version_number page)) = false ->
  status_allowed (Metadata.extract_metadata page) = true ->
  seen_sink_faults s = [] ->
  gated_step ext cfg pid page s =
  (true,
   mkView
     (seen_uploads s ++
        [build_documents ext cfg pid page (default 0 (version_number page))
           (Metadata.extract_metadata page)])
     (Some (default 0 (version_number page))) (S (seen_upserts s)) []).
Proof. unfold gated_step. by intros -> -> ->. Qed.

Lemma gated_step_skip ext cfg pid page s :
  skips cfg (seen_version s) (default 0 (version_number page)) = true ->
  gated_step ext cfg pid page s = (true, s).
Proof. unfold gated_step. by intros ->. Qed.

Lemma skips_same cfg v :
  force_reindex cfg = false -> skips cfg (Some v) v = true.
Proof. unfold skips. intros ->. cbn [negb andb]. apply Z.leb_refl. Qed.








(** C6, as the code has it. With forced reprocessing off and no storage
    faults, for a page whose version the cache does not cover yet, whose
    status passes the gate and whose upload does not raise: two invocations
    in a row with the same version succeed, the first makes one upsert and
    uploads one batch (none when the index client is a dry run, which sends
    nothing), the second does neither. *)
Theorem idempotent_per_version ext cfg pid page w :
  force_reindex cfg = false ->
  faults (store w) = [] ->
  remote w !! pid = Some page ->
  skips cfg (cached_version pid w) (default 0 (version_number page)) = false ->
  status_allowed (Metadata.extract_metadata page) = true ->
  sink_faults (sink w) = [] ->
  exists w1 w2,
    process_page ext cfg pid w = (Ok true, w1) /\
    process_page ext cfg pid w1 = (Ok true, w2) /\
    uploads (sink w1) =
      uploads (sink w) ++
        (if dry_run (sink w) then []
         else [build_documents ext cfg pid page
                 (default 0 (version_number page))
                 (Metadata.extract_metadata page)]) /\
    upserts w1 = S (upserts w) /\
    uploads (sink w2) = uploads (sink w1) /\
    upserts w2 = upserts w1.
Proof.
  intros Hforce Hnf Hpage Hskip Hstatus Hsf.
  destruct (dry_run (sink w)) eqn:Hmode.
  - destruct (process_page_dry ext cfg pid page w Hnf Hmode Hpage Hskip Hstatus)
      as (w1 & Hrun1 & Hnf1 & Hrem1 & Hs1 & Hc1 & Hu1).
    destruct (process_page_skips ext cfg pid page w1 Hnf1)
      as (w2 & Hrun2 & _ & _ & Hs2 & _ & Hu2).
    { by rewrite Hrem1. }
    { rewrite Hc1. by apply skips_same. }
    exists w1, w2. rewrite Hs2, Hs1, app_nil_r. by repeat split.
  - destruct (process_page_refines ext cfg pid page w Hnf Hmode Hpage)
      as (ok1 & w1 & Hrun1 & Hstep1 & Hnf1 & Hrem1 & Hlive1).
    rewrite gated_step_publish in Hstep1 by done.
    injection Hstep1 as -> Hu1 Hc1 Hp1 _.
    assert (remote w1 !! pid = Some page) as Hpage1 by (by rewrite Hrem1).
    destruct (process_page_refines ext cfg pid page w1 Hnf1 Hlive1 Hpage1)
      as (ok2 & w2 & Hrun2 & Hstep2 & _ & _).
    rewrite gated_step_skip in Hstep2
      by (cbn [view seen_version]; rewrite Hc1; by apply skips_same).
    injection Hstep2 as -> Hu2 _ Hp2 _.
    exists w1, w2. by repeat split.
Qed.

(** Version 3 of an approved page, twice. *)
Lemma idempotent_per_version_witness :
  let page := Examples.approved_page 3 in
  let w := Examples.world_of page [] [] in
  force_reindex Examples.no_flags = false /\
  faults (store w) = [] /\
  remote w !! "42" = Some page /\
  skips Examples.no_flags (cached_version "42" w) 3 = false /\
  status_allowed (Metadata.extract_metadata page) = true /\
  sink_faults (sink w) = [] /\
  exists w1 w2,
    process_page Examples.plain Examples.no_flags "42" w = (Ok true, w1) /\
    process_page Examples.plain Examples.no_flags "42" w1 = (Ok true, w2) /\
    uploads (sink w1) =
      uploads (sink w) ++
        [build_documents Examples.plain Examples.no_flags "42" page 3
           (Metadata.extract_metadata page)] /\
    upserts w1 = S (upserts w) /\
    uploads (sink w2) = uploads (sink w1) /\
    upserts w2 = upserts w1.
Proof.
  repeat (split; [reflexivity|]).
  apply (idempotent_per_version Examples.plain Examples.no_flags "42"
           (Examples.approved_page 3)
           (Examples.world_of (Examples.approved_page 3) [] []));
    reflexivity.
Defined.

(** C6 as stated fails: a page with status "Rejected" processed twice, with
    forced reprocessing off and no storage fault, gives no upload and no
    upsert, and the second invocation is not a skip at the version gate. *)
Lemma rejected_twice_publishes_nothing :
  let w := Examples.world_of Examples.rejected_page [] [] in
  exists w1 w2,
    process_page Examples.plain Examples.no_flags "42" w = (Ok true, w1) /\
    process_page Examples.plain Examples.no_flags "42" w1 = (Ok true, w2) /\
    uploads (sink w2) = [] /\ upserts w2 = 0%nat /\
    cached_version "42" w1 = None /\
    List.length (uploads (sink w2)) <> 1%nat /\ upserts w2 <> 1%nat.
Proof.
  eexists _, _. split; [vm_compute; reflexivity|].
  split; [vm_compute; reflexivity|]. by repeat split.
Qed.

(** C4, on the failing input. A page with an unnumbered first heading and a
    heading numbered 1: both sections get the identifier [section_1], and the
    batch [process_page] uploads holds the same record identifier twice. *)
Theorem section_ids_collide :
  let page := Examples.overview_page in
  let w := Examples.world_of page [] [] in
  map doc_id
    (build_documents Examples.plain Examples.no_flags "42" page 3
       (Metadata.extract_metadata page))
    = ["42_v3_full"; "42_v3_section_1"; "42_v3_section_1"] /\
  (map (map doc_id)
     (uploads (sink (snd (process_page Examples.plain Examples.no_flags "42" w))))
     = [["42_v3_full"; "42_v3_section_1"; "42_v3_section_1"]]) /\
  ~ NoDup ["42_v3_full"; "42_v3_section_1"; "42_v3_section_1"].
Proof.
  split; [vm_compute; reflexivity|]. split; [vm_compute; reflexivity|].
  intros H. apply NoDup_cons in H as [_ H]. apply NoDup_cons in H as [H _].
  apply H. by left.
Qed.

End VersionFacts.

(** ** Laws of the cache *)

Module CacheLaws.

Import Sql Cache CacheAdmin Observe EffectFacts CacheFacts RunFacts.

Lemma delete_no_faults key w :
  faults (store w) = [] ->
  exists w', delete key w = (Ok true, w') /\
    remote w' = remote w /\ sink w' = sink w /\ faults (store w') = [] /\
    cache_values w' = base.delete key (cache_values w) /\
    upserts w' = upserts w.
Proof.
  destruct w as [rem [d t p j f] snk clk lg]. cbn [store faults]. intros ->.
  unfold delete, delete_body. unfold_effects.
  unfold cache_values, upserts. cbn. rewrite app_nil_r.
  eexists. split; [reflexivity|]. cbn.
  repeat split; [by rewrite fmap_delete|].
  by apply filter_upsert_reads.
Qed.

Lemma clear_no_faults w :
  faults (store w) = [] ->
  exists w', clear w = (Ok (size (db (store w))), w') /\
    remote w' = remote w /\ sink w' = sink w /\ faults (store w') = [] /\
    db (store w') = ∅ /\ upserts w' = upserts w.
Proof.
  destruct w as [rem [d t p j f] snk clk lg]. cbn [store faults]. intros ->.
  unfold clear, clear_body. unfold_effects.
  unfold cache_values, upserts. cbn. rewrite app_nil_r.
  eexists. split; [reflexivity|]. cbn.
  repeat split. by apply filter_upsert_reads.
Qed.

Lemma get_keys_no_faults w :
  faults (store w) = [] ->
  exists w', get_keys w = (Ok (map fst (map_to_list (db (store w)))), w') /\
    remote w' = remote w /\ sink w' = sink w /\ faults (store w') = [] /\
    db (store w') = db (store w) /\ upserts w' = upserts w.
Proof.
  destruct w as [rem [d t p j f] snk clk lg]. cbn [store faults]. intros ->.
  unfold get_keys, get_keys_body. unfold_effects.
  unfold cache_values, upserts. cbn.
  eexists. split; [reflexivity|]. cbn.
  repeat split. by apply filter_upsert_reads.
Qed.

Lemma map_is_fmap {A B} (f : A -> B) (l : list A) : map f l = f <$> l.
Proof. induction l as [|x l IH]; [reflexivity|]. cbn. by rewrite IH. Qed.

(** X1. Round trip: without storage faults [set] succeeds, a following [get]
    of the key returns the record just stored, and a [get] of any other key
    returns what the cache held for it before. *)
Theorem set_then_get key v w :
  faults (store w) = [] ->
  exists w1,
    set key v w = (Ok true, w1) /\
    fst (get key w1) = Ok (Some v) /\
    forall key', key' <> key ->
      fst (get key' w1) = Ok (cache_values w !! key').
Proof.
  intros Hnf.
  destruct (set_no_faults key v w Hnf) as (w1 & Hset & _ & _ & Hnf1 & Hv & _).
  exists w1. split; [exact Hset|]. split.
  - destruct (get_cases key w1) as (r & w2 & -> & _ & _ & Hr).
    destruct (Hr Hnf1) as [-> _]. by rewrite Hv, lookup_insert_eq.
  - intros key' Hne.
    destruct (get_cases key' w1) as (r & w2 & -> & _ & _ & Hr).
    destruct (Hr Hnf1) as [-> _]. by rewrite Hv, lookup_insert_ne.
Qed.

Lemma set_then_get_witness :
  let w := Examples.world_of (Examples.approved_page 3) [] [] in
  let v := mkRecord 3 empty_metadata 0 2 false in
  faults (store w) = [] /\
  exists w1,
    set "42" v w = (Ok true, w1) /\
    fst (get "42" w1) = Ok (Some v) /\
    forall key', key' <> "42" ->
      fst (get key' w1) = Ok (cache_values w !! key').
Proof.
  split; [reflexivity|].
  apply (set_then_get "42" (mkRecord 3 empty_metadata 0 2 false)
           (Examples.world_of (Examples.approved_page 3) [] [])).
  reflexivity.
Defined.

(** X2. An upsert is all or nothing, whatever storage call fails: [set]
    never raises, leaves the wiki and the index alone, and the committed
    table is either the one before or the one before with the key bound to
    the new record, created and accessed at the time of the call; when [set]
    returns [True] the record is stored. *)
Theorem set_all_or_nothing key v w :
  exists ok w',
    set key v w = (Ok ok, w') /\
    remote w' = remote w /\ sink w' = sink w /\
    (db (store w') = db (store w) \/
     db (store w') = <[key := mkRow v (clock w) (clock w)]> (db (store w))) /\
    (ok = true ->
     db (store w') = <[key := mkRow v (clock w) (clock w)]> (db (store w))).
Proof.
  destruct w as [rem [d t p j f] snk clk lg].
  unfold set, set_body. unfold_effects.
  cbn [store faults db txn pending journal remote sink clock logs fst snd run_stmt].
  repeat next_fault; (eexists _, _; split; [reflexivity|]; cbn);
    repeat split; auto; discriminate.
Qed.

(** X3. Without storage faults [delete] returns [True] whether or not the
    key is present; afterwards [get] of the key finds nothing and [get] of
    any other key returns what the cache held for it. *)
Theorem delete_then_get key w :
  faults (store w) = [] ->
  exists w1,
    delete key w = (Ok true, w1) /\
    fst (get key w1) = Ok None /\
    forall key', key' <> key ->
      fst (get key' w1) = Ok (cache_values w !! key').
Proof.
  intros Hnf.
  destruct (delete_no_faults key w Hnf) as (w1 & Hdel & _ & _ & Hnf1 & Hv & _).
  exists w1. split; [exact Hdel|]. split.
  - destruct (get_cases key w1) as (r & w2 & -> & _ & _ & Hr).
    destruct (Hr Hnf1) as [-> _]. by rewrite Hv, lookup_delete_eq.
  - intros key' Hne.
    destruct (get_cases key' w1) as (r & w2 & -> & _ & _ & Hr).
    destruct (Hr Hnf1) as [-> _]. by rewrite Hv, lookup_delete_ne.
Qed.

Lemma delete_then_get_witness :
  let w := Examples.world_of (Examples.approved_page 3) [] [] in
  faults (store w) = [] /\
  exists w1,
    delete "42" w = (Ok true, w1) /\
    fst (get "42" w1) = Ok None /\
    forall key', key' <> "42" ->
      fst (get key' w1) = Ok (cache_values w !! key').
Proof.
  split; [reflexivity|].
  apply (delete_then_get "42"
           (Examples.world_of (Examples.approved_page 3) [] [])).
  reflexivity.
Defined.

(** X4. Without storage faults [clear] returns the number of entries the
    cache held and leaves it empty: no key is listed and every [get] finds
    nothing. *)
Theorem clear_empties w :
  faults (store w) = [] ->
  exists w1,
    clear w = (Ok (size (db (store w))), w1) /\
    db (store w1) = ∅ /\
    fst (get_keys w1) = Ok [] /\
    forall key, fst (get key w1) = Ok None.
Proof.
  intros Hnf.
  destruct (clear_no_faults w Hnf) as (w1 & Hclear & _ & _ & Hnf1 & Hdb & _).
  exists w1. split; [exact Hclear|]. split; [exact Hdb|]. split.
  - destruct (get_keys_no_faults w1 Hnf1) as (w2 & -> & _).
    by rewrite Hdb, map_to_list_empty.
  - intros key.
    destruct (get_cases key w1) as (r & w2 & -> & _ & _ & Hr).
    destruct (Hr Hnf1) as [-> _]. unfold cache_values.
    by rewrite Hdb, fmap_empty, lookup_empty.
Qed.

Lemma clear_empties_witness :
  let w := Examples.world_of (Examples.approved_page 3) [] [] in
  faults (store w) = [] /\
  exists w1,
    clear w = (Ok (size (db (store w))), w1) /\
    db (store w1) = ∅ /\
    fst (get_keys w1) = Ok [] /\
    forall key, fst (get key w1) = Ok None.
Proof.
  split; [reflexivity|].
  apply (clear_empties (Examples.world_of (Examples.approved_page 3) [] [])).
  reflexivity.
Defined.

(** X5. Without storage faults [get_keys] lists every key of the cache
    once, and nothing else, and changes no row. *)
Theorem get_keys_lists_the_keys w :
  faults (store w) = [] ->
  exists keys w1,
    get_keys w = (Ok keys, w1) /\
    NoDup keys /\
    (forall key, In key keys <-> is_Some (cache_values w !! key)) /\
    db (store w1) = db (store w).
Proof.
  intros Hnf.
  destruct (get_keys_no_faults w Hnf) as (w1 & Hkeys & _ & _ & _ & Hdb & _).
  eexists _, w1. split; [exact Hkeys|]. rewrite map_is_fmap.
  split; [apply NoDup_fst_map_to_list|]. split; [|exact Hdb].
  intros key. unfold cache_values. rewrite lookup_fmap, fmap_is_Some.
  rewrite <- list_elem_of_In, list_elem_of_fmap. split.
  - intros ([k row] & -> & Hin). apply elem_of_map_to_list in Hin. by eexists.
  - intros [row Hrow]. exists (key, row). split; [reflexivity|].
    by apply elem_of_map_to_list.
Qed.

Lemma get_keys_lists_the_keys_witness :
  let w := Examples.world_of (Examples.approved_page 3) [] [] in
  faults (store w) = [] /\
  exists keys w1,
    get_keys w = (Ok keys, w1) /\
    NoDup keys /\
    (forall key, In key keys <-> is_Some (cache_values w !! key)) /\
    db (store w1) = db (store w).
Proof.
  split; [reflexivity|].
  apply (get_keys_lists_the_keys
           (Examples.world_of (Examples.approved_page 3) [] [])).
  reflexivity.
Defined.

(** X6. A lookup writes nothing but an access time: whatever storage call
    fails, after [get] the committed table is the one before, or the one
    before with the access time of that key's row set to the time of the
    call; records and creation times are never changed, and other rows are
    untouched. *)
Theorem get_touches_only_accessed key w :
  exists r w',
    get key w = (Ok r, w') /\
    (db (store w') = db (store w) \/
     db (store w') = alter (touch (clock w)) key (db (store w))).
Proof.
  destruct w as [rem [d t p j f] snk clk lg].
  unfold get, get_body. unfold_effects.
  cbn [store faults db txn pending journal remote sink clock logs fst snd run_stmt].
  repeat next_fault;
    try (destruct (d !! key) as [row|] eqn:Hrow; cbn; repeat next_fault);
    (eexists _, _; split; [reflexivity|]; cbn); auto.
Qed.

End CacheLaws.

(** ** The other cache methods *)

Module CacheAdminLaws.

Import Sql Cache CacheAdmin Observe EffectFacts CacheFacts RunFacts.

(** X7. Without storage faults [is_cached] answers whether the cache holds
    the key, that is, whether [get] would return a record, and like [get] it
    changes at most the access time of that key's row. *)
Theorem is_cached_agrees_with_get key w :
  faults (store w) = [] ->
  exists w1 w2,
    is_cached key w
      = (Ok (bool_decide (is_Some (cache_values w !! key))), w1) /\
    get key w = (Ok (cache_values w !! key), w2) /\
    (db (store w1) = db (store w) \/
     db (store w1) = alter (touch (clock w)) key (db (store w))).
Proof.
  destruct w as [rem [d t p j f] snk clk lg]. cbn [store faults]. intros ->.
  unfold is_cached, is_cached_body, get, get_body. unfold_effects.
  unfold cache_values.
  cbn [store faults db txn pending journal remote sink clock logs fst snd run_stmt].
  rewrite lookup_fmap.
  destruct (d !! key) as [row|] eqn:Hrow; cbn;
    eexists _, _; (split; [reflexivity|]); (split; [reflexivity|]); auto.
Qed.

Lemma is_cached_agrees_with_get_witness :
  let w := Examples.world_of (Examples.approved_page 3) [] [] in
  faults (store w) = [] /\
  exists w1 w2,
    is_cached "42" w
      = (Ok (bool_decide (is_Some (cache_values w !! "42"))), w1) /\
    get "42" w = (Ok (cache_values w !! "42"), w2) /\
    (db (store w1) = db (store w) \/
     db (store w1) = alter (touch (clock w)) "42" (db (store w))).
Proof.
  split; [reflexivity|].
  apply (is_cached_agrees_with_get "42"
           (Examples.world_of (Examples.approved_page 3) [] [])).
  reflexivity.
Defined.

(** X8. [_init_db] does not absorb storage errors: it returns normally
    exactly when none of its four storage calls fails, and otherwise raises
    the error of the failing call; in both cases no row is changed. *)
Theorem init_db_lets_errors_through w :
  match init_db w with
  | (Ok _, w') =>
      Forall (fun o => o = None) (take 4 (faults (store w))) /\
      db (store w') = db (store w)
  | (Raise e, w') =>
      In (Some e) (take 4 (faults (store w))) /\
      db (store w') = db (store w)
  end.
Proof.
  destruct w as [rem [d t p j f] snk clk lg].
  unfold init_db, init_db_body. unfold_effects.
  cbn [store faults db txn pending journal remote sink clock logs fst snd run_stmt].
  repeat next_fault; cbn; (split; [|reflexivity]);
    first [by repeat constructor | tauto].
Qed.

Lemma fold_max_ge x (l : list nat) :
  (x <= fold_right Nat.max x l)%nat /\
  Forall (fun y => (y <= fold_right Nat.max x l)%nat) l.
Proof.
  induction l as [|y l [IH1 IH2]]; [by split|]. cbn [fold_right]. split; [lia|].
  constructor; [lia|]. eapply Forall_impl; [exact IH2|]. cbn. lia.
Qed.

Lemma fold_min_le x (l : list nat) :
  (fold_right Nat.min x l <= x)%nat /\
  Forall (fun y => (fold_right Nat.min x l <= y)%nat) l.
Proof.
  induction l as [|y l [IH1 IH2]]; [by split|]. cbn [fold_right]. split; [lia|].
  constructor; [lia|]. eapply Forall_impl; [exact IH2|]. cbn. lia.
Qed.

Lemma created_between (t : gmap string Row) key row :
  t !! key = Some row ->
  exists a b, newest t = Some a /\ oldest t = Some b /\
    (b <= created_at row <= a)%nat.
Proof.
  intros Hrow. apply elem_of_map_to_list in Hrow.
  unfold newest, oldest.
  assert (In (created_at row)
            (map (fun kv => created_at (snd kv)) (map_to_list t))) as Hin.
  { apply in_map_iff. exists (key, row). split; [reflexivity|].
    by apply list_elem_of_In. }
  destruct (map _ (map_to_list t)) as [|x l]; [destruct Hin|].
  eexists _, _. split; [reflexivity|]. split; [reflexivity|].
  destruct (fold_max_ge x l) as [Hx Hl], (fold_min_le x l) as [Hx' Hl'].
  rewrite Forall_forall in Hl, Hl'.
  destruct Hin as [<-|Hin]; [lia|].
  apply list_elem_of_In in Hin. specialize (Hl _ Hin). specialize (Hl' _ Hin).
  lia.
Qed.

(** X9. Without storage faults [get_stats] reports the number of entries,
    and as most recent and oldest entry two creation times that bound the
    creation time of every row; on an empty cache both are absent. It changes
    no row. *)
Theorem get_stats_reports w :
  faults (store w) = [] ->
  exists most_recent oldest_entry w',
    get_stats w
      = (Ok (Stats (size (db (store w))) most_recent oldest_entry), w') /\
    (db (store w) = ∅ -> most_recent = None /\ oldest_entry = None) /\
    (forall key row, db (store w) !! key = Some row ->
       exists a b, most_recent = Some a /\ oldest_entry = Some b /\
         (b <= created_at row <= a)%nat) /\
    db (store w') = db (store w).
Proof.
  destruct w as [rem [d t p j f] snk clk lg]. cbn [store faults db]. intros ->.
  unfold get_stats, get_stats_body, query_created. unfold_effects.
  cbn [store faults db txn pending journal remote sink clock logs fst snd run_stmt].
  cbn. exists (newest d), (oldest d). eexists. split; [reflexivity|].
  split; [|split; [|reflexivity]].
  - intros ->. unfold newest, oldest. by rewrite map_to_list_empty.
  - intros key row Hrow. by eapply created_between.
Qed.

Lemma get_stats_reports_witness :
  let w := Examples.world_of (Examples.approved_page 3) [] [] in
  faults (store w) = [] /\
  exists most_recent oldest_entry w',
    get_stats w
      = (Ok (Stats (size (db (store w))) most_recent oldest_entry), w') /\
    (db (store w) = ∅ -> most_recent = None /\ oldest_entry = None) /\
    (forall key row, db (store w) !! key = Some row ->
       exists a b, most_recent = Some a /\ oldest_entry = Some b /\
         (b <= created_at row <= a)%nat) /\
    db (store w') = db (store w).
Proof.
  split; [reflexivity|].
  apply (get_stats_reports
           (Examples.world_of (Examples.approved_page 3) [] [])).
  reflexivity.
Defined.

End CacheAdminLaws.

(** ** What one invocation never does *)

Module OutcomeLaws.

Import Sql Processor Observe EffectFacts CacheFacts ProcessorFacts RunFacts
  OutcomeFacts VersionFacts.

(** X10. The cache is written only after the index call has returned:
    whatever the wiki serves and whatever storage or index call fails,
    [process_page] never raises, and afterwards the cached records are as
    before, or the page is served and passes the status gate, the invocation
    succeeded, the record of the page is the one of that version with the
    size of the batch as document count, and the batch has been uploaded,
    unless the index client is a dry run: then the cache is written although
    nothing has been sent. *)
Theorem upsert_only_after_index_call ext cfg pid w :
  exists ok w',
    process_page ext cfg pid w = (Ok ok, w') /\
    (cache_values w' = cache_values w \/
     exists page now,
       let v := default 0%Z (version_number page) in
       let m := Metadata.extract_metadata page in
       let docs := build_documents ext cfg pid page v m in
       remote w !! pid = Some page /\
       status_allowed m = true /\ ok = true /\
       uploads (sink w') =
         uploads (sink w) ++ (if dry_run (sink w) then [] else [docs]) /\
       cache_values w' =
         <[pid := mkRecord v m now (List.length docs) (vectorize cfg)]>
           (cache_values w)).
Proof.
  destruct (process_page_cases ext cfg pid w)
    as (ok & w' & Hrun & _ & _ & Hcases).
  exists ok, w'. split; [exact Hrun|].
  destruct (remote w !! pid) as [page|].
  - destruct Hcases as [(_ & _ & Hv & _)|[(_ & _ & _ & _ & _ & Hv)|
      [(-> & Hst & Hlive & _ & Hup & _ & [Hv|[now Hv]])|
       (-> & Hst & Hdry & Hs & [Hv|[now Hv]])]]]; try by left.
    + right. exists page, now. rewrite Hlive. by repeat split.
    + right. exists page, now. rewrite Hdry, Hs, app_nil_r. by repeat split.
  - destruct Hcases as (_ & _ & Hstore). left. unfold cache_values.
    by rewrite Hstore.
Qed.

(** X11. A page the wiki does not serve: [process_page] returns [False] and
    changes nothing but the log. *)
Theorem unfetched_page_fails ext cfg pid w :
  remote w !! pid = None ->
  exists msg1 msg2,
    process_page ext cfg pid w = (Ok false, logged msg2 (logged msg1 w)).
Proof.
  intros Hpage.
  unfold process_page, process_page_body, get_page_by_id, try_except, bind,
    on_error, log, raise, ret.
  rewrite Hpage. by eexists _, _.
Qed.

Lemma unfetched_page_fails_witness :
  let w := Examples.world_of (Examples.approved_page 3) [] [] in
  remote w !! "7" = None /\
  exists msg1 msg2,
    process_page Examples.plain Examples.no_flags "7" w
      = (Ok false, logged msg2 (logged msg1 w)).
Proof.
  split; [reflexivity|].
  apply (unfetched_page_fails Examples.plain Examples.no_flags "7"
           (Examples.world_of (Examples.approved_page 3) [] [])).
  reflexivity.
Defined.

(** X12. Forced reprocessing republishes: with [force_reindex] set, a
    served page that passes the status gate and whose upload does not raise
    is processed again, whatever the cache holds and whatever storage call
    fails: [process_page] returns [True] and the batch is uploaded (with a
    dry-run client, which sends nothing, the index stays as it is). *)
Theorem forced_reprocessing_publishes ext cfg pid page w :
  force_reindex cfg = true ->
  remote w !! pid = Some page ->
  status_allowed (Metadata.extract_metadata page) = true ->
  sink_faults (sink w) = [] ->
  exists w',
    process_page ext cfg pid w = (Ok true, w') /\
    uploads (sink w') =
      uploads (sink w) ++
        (if dry_run (sink w) then []
         else [build_documents ext cfg pid page
                 (default 0%Z (version_number page))
                 (Metadata.extract_metadata page)]).
Proof.
  intros Hforce Hpage Hstatus Hsf.
  destruct (process_page_cases ext cfg pid w)
    as (ok & w' & Hrun & _ & _ & Hcases).
  rewrite Hpage in Hcases. cbn zeta in Hcases.
  destruct Hcases as [(_ & _ & _ & H)|[(_ & _ & _ & [e He] & _)|
    [(-> & _ & Hlive & _ & Hup & _)|(-> & _ & Hdry & Hs & _)]]].
  - specialize (H Hforce). congruence.
  - rewrite Hsf in He. discriminate.
  - exists w'. by rewrite Hlive.
  - exists w'. by rewrite Hdry, Hs, app_nil_r.
Qed.

Lemma forced_reprocessing_publishes_witness :
  let page := Examples.approved_page 3 in
  let cfg := mkConfig false false true in
  let w := Examples.world_of page [Some Examples.disk_error] [] in
  force_reindex cfg = true /\
  remote w !! "42" = Some page /\
  status_allowed (Metadata.extract_metadata page) = true /\
  sink_faults (sink w) = [] /\
  exists w',
    process_page Examples.plain cfg "42" w = (Ok true, w') /\
    uploads (sink w') =
      uploads (sink w) ++
        [build_documents Examples.plain cfg "42" page 3
           (Metadata.extract_metadata page)].
Proof.
  repeat (split; [reflexivity|]).
  apply (forced_reprocessing_publishes Examples.plain
           (mkConfig false false true) "42" (Examples.approved_page 3)
           (Examples.world_of (Examples.approved_page 3)
              [Some Examples.disk_error] []));
    reflexivity.
Defined.




End OutcomeLaws.

(** ** Runs over several pages *)

Module BatchLaws.

Import Processor Observe EffectFacts OutcomeFacts Batch.

Lemma unserved_length w ids :
  (List.length (unserved w ids) <= List.length ids)%nat.
Proof. apply List.filter_length_le. Qed.

Lemma unserved_remote w w' ids :
  remote w' = remote w -> unserved w' ids = unserved w ids.
Proof. unfold unserved. by intros ->. Qed.

(** The loop ends normally and counts every page once. *)
Lemma count_pages_total ext cfg ids s f w :
  exists s' f' w',
    count_pages ext cfg ids s f w = (Ok (s', f'), w') /\
    (s' + f' = s + f + List.length ids)%nat.
Proof.
  revert s f w. induction ids as [|pid ids IH]; intros s f w.
  - exists s, f, w. split; [reflexivity|]. cbn. lia.
  - cbn [count_pages].
    destruct (process_page_cases ext cfg pid w) as (ok & w1 & Hrun & _).
    unfold bind at 1. rewrite Hrun. destruct ok.
    + destruct (IH (S s) f w1) as (s' & f' & w' & -> & Hsum).
      exists s', f', w'. split; [reflexivity|]. cbn. lia.
    + destruct (IH s (S f) w1) as (s' & f' & w' & -> & Hsum).
      exists s', f', w'. split; [reflexivity|]. cbn. lia.
Qed.

(** With an index that takes every upload, the failures are the pages the
    wiki does not serve. *)
Lemma count_pages_healthy ext cfg ids s f w :
  sink_faults (sink w) = [] ->
  exists w',
    count_pages ext cfg ids s f w =
      (Ok ((s + (List.length ids - List.length (unserved w ids)))%nat,
           (f + List.length (unserved w ids))%nat), w').
Proof.
  revert s f w. induction ids as [|pid ids IH]; intros s f w Hsf.
  - exists w. unfold unserved. cbn. unfold ret. by rewrite !Nat.add_0_r.
  - cbn [count_pages].
    destruct (process_page_cases ext cfg pid w)
      as (ok & w1 & Hrun & Hrem & _ & Hcases).
    unfold bind at 1. rewrite Hrun.
    pose proof (unserved_length w ids) as Hlen.
    unfold unserved at 1 2. cbn [List.filter]. fold (unserved w ids).
    destruct (remote w !! pid) as [page|] eqn:Hpage.
    + rewrite bool_decide_eq_false_2 by done.
      assert (ok = true /\ sink_faults (sink w1) = []) as [-> Hsf1].
      { destruct Hcases as [(-> & Hs & _)|[(_ & _ & _ & [e He] & _)|
          [(-> & _ & _ & _ & _ & Hs & _)|(-> & _ & _ & Hs & _)]]].
        - by rewrite Hs.
        - rewrite Hsf in He. discriminate.
        - by rewrite Hs, Hsf.
        - by rewrite Hs. }
      destruct (IH (S s) f w1 Hsf1) as (w' & ->).
      rewrite (unserved_remote w w1 ids Hrem).
      exists w'. cbn [List.length].
      assert (S s + (List.length ids - List.length (unserved w ids))
              = s + (S (List.length ids) - List.length (unserved w ids)))%nat
        as -> by lia.
      reflexivity.
    + rewrite bool_decide_eq_true_2 by done.
      destruct Hcases as (-> & Hs & _).
      destruct (IH s (S f) w1) as (w' & ->); [by rewrite Hs|].
      rewrite (unserved_remote w w1 ids Hrem).
      exists w'. cbn [List.length].
      assert (s + (List.length ids - List.length (unserved w ids))
              = s + (S (List.length ids) - S (List.length (unserved w ids))))%nat
        as -> by lia.
      assert (S f + List.length (unserved w ids)
              = f + S (List.length (unserved w ids)))%nat as -> by lia.
      reflexivity.
Qed.

(** X14. A run over a space. When the listing raises, [process_space] raises
    the same exception and touches neither index nor cache. Otherwise it
    never raises, whatever page fails, and returns two counts that add up to
    the number of pages listed; when the index takes every upload, the
    failures are exactly the listed pages the wiki does not serve. *)
Theorem process_space_counts ext cfg listing space_key w :
  match listing space_key with
  | Raise e =>
      exists w',
        process_space ext cfg listing space_key w = (Raise e, w') /\
        sink w' = sink w /\ store w' = store w
  | Ok pages =>
      exists success_count failure_count w',
        process_space ext cfg listing space_key w
          = (Ok (success_count, failure_count), w') /\
        (success_count + failure_count = List.length pages)%nat /\
        (sink_faults (sink w) = [] ->
         failure_count = List.length (unserved w (map id pages)))
  end.
Proof.
  unfold process_space, get_pages_in_space.
  destruct (listing space_key) as [pages|e].
  - unfold bind at 1, log at 1. unfold bind at 1, ret at 1.
    unfold bind at 1, log at 1. unfold bind at 1.
    match goal with
    | |- context [count_pages ext cfg ?ids 0 0 ?w0] =>
        destruct (count_pages_total ext cfg ids 0 0 w0)
          as (s' & f' & w' & Hrun & Hsum);
        pose proof (count_pages_healthy ext cfg ids 0 0 w0) as Hhealthy
    end.
    rewrite Hrun. unfold bind, log, ret.
    eexists s', f', _. split; [reflexivity|].
    rewrite List.length_map in Hsum. split; [lia|].
    intros Hsf. destruct (Hhealthy Hsf) as (w'' & Hrun').
    rewrite Hrun in Hrun'. by injection Hrun' as _ -> _.
  - unfold bind, log, raise. eexists. by repeat split.
Qed.

End BatchLaws.

(** ** The words of the patterns built from classes *)

Module ReLang.

Import Re.

Lemma lang_chr c w : lang (chr c) w <-> w = [c].
Proof.
  split.
  - intros H. inversion H as [|p c' Hc| | | | |]; subst.
    apply Ascii.eqb_eq in Hc. by subst.
  - intros ->. constructor. apply Ascii.eqb_refl.
Qed.

Lemma lang_lit_chars l w : lang (seqs (map chr l)) w <-> w = l.
Proof.
  revert w. induction l as [|c l IH]; intros w; cbn [map seqs fold_right].
  - split; [intros H; by inversion H|intros ->; constructor].
  - split.
    + intros H. inversion H as [| |r1 r2 w1 w2 H1 H2| | | |]; subst.
      apply lang_chr in H1 as ->. apply IH in H2 as ->. reflexivity.
    + intros ->. apply (lang_seq _ _ [c] l); [by apply lang_chr|by apply IH].
Qed.

Lemma lang_lit s w : lang (lit s) w <-> w = Str.chars s.
Proof. apply lang_lit_chars. Qed.

Lemma lang_star_cls p w :
  lang (Star (Cls p)) w <-> Forall (fun c => p c = true) w.
Proof.
  split.
  - intros H. remember (Star (Cls p)) as r eqn:Hr.
    induction H as [| | | | | |r0 w1 w2 H1 _ H2 IH]; try discriminate.
    + constructor.
    + injection Hr as ->. inversion H1; subst.
      constructor; [assumption|by apply IH].
  - induction 1 as [|c w Hc _ IH]; [constructor|].
    apply (lang_star_cons _ [c] w); [by constructor|exact IH].
Qed.

Lemma lang_plus_cls p w :
  lang (plus (Cls p)) w <-> w <> [] /\ Forall (fun c => p c = true) w.
Proof.
  unfold plus. split.
  - intros H. inversion H as [| |r1 r2 w1 w2 H1 H2| | | |]; subst.
    inversion H1; subst. apply lang_star_cls in H2.
    split; [discriminate|by constructor].
  - intros [Hne Hall]. destruct Hall as [|c w Hc Hall]; [done|].
    apply (lang_seq _ _ [c] w); [by constructor|by apply lang_star_cls].
Qed.

Lemma lang_times_cls p n w :
  lang (times n (Cls p)) w <->
  List.length w = n /\ Forall (fun c => p c = true) w.
Proof.
  unfold times. revert w. induction n as [|n IH]; intros w;
    cbn [repeat seqs fold_right].
  - split.
    + intros H. inversion H. by split.
    + intros [Hlen _]. destruct w; [constructor|discriminate].
  - split.
    + intros H. inversion H as [| |r1 r2 w1 w2 H1 H2| | | |]; subst.
      inversion H1; subst. apply IH in H2 as [<- Hall].
      split; [reflexivity|by constructor].
    + intros [Hlen Hall]. destruct Hall as [|c w Hc Hall]; [discriminate|].
      apply (lang_seq _ _ [c] w); [by constructor|].
      apply IH. split; [|assumption]. simpl in Hlen. lia.
Qed.

(** Two splits of one text at a separator that neither left part holds. *)
Lemma split_at_separator (x : ascii) l1 l2 r1 r2 :
  l1 ++ x :: r1 = l2 ++ x :: r2 -> ~ In x l1 -> ~ In x l2 ->
  l1 = l2 /\ r1 = r2.
Proof.
  revert l2. induction l1 as [|a l1 IH]; intros [|b l2] Heq H1 H2; simpl in *.
  - by injection Heq as ->.
  - injection Heq as <- _. tauto.
  - injection Heq as -> _. tauto.
  - injection Heq as -> Heq. destruct (IH l2 Heq) as [-> ->]; tauto.
Qed.

End ReLang.

(** ** Metadata: every field of the result *)

Module MetadataLaws.

Import Re Metadata MetadataView ReFacts ReLang MetadataFacts.

Lemma field_set_defaults l page m :
  field l (set_defaults page m) = default_if_empty (field l m) (default_for l page).
Proof. by destruct l. Qed.

(** X15. Each of the six labelled fields of the extracted metadata is the
    value of the last row classified to it, and the page default when there
    is no such row, no table, or that last value is empty: an empty later
    row discards an earlier value. *)
Theorem extracted_field page l :
  field l (extract_metadata page) =
  default_if_empty (List.last (values_for l (metadata_pairs page)) "")
    (default_for l page).
Proof.
  unfold extract_metadata, metadata_pairs. rewrite field_set_defaults.
  destruct (metadata_table (body page)) as [table|].
  - rewrite scan_table_pairs, field_fold_pairs. by destruct l.
  - by destruct l.
Qed.

End MetadataLaws.

(** ** Document ids, types and the status default *)

Module DocumentIdLaws.

Import Re Metadata MetadataView ReFacts ReLang MetadataFacts.
Import Processor Observe OutcomeFacts.

Lemma upper_alnum_no_dash l :
  Forall (fun c => Chars.is_upper c || Chars.is_digit c = true) l ->
  ~ In "-"%char l.
Proof.
  intros Hall Hin. apply list_elem_of_In in Hin.
  rewrite Forall_forall in Hall. specialize (Hall _ Hin). discriminate.
Qed.

Lemma match_project_code_sound s code :
  match_project_code s = Some code ->
  exists tag year ver rest, well_formed_id tag code year ver rest s.
Proof.
  unfold match_project_code. intros H.
  apply rmatch_sound in H as (tag & s1 & -> & Htag & H).
  apply rmatch_sound in H as (d1 & s2 & -> & Hd1 & H).
  apply lang_chr in Hd1 as ->.
  apply rmatch_sound in H as (c & s3 & -> & Hc & H).
  apply rmatch_sound in H as (w & rest & -> & Hw & H).
  rewrite consumed_app in H. injection H as <-.
  apply lang_plus_cls in Hc as [Hne Hall].
  cbn [seqs fold_right] in Hw.
  inversion Hw as [| |r1 r2 w1 w2 H1 H2| | | |]; subst.
  apply lang_chr in H1 as ->.
  inversion H2 as [| |r1 r2 year w3 Hy H3| | | |]; subst.
  apply (lang_times_cls _ 4) in Hy as [Hlen Hdig].
  inversion H3 as [| |r1 r2 w4 w5 H4 H5| | | |]; subst.
  apply lang_chr in H4 as ->.
  inversion H5 as [| |r1 r2 ver w6 Hv H6| | | |]; subst.
  inversion H6; subst. rewrite app_nil_r.
  apply lang_plus_cls in Hv as [Hvne Hvall].
  exists tag, year, ver, rest. unfold well_formed_id.
  split; [by rewrite <- !app_assoc|].
  split.
  { inversion Htag as [| | |r1 r2 w Hl|r1 r2 w Hl| |]; subst;
      apply lang_lit in Hl; auto. }
  by repeat split.
Qed.

Lemma match_project_code_complete tag code year ver rest s :
  well_formed_id tag code year ver rest s -> is_Some (match_project_code s).
Proof.
  intros (-> & Htag & Hne & Hall & Hlen & Hdig & Hvne & Hvall).
  unfold match_project_code.
  apply rmatch_complete.
  { destruct Htag as [-> | ->];
      [apply lang_alt_l|apply lang_alt_r]; by apply lang_lit. }
  apply (rmatch_complete (chr "-") ["-"%char]); [by apply lang_chr|].
  apply (rmatch_complete (plus upper_alnum) code); [by apply lang_plus_cls|].
  change ("-"%char :: year ++ "-"%char :: ver ++ rest)
    with (["-"%char] ++ year ++ ["-"%char] ++ ver ++ rest).
  replace (["-"%char] ++ year ++ ["-"%char] ++ ver ++ rest)
    with ((["-"%char] ++ year ++ ["-"%char] ++ ver ++ []) ++ rest)
    by (by rewrite <- !app_assoc).
  apply rmatch_complete; [|by eexists].
  cbn [seqs fold_right].
  apply lang_seq; [by apply lang_chr|].
  apply lang_seq; [by apply (lang_times_cls _ 4)|].
  apply lang_seq; [by apply lang_chr|].
  apply lang_seq; [by apply lang_plus_cls|constructor].
Qed.

(** X16. The pattern of [_parse_document_id] yields the project code [code]
    exactly for the ids that read TAG-code-YEAR-VERSION followed by
    anything, where TAG is ABRD or FBRD, the code is a non-empty run of
    capitals and digits, the year four digits, and the version a non-empty
    run of digits and dots. *)
Theorem project_code_extracted s code :
  match_project_code s = Some code <->
  exists tag year ver rest, well_formed_id tag code year ver rest s.
Proof.
  split; [apply match_project_code_sound|].
  intros (tag & year & ver & rest & Hwf).
  destruct (match_project_code_complete _ _ _ _ _ _ Hwf) as [code' Hm].
  rewrite Hm. f_equal.
  apply match_project_code_sound in Hm as (tag' & year' & ver' & rest' & Hwf').
  destruct Hwf as (-> & Htag & _ & Hall & _).
  destruct Hwf' as (Heq & Htag' & _ & Hall' & _).
  assert (tag ++ ["-"%char] = tag' ++ ["-"%char] /\
          code ++ "-"%char :: year ++ "-"%char :: ver ++ rest =
          code' ++ "-"%char :: year' ++ "-"%char :: ver' ++ rest') as [_ Hc].
  { destruct Htag as [-> | ->], Htag' as [-> | ->]; cbn in Heq |- *;
      by (injection Heq as ->) || discriminate Heq. }
  symmetry.
  by destruct (split_at_separator _ _ _ _ _ Hc
                 (upper_alnum_no_dash _ Hall) (upper_alnum_no_dash _ Hall')).
Qed.

Lemma startswith_doc x t :
  Str.startswith ("DOC-" +:+ x) (String "A" t) = false /\
  Str.startswith ("DOC-" +:+ x) (String "F" t) = false /\
  Str.startswith "" (String "A" t) = false /\
  Str.startswith "" (String "F" t) = false.
Proof. by repeat split. Qed.

Lemma prefix_type_default x :
  prefix_type ("DOC-" +:+ x) = UNKNOWN /\ prefix_type "" = UNKNOWN.
Proof. by split. Qed.

Lemma parse_document_id_type m v :
  document_id (parse_document_id (set_document_id v m) v) = v /\
  document_type (parse_document_id (set_document_id v m) v) = prefix_type v /\
  project_code (parse_document_id (set_document_id v m) v) =
    match match_project_code (Str.chars v) with
    | Some code => Str.of_chars code
    | None => project_code m
    end.
Proof.
  unfold parse_document_id, prefix_type.
  destruct (match_project_code _);
    destruct (Str.startswith v "ABRD-"), (Str.startswith v "FBRD-");
    by repeat split.
Qed.

Lemma assign_row_type m key value :
  document_type m = prefix_type (document_id m) ->
  document_type (assign_row m key value) =
  prefix_type (document_id (assign_row m key value)).
Proof.
  intros Hm. unfold assign_row.
  destruct (Re.search pat_document_id key).
  { destruct (parse_document_id_type m value) as (-> & -> & _). reflexivity. }
  destruct (Re.search pat_version key); [exact Hm|].
  destruct (Re.search pat_status key); [exact Hm|].
  destruct (Re.search pat_created key); [exact Hm|].
  destruct (Re.search pat_updated key); [exact Hm|].
  destruct (Re.search pat_owner key); exact Hm.
Qed.

Lemma assign_row_code m key value :
  project_code (assign_row m key value) =
  List.last (id_codes [(key, value)]) (project_code m).
Proof.
  unfold assign_row, id_codes, values_for, classify.
  cbn [List.filter fst snd].
  destruct (Re.search pat_document_id key).
  { destruct (parse_document_id_type m value) as (_ & _ & ->).
    cbn [label_eqb map snd omap list_omap].
    destruct (match_project_code (Str.chars value)); reflexivity. }
  destruct (Re.search pat_version key); [reflexivity|].
  destruct (Re.search pat_status key); [reflexivity|].
  destruct (Re.search pat_created key); [reflexivity|].
  destruct (Re.search pat_updated key); [reflexivity|].
  destruct (Re.search pat_owner key); reflexivity.
Qed.

Lemma id_codes_cons kv pairs :
  id_codes (kv :: pairs) = id_codes [kv] ++ id_codes pairs.
Proof.
  unfold id_codes, values_for. cbn [List.filter].
  destruct (match classify (fst kv) with Some _ => _ | None => _ end);
    [|reflexivity].
  cbn [map snd omap list_omap].
  destruct (match_project_code (Str.chars (snd kv))); reflexivity.
Qed.

Lemma last_app_default {A} (l1 l2 : list A) d :
  List.last (l1 ++ l2) d = List.last l2 (List.last l1 d).
Proof.
  revert d. induction l1 as [|a l1 IH]; intros d; [reflexivity|].
  change ((a :: l1) ++ l2) with (a :: (l1 ++ l2)).
  by rewrite !last_cons, IH.
Qed.

Lemma fold_rows_type pairs m :
  document_type m = prefix_type (document_id m) ->
  let m' := fold_left (fun m kv => assign_row m (fst kv) (snd kv)) pairs m in
  document_type m' = prefix_type (document_id m').
Proof.
  revert m. induction pairs as [|[key value] pairs IH]; intros m Hm; [exact Hm|].
  cbn [fold_left]. apply IH. by apply assign_row_type.
Qed.

Lemma fold_rows_code pairs m :
  project_code (fold_left (fun m kv => assign_row m (fst kv) (snd kv)) pairs m)
  = List.last (id_codes pairs) (project_code m).
Proof.
  revert m. induction pairs as [|[key value] pairs IH]; intros m; [reflexivity|].
  cbn [fold_left]. rewrite IH, id_codes_cons, last_app_default.
  by rewrite assign_row_code.
Qed.

(** X17. The document type of the extracted metadata always agrees with the
    start of its final document id (UNKNOWN for a defaulted id), while the
    project code is that of the last id row the pattern matches, which need
    not be the row the final id comes from. *)
Theorem type_follows_id_code_may_lag page :
  let m := extract_metadata page in
  document_type m = prefix_type (document_id m) /\
  project_code m = List.last (id_codes (metadata_pairs page)) "".
Proof.
  unfold extract_metadata, metadata_pairs.
  destruct (metadata_table (body page)) as [table|]; cbn zeta.
  - rewrite scan_table_pairs. split; [|apply (fold_rows_code _ empty_metadata)].
    pose proof (fold_rows_type (table_pairs table) empty_metadata eq_refl) as H.
    cbn zeta in H. revert H.
    generalize (fold_left (fun m kv => assign_row m (fst kv) (snd kv))
                  (table_pairs table) empty_metadata) as m.
    intros m H. unfold set_defaults, default_if_empty.
    cbn [document_type document_id].
    destruct (Str.truthy (document_id m)) eqn:Ht; [exact H|].
    rewrite H. unfold Str.truthy in Ht.
    apply negb_false_iff, String.eqb_eq in Ht. by rewrite Ht.
  - by split.
Qed.

(** X18. A page whose table gives no status (no table, no status row, or an
    empty last status row) gets the status UNKNOWN and is never published:
    [process_page] returns True although nothing is uploaded or cached, also
    under force_reindex and whatever fails. *)
Theorem page_without_status_unpublished ext cfg pid page w :
  remote w !! pid = Some page ->
  List.last (values_for LStatus (metadata_pairs page)) "" = "" ->
  status (extract_metadata page) = "UNKNOWN" /\
  exists w',
    process_page ext cfg pid w = (Ok true, w') /\
    sink w' = sink w /\ cache_values w' = cache_values w.
Proof.
  intros Hpage Hlast.
  assert (status (extract_metadata page) = "UNKNOWN") as Hst.
  { change (status (extract_metadata page))
      with (field LStatus (extract_metadata page)).
    revert Hlast. unfold extract_metadata, metadata_pairs.
    rewrite MetadataLaws.field_set_defaults.
    destruct (metadata_table (body page)) as [table|]; [|reflexivity].
    rewrite scan_table_pairs, field_fold_pairs.
    change (field LStatus empty_metadata) with "". by intros ->. }
  split; [exact Hst|].
  destruct (process_page_cases ext cfg pid w)
    as (ok & w' & Hrun & _ & _ & Hcases).
  rewrite Hpage in Hcases. cbn zeta in Hcases.
  assert (status_allowed (extract_metadata page) = false) as Hna.
  { unfold status_allowed. by rewrite Hst. }
  rewrite Hna in Hcases.
  destruct Hcases as [(-> & Hs & Hc & _)|[(_ & Habs & _)|
    [(_ & Habs & _)|(_ & Habs & _)]]];
    try discriminate.
  by exists w'.
Qed.

Lemma page_without_status_unpublished_witness :
  let page := Examples.page_with 1 [Examples.tag "h1" "1 Scope"] in
  let w := Examples.world_of page [] [] in
  status (extract_metadata page) = "UNKNOWN" /\
  exists w',
    process_page Examples.plain (mkConfig false false true) "42" w
      = (Ok true, w') /\
    sink w' = sink w /\ cache_values w' = cache_values w.
Proof.
  apply (page_without_status_unpublished Examples.plain
           (mkConfig false false true) "42"
           (Examples.page_with 1 [Examples.tag "h1" "1 Scope"])).
  - reflexivity.
  - reflexivity.
Defined.

End DocumentIdLaws.

(** ** Headings: numbers, titles, levels and identifiers *)

Module HeadingLaws.

Import Re Soup Sections SectionsView ReFacts ReLang SoupFacts.

Lemma lstrip_head l c r : Str.lstrip l = c :: r -> Chars.is_space c = false.
Proof.
  induction l as [|a l IH]; [discriminate|]. cbn [Str.lstrip].
  destruct (Chars.is_space a) eqn:Ha; [exact IH|].
  intros H. injection H as <- _. exact Ha.
Qed.

Lemma lstrip_spaces ws l :
  Forall (fun c => Chars.is_space c = true) ws ->
  Str.lstrip (ws ++ l) = Str.lstrip l.
Proof.
  induction 1 as [|c ws Hc _ IH]; [reflexivity|].
  cbn [app Str.lstrip]. by rewrite Hc.
Qed.

Lemma lstrip_split l :
  exists ws, l = ws ++ Str.lstrip l /\
    Forall (fun c => Chars.is_space c = true) ws.
Proof.
  induction l as [|c l (ws & IH & Hws)]; [by exists []|].
  cbn [Str.lstrip]. destruct (Chars.is_space c) eqn:Hc.
  - exists (c :: ws). split; [cbn; by rewrite <- IH|by constructor].
  - by exists [].
Qed.

(** A stripped text does not end in white space. *)
Lemma strip_last s pre c :
  Str.chars (Str.strip s) = pre ++ [c] -> Chars.is_space c = false.
Proof.
  unfold Str.strip, Str.chars, Str.of_chars.
  rewrite list_ascii_of_string_of_list_ascii. intros H.
  apply (f_equal (@rev ascii)) in H.
  rewrite rev_involutive, rev_app_distr in H. cbn in H.
  by apply lstrip_head in H.
Qed.

Lemma star_all (P : ascii -> Prop) r w :
  (forall w', lang r w' -> Forall P w') -> lang (Star r) w -> Forall P w.
Proof.
  intros Hr H. remember (Star r) as sr eqn:Hsr.
  induction H as [| | | | | |r0 w1 w2 H1 _ H2 IH]; try discriminate.
  - constructor.
  - injection Hsr as ->. apply Forall_app. split; [by apply Hr|by apply IH].
Qed.

(** The words of a dotted number: digits and dots, a digit first. *)
Lemma dotted_number_chars w :
  lang dotted_number w ->
  Forall (fun c => digit_or_dot c = true) w /\
  exists c r, w = c :: r /\ Chars.is_digit c = true.
Proof.
  unfold dotted_number. intros H.
  inversion H as [| |r1 r2 w1 w2 H1 H2| | | |]; subst.
  apply lang_plus_cls in H1 as [Hne Hd].
  split.
  - apply Forall_app. split.
    + eapply Forall_impl; [exact Hd|]. intros c Hc. unfold digit_or_dot.
      cbn beta in Hc. by rewrite Hc.
    + eapply star_all; [|exact H2]. intros w' Hw'.
      inversion Hw' as [| |r1 r2 w3 w4 H3 H4| | | |]; subst.
      apply lang_chr in H3 as ->. apply lang_plus_cls in H4 as [_ H4].
      constructor; [reflexivity|].
      eapply Forall_impl; [exact H4|]. intros c Hc. unfold digit_or_dot.
      cbn beta in Hc. rewrite Hc. reflexivity.
  - destruct Hd as [|c r Hc Hd]; [done|]. by exists c, (r ++ w2).
Qed.

(** A class under a star takes every character it can when the rest of the
    pattern accepts what follows. *)
Lemma star_cls_greedy {A} p ws rest (k : list ascii -> option A) x n :
  Forall (fun c => p c = true) ws ->
  k rest = Some x ->
  match rest with c :: _ => p c = false | [] => True end ->
  (List.length (ws ++ rest) <= n)%nat ->
  star_loop (rmatch (Cls p)) n (ws ++ rest) k = Some x.
Proof.
  intros Hws Hk Hrest. revert n.
  induction Hws as [|c ws Hc _ IH]; intros n Hn.
  - cbn [app]. destruct n as [|n]; [exact Hk|]. cbn [star_loop rmatch].
    destruct rest as [|c rest]; [exact Hk|]. by rewrite Hrest.
  - destruct n as [|n]; [cbn in Hn; lia|].
    cbn [app star_loop rmatch]. rewrite Hc.
    replace (_ <? _)%nat with true
      by (symmetry; apply Nat.ltb_lt; cbn; lia).
    rewrite IH; [reflexivity|]. cbn in Hn. lia.
Qed.

Lemma plus_cls_greedy {A} p c ws rest (k : list ascii -> option A) x :
  p c = true -> Forall (fun c => p c = true) ws ->
  k rest = Some x ->
  match rest with c :: _ => p c = false | [] => True end ->
  rmatch (plus (Cls p)) (c :: ws ++ rest) k = Some x.
Proof.
  intros Hc Hws Hk Hrest. unfold plus. cbn [rmatch]. rewrite Hc.
  by apply star_cls_greedy.
Qed.

Lemma number_match_sound t num title :
  number_match t = Some (num, title) ->
  exists ws tail,
    t = num ++ ws ++ title ++ tail /\ lang dotted_number num /\
    (ws <> [] /\ Forall (fun c => Chars.is_space c = true) ws) /\
    (title <> [] /\ Forall (fun c => Chars.not_newline c = true) title) /\
    at_end tail = true.
Proof.
  unfold number_match. intros H.
  apply rmatch_sound in H as (n & s1 & -> & Hn & H).
  apply rmatch_sound in H as (ws & s2 & -> & Hws & H).
  apply rmatch_sound in H as (ti & s3 & -> & Hti & H).
  destruct (at_end s3) eqn:Hend; [|discriminate].
  rewrite !consumed_app in H. injection H as <- <-.
  exists ws, s3. split; [reflexivity|]. split; [exact Hn|].
  split; [by apply lang_plus_cls|]. split; [by apply lang_plus_cls|done].
Qed.

Lemma space_not_number c :
  Chars.is_space c = true -> digit_or_dot c = false.
Proof. destruct c as [[] [] [] [] [] [] [] []]; by vm_compute. Qed.

Lemma newline_is_space c :
  Chars.not_newline c = false -> Chars.is_space c = true.
Proof. destruct c as [[] [] [] [] [] [] [] []]; by vm_compute. Qed.

(** Two runs of a class at the start of one text, each followed by a
    character outside the class. *)
Lemma run_unique (p : ascii -> bool) l1 l2 c1 c2 r1 r2 :
  l1 ++ c1 :: r1 = l2 ++ c2 :: r2 ->
  Forall (fun c => p c = true) l1 -> Forall (fun c => p c = true) l2 ->
  p c1 = false -> p c2 = false -> l1 = l2.
Proof.
  intros Heq H1. revert l2 Heq.
  induction H1 as [|a l1 Ha _ IH]; intros l2 Heq H2 Hc1 Hc2.
  - destruct H2 as [|b l2 Hb _]; [reflexivity|].
    cbn in Heq. injection Heq as -> _. congruence.
  - destruct H2 as [|b l2 Hb H2].
    + cbn in Heq. injection Heq as -> _. congruence.
    + cbn in Heq. injection Heq as -> Heq. f_equal. by apply IH.
Qed.

Lemma lstrip_last pre c :
  Chars.is_space c = false -> Str.lstrip (pre ++ [c]) <> [].
Proof.
  intros Hc. induction pre as [|a pre IH]; cbn [app Str.lstrip].
  - by rewrite Hc.
  - by destruct (Chars.is_space a).
Qed.

Lemma lstrip_line l :
  Forall (fun c => Chars.not_newline c = true) l ->
  Forall (fun c => Chars.not_newline c = true) (Str.lstrip l).
Proof.
  induction 1 as [|c l Hc Hl IH]; [constructor|]. cbn [Str.lstrip].
  destruct (Chars.is_space c); [exact IH|by constructor].
Qed.

(** What follows the number: the white space is taken whole, then the line
    to its end. *)
Lemma rest_of_heading {A} (f : list ascii -> list ascii -> A) ws title :
  ws <> [] -> Forall (fun c => Chars.is_space c = true) ws ->
  Str.lstrip title <> [] ->
  Forall (fun c => Chars.not_newline c = true) title ->
  rmatch (plus space) (ws ++ title) (fun s2 =>
    rmatch (plus any) s2 (fun s3 =>
      if at_end s3 then Some (f s2 s3) else None))
  = Some (f (Str.lstrip title) []).
Proof.
  intros Hne Hws Hti Hline.
  destruct (lstrip_split title) as (ws2 & Htitle & Hws2).
  destruct (Str.lstrip title) as [|c2 r2] eqn:Hls; [done|].
  assert (Forall (fun c => Chars.not_newline c = true) (c2 :: r2)) as Hl2.
  { rewrite <- Hls. by apply lstrip_line. }
  rewrite Htitle, app_assoc.
  destruct Hws as [|c ws Hc Hws]; [done|].
  change (((c :: ws) ++ ws2) ++ c2 :: r2) with (c :: (ws ++ ws2) ++ c2 :: r2).
  apply plus_cls_greedy; [exact Hc|by apply Forall_app| |by eapply lstrip_head].
  replace (c2 :: r2) with (c2 :: r2 ++ []) at 1 by (by rewrite app_nil_r).
  inversion Hl2 as [|? ? Hc2 Hr2]; subst.
  by apply plus_cls_greedy.
Qed.

Lemma number_match_complete num ws title :
  lang dotted_number num ->
  ws <> [] -> Forall (fun c => Chars.is_space c = true) ws ->
  Str.lstrip title <> [] ->
  Forall (fun c => Chars.not_newline c = true) title ->
  number_match (num ++ ws ++ title) = Some (num, Str.lstrip title).
Proof.
  intros Hnum Hne Hws Hti Hline. unfold number_match.
  set (t := num ++ ws ++ title).
  set (k1 := fun s1 : list ascii => rmatch (plus space) s1 _).
  assert (k1 (ws ++ title) = Some (num, Str.lstrip title)) as Hk1.
  { unfold k1.
    rewrite (rest_of_heading
               (fun s2 s3 => (consumed t (ws ++ title), consumed s2 s3)));
      try assumption.
    unfold t. rewrite consumed_app. f_equal. f_equal.
    unfold consumed. by rewrite Nat.sub_0_r, firstn_all. }
  destruct (rmatch_complete dotted_number num (ws ++ title) k1 Hnum) as [x Hx];
    [by rewrite Hk1|].
  fold t in Hx. rewrite Hx.
  apply rmatch_sound in Hx as (num' & s1' & Ht & Hnum' & Hx).
  assert (num' = num) as ->.
  { unfold k1 in Hx.
    apply rmatch_sound in Hx as (ws' & s2' & -> & Hws' & _).
    apply lang_plus_cls in Hws' as [Hne' Hws'].
    destruct Hws as [|c ws Hc Hws]; [done|].
    destruct Hws' as [|c' ws' Hc' Hws']; [done|].
    apply dotted_number_chars in Hnum as [Hdd _].
    apply dotted_number_chars in Hnum' as [Hdd' _].
    unfold t in Ht. cbn [app] in Ht. symmetry in Ht.
    by apply (run_unique digit_or_dot _ _ _ _ _ _ Ht);
      [| |apply space_not_number..]. }
  unfold t in Ht. apply app_inv_head in Ht as <-. congruence.
Qed.

(** X19. A heading is given a section number exactly when its stripped text
    reads: a dotted number (digits, then groups of a dot and digits), white
    space, and a non-empty title on one line. The number is group 1 and the
    title what follows the white space. *)
Theorem heading_number_recognised h num title :
  number_match (Str.chars (Str.strip (Soup.text h))) = Some (num, title) <->
  exists ws, numbered_text num ws title (Str.chars (Str.strip (Soup.text h))).
Proof.
  split.
  - intros H. pose proof H as Hm.
    apply number_match_sound in H
      as (ws & tail & Ht & Hnum & [Hne Hws] & [Htne Hline] & Hend).
    assert (tail = []) as ->.
    { destruct tail as [|c [|? ?]]; [reflexivity| |discriminate].
      cbn in Hend. apply negb_true_iff, newline_is_space in Hend.
      rewrite !app_assoc in Ht. apply strip_last in Ht. congruence. }
    rewrite app_nil_r in Ht.
    assert (Str.lstrip title <> []) as Hls.
    { destruct (exists_last Htne) as (pre & c & ->).
      apply lstrip_last. rewrite !app_assoc in Ht. by apply strip_last in Ht. }
    rewrite Ht, (number_match_complete num ws title) in Hm by assumption.
    injection Hm as Hm. exists ws. by repeat split.
  - intros (ws & Ht & Hnum & Hne & Hws & Htne & Hline & Hls).
    rewrite Ht, (number_match_complete num ws title);
      [by rewrite Hls|try assumption..]. by rewrite Hls.
Qed.

Lemma heading_level_range h :
  (exists nm, Soup.name h = Some nm /\ name_in heading_names nm = true) ->
  (1 <= heading_level h <= 6)%nat.
Proof.
  intros (nm & Hname & Hin). unfold heading_level. rewrite Hname.
  unfold name_in in Hin. apply existsb_exists in Hin as (x & Hx & Heq).
  apply String.eqb_eq in Heq as ->.
  cbn in Hx. destruct Hx as [<-|[<-|[<-|[<-|[<-|[<-|[]]]]]]]; vm_compute; lia.
Qed.

Lemma make_section_number ext hs i h :
  section_number (make_section ext hs i h) = (number_and_title h.1).1 /\
  level (make_section ext hs i h) = heading_level h.1 /\
  section_id (make_section ext hs i h) =
    make_section_id i (number_and_title h.1).1.
Proof. unfold make_section. by destruct (number_and_title h.1). Qed.

Lemma imap_sections ext hs (l : list (Soup.node * list Soup.node)) :
  Forall (fun p => exists nm,
            Soup.name p.1 = Some nm /\ name_in heading_names nm = true) l ->
  Forall (fun s => (1 <= level s <= 6)%nat) (imap (make_section ext hs) l) /\
  map section_number (imap (make_section ext hs) l) =
    map (fun h => (number_and_title h.1).1) l.
Proof.
  intros Hnames. split.
  - apply Forall_lookup. intros i s Hi. rewrite list_lookup_imap in Hi.
    destruct (l !! i) as [h|] eqn:Hh; [|discriminate].
    injection Hi as <-.
    destruct (make_section_number ext hs i h) as (_ & -> & _).
    apply heading_level_range.
    rewrite Forall_lookup in Hnames. exact (Hnames _ _ Hh).
  - clear Hnames.
    assert (forall i h, section_number (make_section ext hs i h)
                        = (number_and_title h.1).1) as Hf
      by (intros i h; apply make_section_number).
    revert Hf. generalize (make_section ext hs). intros f Hf.
    revert f Hf. induction l as [|h l IH]; intros f Hf; [reflexivity|].
    cbn [imap map]. rewrite Hf. f_equal. apply IH. intros i h'. apply Hf.
Qed.

(** X20. There is one section per heading tag of the document, in document
    order, and a single one when there is no heading, so the list is never
    empty; every level lies between 1 and 6; the section numbers are those
    read off the headings; and the result does not depend on the metadata
    argument. *)
Theorem sections_follow_headings ext soup m :
  let secs := split_content_into_sections ext soup m in
  List.length secs = Nat.max 1 (List.length (headings soup)) /\
  Forall (fun s => (1 <= level s <= 6)%nat) secs /\
  map section_number secs =
    match headings soup with [] => [""] | _ => numbers_of soup end /\
  forall m', split_content_into_sections ext soup m' = secs.
Proof.
  cbn zeta. unfold split_content_into_sections, numbers_of.
  pose proof (select_names heading_names soup) as Hnames.
  fold (headings soup) in Hnames.
  destruct (headings soup) as [|h0 hs] eqn:Hhs.
  { repeat split. repeat constructor. }
  destruct (imap_sections ext (h0 :: hs) (h0 :: hs) Hnames) as [Hlev Hnum].
  split; [|by repeat split].
  rewrite length_imap. cbn [List.length]. lia.
Qed.

Lemma replace_dots_inj a b :
  Str.no_underscore a = true -> Str.no_underscore b = true ->
  Str.replace_char "." "_" a = Str.replace_char "." "_" b -> a = b.
Proof.
  unfold Str.replace_char, Str.of_chars, Str.chars.
  revert b. induction a as [|c a IH]; intros [|d b] Ha Hb H;
    cbn in H; try discriminate; [reflexivity|].
  cbn [Str.no_underscore] in Ha, Hb.
  apply andb_prop in Ha as [Hc Ha]. apply andb_prop in Hb as [Hd Hb].
  injection H as Hcd H. f_equal; [|by apply IH].
  destruct (Ascii.eqb c ".") eqn:Ec, (Ascii.eqb d ".") eqn:Ed.
  - apply Ascii.eqb_eq in Ec, Ed. congruence.
  - subst d. by rewrite Ascii.eqb_refl in Hd.
  - subst c. by rewrite Ascii.eqb_refl in Hc.
  - exact Hcd.
Qed.

Lemma number_clean h :
  Str.no_underscore (number_and_title h).1 = true.
Proof.
  unfold number_and_title.
  destruct (number_match _) as [[num rest]|] eqn:Hm; [|reflexivity].
  apply number_match_sound in Hm as (_ & _ & _ & Hnum & _).
  apply dotted_number_chars in Hnum as [Hdd _]. cbn [fst].
  unfold Str.of_chars. induction Hdd as [|c l Hc _ IH]; [reflexivity|].
  cbn [string_of_list_ascii Str.no_underscore]. rewrite IH, andb_true_r.
  destruct (Ascii.eqb c "_") eqn:Ec; [|reflexivity].
  apply Ascii.eqb_eq in Ec as ->. discriminate.
Qed.

Lemma section_ids_lookup ext hs (l : list (Soup.node * list Soup.node)) i x :
  map section_id (imap (make_section ext hs) l) !! i = Some x ->
  exists h, l !! i = Some h /\ x = make_section_id i (number_and_title h.1).1.
Proof.
  rewrite CacheLaws.map_is_fmap, list_lookup_fmap, list_lookup_imap.
  destruct (l !! i) as [h|]; [|discriminate]. cbn. intros H. injection H as <-.
  exists h. split; [reflexivity|]. apply make_section_number.
Qed.

Lemma section_ids_prefix ext soup m s :
  In s (split_content_into_sections ext soup m) ->
  exists x, section_id s = "section_" +:+ x.
Proof.
  unfold split_content_into_sections.
  destruct (headings soup) as [|h0 hs].
  - intros [<-|[]]. by eexists.
  - generalize (h0 :: hs) at 2. intros l Hin.
    apply list_elem_of_In, list_elem_of_lookup in Hin as [i Hi].
    rewrite list_lookup_imap in Hi.
    destruct (l !! i) as [h|]; [|discriminate]. injection Hi as <-.
    destruct (make_section_number ext (h0 :: hs) i h) as (_ & _ & ->).
    unfold make_section_id. destruct (Str.truthy _); by eexists.
Qed.

Lemma section_ids_nodup ext soup m :
  Forall (fun n => n = "") (numbers_of soup) \/
  (Forall (fun n => n <> "") (numbers_of soup) /\ NoDup (numbers_of soup)) ->
  NoDup (map section_id (split_content_into_sections ext soup m)).
Proof.
  unfold split_content_into_sections, numbers_of.
  destruct (headings soup) as [|h0 hs]; [intros _; apply NoDup_singleton|].
  generalize (h0 :: hs) at 1 2 3 5. intros l Hnum.
  apply NoDup_alt. intros i j x Hi Hj.
  apply section_ids_lookup in Hi as (hi & Hi & ->).
  apply section_ids_lookup in Hj as (hj & Hj & Heq).
  assert (forall k h, l !! k = Some h ->
            map (fun h => (number_and_title h.1).1) l !! k
            = Some (number_and_title h.1).1) as Hlk.
  { intros k h Hk. by rewrite CacheLaws.map_is_fmap, list_lookup_fmap, Hk. }
  unfold make_section_id in Heq.
  destruct Hnum as [Hall|[Hall Hnd]]; rewrite Forall_lookup in Hall.
  - rewrite (Hall _ _ (Hlk _ _ Hi)), (Hall _ _ (Hlk _ _ Hj)) in Heq.
    cbn [Str.truthy String.eqb negb] in Heq.
    apply (inj (String.app "section_")) in Heq.
    apply (inj pretty) in Heq. lia.
  - pose proof (Hall _ _ (Hlk _ _ Hi)) as Hni.
    pose proof (Hall _ _ (Hlk _ _ Hj)) as Hnj.
    unfold Str.truthy in Heq.
    destruct (String.eqb_spec (number_and_title hi.1).1 ""); [done|].
    destruct (String.eqb_spec (number_and_title hj.1).1 ""); [done|].
    cbn [negb] in Heq. apply (inj (String.app "section_")) in Heq.
    apply replace_dots_inj in Heq; [|apply number_clean..].
    rewrite NoDup_alt in Hnd.
    apply (Hnd i j (number_and_title hi.1).1); [by apply Hlk|].
    rewrite Heq. by apply Hlk.
Qed.

(** X21. The identifiers of one batch are pairwise distinct when no heading
    of the page carries a section number, and when every heading carries one
    and the numbers are pairwise distinct. (The identifiers collide only
    when numbered and unnumbered headings are mixed or a number repeats.) *)
Theorem batch_ids_distinct ext cfg page_id page v m :
  Forall (fun n => n = "") (numbers_of (body page)) \/
  (Forall (fun n => n <> "") (numbers_of (body page)) /\
   NoDup (numbers_of (body page))) ->
  NoDup (map doc_id (Processor.build_documents ext cfg page_id page v m)).
Proof.
  intros Hnum. unfold Processor.build_documents. cbn [map].
  rewrite map_map. cbn [Processor.section_document doc_id].
  apply NoDup_cons. split.
  - intros Hin. apply list_elem_of_In, in_map_iff in Hin as (s & Heq & Hin).
    apply section_ids_prefix in Hin as [x Hx]. rewrite Hx in Heq.
    unfold Processor.full_document, Processor.record_id in Heq. cbn [doc_id] in Heq.
    apply (inj (String.app page_id)) in Heq.
    apply (inj (String.app "_v")) in Heq.
    apply (inj (String.app (pretty v))) in Heq. discriminate.
  - rewrite <- (map_map section_id (Processor.record_id page_id v)).
    rewrite (CacheLaws.map_is_fmap (Processor.record_id page_id v)).
    apply NoDup_fmap_2; [|by apply section_ids_nodup].
    intros a b Heq. unfold Processor.record_id in Heq.
    apply (inj (String.app page_id)) in Heq.
    apply (inj (String.app "_v")) in Heq.
    apply (inj (String.app (pretty v))) in Heq.
    by apply (inj (String.app "_")) in Heq.
Qed.

Lemma batch_ids_distinct_witness :
  let page := Examples.page_with 3 Examples.scope_document in
  numbers_of (body page) = ["1"; "1.1"; "2"] /\
  NoDup (map doc_id
           (Processor.build_documents Examples.plain Examples.no_flags "42"
              page 3 empty_metadata)).
Proof.
  split; [reflexivity|].
  apply (batch_ids_distinct Examples.plain Examples.no_flags "42"
           (Examples.page_with 3 Examples.scope_document) 3 empty_metadata).
  right. split.
  - repeat constructor; discriminate.
  - apply NoDup_ListNoDup.
    repeat (constructor; [simpl; intuition discriminate|]). constructor.
Defined.

End HeadingLaws.

(** ** The page configuration *)

Module PageConfigLaws.

Import PageConfig.

Lemma has_key_eq k kv : has_key k kv = true <-> kv.1 = k.
Proof. unfold has_key. apply String.eqb_eq. Qed.

Lemma dict_in_get k d : dict_in k d = false <-> dict_get k d = None.
Proof.
  unfold dict_in, dict_get. induction d as [|kv d IH]; [done|].
  cbn [existsb List.find]. destruct (has_key k kv); [done|]. exact IH.
Qed.

Lemma dict_get_set_eq k v d : dict_get k (dict_set k v d) = Some v.
Proof.
  unfold dict_set. destruct (dict_in k d) eqn:Hin.
  - unfold dict_in, dict_get in *. induction d as [|kv d IH]; [discriminate|].
    cbn [existsb map List.find] in *. destruct (has_key k kv) eqn:Hk.
    + unfold has_key at 1. cbn [fst]. by rewrite String.eqb_refl.
    + rewrite Hk. apply IH. exact Hin.
  - unfold dict_in, dict_get in *. induction d as [|kv d IH].
    + cbn. unfold has_key. cbn. by rewrite String.eqb_refl.
    + cbn [existsb app List.find] in *. destruct (has_key k kv); [discriminate|].
      by apply IH.
Qed.

Lemma dict_get_set_ne k k' v d :
  k' <> k -> dict_get k' (dict_set k v d) = dict_get k' d.
Proof.
  intros Hne. unfold dict_set. destruct (dict_in k d).
  - unfold dict_get. induction d as [|kv d IH]; [reflexivity|].
    cbn [map List.find]. destruct (has_key k kv) eqn:Hk.
    + apply has_key_eq in Hk.
      assert (has_key k' (k, v) = false) as ->
        by (unfold has_key; cbn; by apply String.eqb_neq).
      assert (has_key k' kv = false) as ->
        by (unfold has_key; rewrite Hk; by apply String.eqb_neq).
      exact IH.
    + destruct (has_key k' kv); [reflexivity|exact IH].
  - unfold dict_get. induction d as [|kv d IH].
    + cbn. unfold has_key. cbn.
      by assert (String.eqb k k' = false) as -> by (by apply String.eqb_neq).
    + cbn [app List.find]. destruct (has_key k' kv); [reflexivity|exact IH].
Qed.

Lemma dict_get_del_eq k d : dict_get k (dict_del k d) = None.
Proof.
  unfold dict_get, dict_del. induction d as [|kv d IH]; [reflexivity|].
  cbn [List.filter]. destruct (has_key k kv) eqn:Hk; cbn [negb]; [exact IH|].
  cbn [List.find]. by rewrite Hk.
Qed.

Lemma dict_get_del_ne k k' d :
  k' <> k -> dict_get k' (dict_del k d) = dict_get k' d.
Proof.
  intros Hne. unfold dict_get, dict_del. induction d as [|kv d IH]; [reflexivity|].
  cbn [List.filter List.find]. destruct (has_key k kv) eqn:Hk; cbn [negb].
  - apply has_key_eq in Hk.
    assert (has_key k' kv = false) as ->
      by (unfold has_key; rewrite Hk; by apply String.eqb_neq).
    exact IH.
  - cbn [List.find]. destruct (has_key k' kv); [reflexivity|exact IH].
Qed.

Lemma dict_keys_set k v d :
  dict_keys (dict_set k v d) =
  if dict_in k d then dict_keys d else dict_keys d ++ [k].
Proof.
  unfold dict_set, dict_keys. destruct (dict_in k d).
  - rewrite map_map. apply map_ext_in. intros kv _.
    destruct (has_key k kv) eqn:Hk; [|reflexivity].
    apply has_key_eq in Hk. by rewrite Hk.
  - by rewrite map_app.
Qed.

Lemma make_dirs_lookup paths fs p :
  make_dirs paths fs !! p = fs !! p \/
  (fs !! p = None /\ make_dirs paths fs !! p = Some Directory).
Proof.
  unfold make_dirs. revert fs. induction paths as [|q paths IH]; intros fs.
  - by left.
  - cbn [fold_left]. destruct (fs !! q) eqn:Hq; [apply IH|].
    destruct (IH (<[q := Directory]> fs)) as [H|[H1 H2]].
    + destruct (decide (q = p)) as [->|Hne].
      * right. split; [exact Hq|]. by rewrite H, lookup_insert_eq.
      * left. by rewrite H, lookup_insert_ne.
    + destruct (decide (q = p)) as [->|Hne].
      * by rewrite lookup_insert_eq in H1.
      * right. rewrite lookup_insert_ne in H1 by done. by split.
Qed.

Lemma fs_call_files d : files (fs_call d).2 = files d.
Proof. unfold fs_call. by destruct (fs_faults d). Qed.

(** [os.makedirs] leaves every path as it is or makes it a directory. *)
Lemma makedirs_effect dir d p :
  files (makedirs dir d).2 !! p = files d !! p \/
  (files d !! p = None /\ files (makedirs dir d).2 !! p = Some Directory).
Proof.
  unfold makedirs.
  destruct (String.eqb dir ""); [by left|].
  destruct (blocked _ _); [by left|].
  destruct (is_directory _ _); [by left|].
  pose proof (fs_call_files d) as Hf.
  destruct (fs_call d) as [[[made]|] d1]; cbn [snd] in Hf |- *;
    cbn [set_files files]; rewrite Hf; apply make_dirs_lookup.
Qed.

(** The write changes one path: to the new content when it returns, to an
    unreadable file at most when it raises. *)
Lemma write_json_effect path content d :
  let '(ok, d') := write_json path content d in
  (if ok then files d' !! path = Some content
   else files d' !! path = files d !! path \/
        files d' !! path = Some Unreadable) /\
  (forall p, p <> path -> files d' !! p = files d !! p).
Proof.
  unfold write_json.
  destruct (is_directory _ _); [split; [by left|done]|].
  pose proof (fs_call_files d) as Hf1.
  destruct (fs_call d) as [[f1|] d1]; cbn [snd] in Hf1.
  { rewrite Hf1. split; [by left|done]. }
  pose proof (fs_call_files d1) as Hf2.
  destruct (fs_call d1) as [[f2|] d2]; cbn [snd] in Hf2;
    cbn [set_files files]; rewrite Hf2, Hf1.
  - split; [right; apply lookup_insert_eq|].
    intros p Hp. by rewrite lookup_insert_ne.
  - split; [apply lookup_insert_eq|].
    intros p Hp. by rewrite lookup_insert_ne.
Qed.

(** What [save_config] does to the disk. After [True] the path holds the
    configuration of the object. In any case a path holds what it held, or a
    directory where it held nothing, and the path of the configuration may
    hold an unreadable file instead. *)
Lemma save_config_effect pc d :
  let '(ok, d') := save_config pc d in
  (if ok
   then files d' !! config_path pc
        = Some (Json (Some (pages pc)) (Some (spaces pc)))
   else files d' !! config_path pc = files d !! config_path pc \/
        files d' !! config_path pc = Some Unreadable \/
        (files d !! config_path pc = None /\
         files d' !! config_path pc = Some Directory)) /\
  (forall p, p <> config_path pc ->
     files d' !! p = files d !! p \/
     (files d !! p = None /\ files d' !! p = Some Directory)).
Proof.
  unfold save_config.
  pose proof (makedirs_effect (dirname (config_path pc)) d) as Hdirs.
  destruct (makedirs (dirname (config_path pc)) d) as [[|] d1];
    cbn [snd] in Hdirs.
  - pose proof (write_json_effect (config_path pc)
                  (Json (Some (pages pc)) (Some (spaces pc))) d1) as Hwrite.
    destruct (write_json _ _ d1) as [ok d'].
    destruct Hwrite as [Hpath Hothers]. split.
    + destruct ok; [exact Hpath|].
      destruct Hpath as [->|Hpath]; [|right; by left].
      destruct (Hdirs (config_path pc)); [by left|right; by right].
    + intros p Hp. rewrite (Hothers p Hp). apply Hdirs.
  - split; [|intros p _; apply Hdirs].
    destruct (Hdirs (config_path pc)); [by left|right; by right].
Qed.

(** What is saved is what a new object loads. *)
Lemma saved_then_new pc d :
  files d !! config_path pc
    = Some (Json (Some (pages pc)) (Some (spaces pc))) ->
  new (config_path pc) d = pc.
Proof.
  unfold new, load_config. cbn [config_path]. intros ->. by destruct pc.
Qed.

Lemma page_entry_enabled name enabled :
  page_entry name enabled <> ∅ /\
  page_entry name enabled !! "enabled" = Some (JBool enabled) /\
  page_entry name enabled !! "name" = Some (JStr name).
Proof.
  assert (page_entry name enabled !! "enabled" = Some (JBool enabled)) as Hen
    by (by vm_compute).
  split; [|split; [exact Hen|by vm_compute]].
  intros Hempty. rewrite Hempty in Hen. vm_compute in Hen. discriminate Hen.
Qed.

(** X22. [add_page] puts the entry into the object whatever happens to the
    file: the page reads back with its name and flag, the other entries are
    untouched, a new id goes last and a known id keeps its place. It returns
    True exactly when the file was written, and then the path holds the
    configuration of the object and a new object on the path loads it. When
    it returns False, object and file differ, and the file is not always as
    before: the path then holds what it held, or an unreadable (emptied or
    partly written) file, or a directory made on the way. Every other path
    holds what it held, or a directory where it held nothing. *)
Theorem add_page_persists pc d page_id name enabled :
  let '(ok, pc', d') := add_page page_id name enabled pc d in
  let path := config_path pc in
  get_page_info pc' page_id = Some (page_entry name enabled) /\
  is_page_enabled pc' page_id = JBool enabled /\
  (forall other, other <> page_id ->
     get_page_info pc' other = get_page_info pc other) /\
  get_all_page_ids pc' =
    (if dict_in page_id (pages pc) then get_all_page_ids pc
     else get_all_page_ids pc ++ [page_id]) /\
  (if ok
   then files d' !! path = Some (Json (Some (pages pc')) (Some (spaces pc'))) /\
        new path d' = pc'
   else files d' !! path = files d !! path \/
        files d' !! path = Some Unreadable \/
        (files d !! path = None /\ files d' !! path = Some Directory)) /\
  (forall p, p <> path ->
     files d' !! p = files d !! p \/
     (files d !! p = None /\ files d' !! p = Some Directory)).
Proof.
  unfold add_page.
  match goal with
  | |- context [save_config ?pc1 d] =>
      pose proof (save_config_effect pc1 d) as Heff;
      destruct (save_config pc1 d) as [ok d'] eqn:Hsave
  end.
  cbn zeta. cbn [config_path pages spaces] in *.
  unfold get_page_info, is_page_enabled, get_all_page_ids, get_page_info.
  cbn [pages]. rewrite dict_get_set_eq.
  destruct (page_entry_enabled name enabled) as (Hne & Hen & _).
  rewrite bool_decide_eq_false_2, Hen by exact Hne.
  split; [reflexivity|]. split; [reflexivity|].
  split; [intros other Hother; by apply dict_get_set_ne|].
  split; [apply dict_keys_set|].
  destruct Heff as [Hpath Hothers]. split; [|exact Hothers].
  destruct ok; [|exact Hpath]. split; [exact Hpath|].
  by apply (saved_then_new (mkPageConfig (config_path pc) _ (spaces pc))).
Qed.

(** X23. [remove_page] of an id that is not configured returns False and
    changes neither object nor file. For a configured id the entry leaves
    the object whatever happens to the file, the other entries stay, and the
    result tells whether the file was written: after True the path holds
    the configuration without the page and a new object on the path loads
    it; after False the path holds what it held, or an unreadable (emptied
    or partly written) file, or a directory made on the way. Every other
    path holds what it held, or a directory where it held nothing. *)
Theorem remove_page_persists pc d page_id :
  let '(ok, pc', d') := remove_page page_id pc d in
  let path := config_path pc in
  (get_page_info pc page_id = None -> ok = false /\ pc' = pc /\ d' = d) /\
  get_page_info pc' page_id = None /\
  is_page_enabled pc' page_id = JBool false /\
  (forall other, other <> page_id ->
     get_page_info pc' other = get_page_info pc other) /\
  (if ok
   then files d' !! path = Some (Json (Some (pages pc')) (Some (spaces pc'))) /\
        new path d' = pc'
   else files d' !! path = files d !! path \/
        files d' !! path = Some Unreadable \/
        (files d !! path = None /\ files d' !! path = Some Directory)) /\
  (forall p, p <> path ->
     files d' !! p = files d !! p \/
     (files d !! p = None /\ files d' !! p = Some Directory)).
Proof.
  unfold remove_page, is_page_enabled, get_page_info.
  destruct (dict_in page_id (pages pc)) eqn:Hin.
  - match goal with
    | |- context [save_config ?pc1 d] =>
        pose proof (save_config_effect pc1 d) as Heff;
        destruct (save_config pc1 d) as [ok d'] eqn:Hsave
    end.
    cbn zeta. cbn [config_path pages spaces] in *.
    rewrite dict_get_del_eq.
    split.
    { intros Hnone. apply dict_in_get in Hnone. congruence. }
    split; [reflexivity|]. split; [reflexivity|].
    split; [intros other Hother; by apply dict_get_del_ne|].
    destruct Heff as [Hpath Hothers]. split; [|exact Hothers].
    destruct ok; [|exact Hpath]. split; [exact Hpath|].
    by apply (saved_then_new (mkPageConfig (config_path pc) _ (spaces pc))).
  - cbn zeta. apply dict_in_get in Hin. rewrite Hin.
    repeat split; try done; by left.
Qed.

(** A save that fails after the file was opened: the configuration that was
    on disk is gone, and a new object loads nothing. *)
Lemma failed_save_empties_the_file :
  let saved := mkPageConfig "config/pages.json" [("7", page_entry "Old" true)] [] in
  let d := mkDisk {[ "config/pages.json" := Json (Some (pages saved)) (Some []) ]}
             [None; None; Some (Fails 0)] in
  new "config/pages.json" d = saved /\
  exists pc' d',
    add_page "42" "Requirements" true saved d = (false, pc', d') /\
    files d' !! "config/pages.json" = Some Unreadable /\
    new "config/pages.json" d' = mkPageConfig "config/pages.json" [] [].
Proof. vm_compute. split; [reflexivity|]. by eexists _, _. Qed.

Lemma through_slash_none l :
  forallb (fun c => negb (Ascii.eqb c "/")) l = true -> through_slash l = [].
Proof.
  induction l as [|c l IH]; [reflexivity|]. cbn [forallb through_slash].
  intros H. apply andb_prop in H as [Hc Hl].
  apply negb_true_iff in Hc. rewrite Hc. by apply IH.
Qed.

Lemma dirname_bare p :
  forallb (fun c => negb (Ascii.eqb c "/")) (Str.chars p) = true ->
  dirname p = "".
Proof.
  intros H. unfold dirname. rewrite through_slash_none; [reflexivity|].
  rewrite forallb_forall in *. intros c Hc. apply H. by apply in_rev.
Qed.

(** X24. With a configuration path that names a file without a directory
    part nothing is ever saved: [os.makedirs] is called on the empty name
    and raises, so [save_config] and with it [add_page] return False and
    leave the file system as it is, although the object holds the page. *)
Theorem bare_file_name_never_saved pc d page_id name enabled :
  forallb (fun c => negb (Ascii.eqb c "/")) (Str.chars (config_path pc)) = true ->
  save_config pc d = (false, d) /\
  exists pc',
    add_page page_id name enabled pc d = (false, pc', d) /\
    get_page_info pc' page_id = Some (page_entry name enabled).
Proof.
  intros Hbare. apply dirname_bare in Hbare.
  unfold add_page, save_config. cbn [config_path]. rewrite Hbare. cbn.
  split; [reflexivity|]. eexists. split; [reflexivity|].
  unfold get_page_info. cbn [pages]. apply dict_get_set_eq.
Qed.

Lemma bare_file_name_never_saved_witness :
  let pc := mkPageConfig "pages.json" [] [] in
  let d := mkDisk ∅ [] in
  save_config pc d = (false, d) /\
  exists pc',
    add_page "42" "Requirements" true pc d = (false, pc', d) /\
    get_page_info pc' "42" = Some (page_entry "Requirements" true).
Proof.
  apply (bare_file_name_never_saved (mkPageConfig "pages.json" [] [])
           (mkDisk ∅ []) "42" "Requirements" true).
  reflexivity.
Defined.

End PageConfigLaws.

(** ** The run over the configured pages *)

Module MainLaws.

Import Processor Observe PageConfig Main EffectFacts OutcomeFacts.

Lemma build_documents_source ext cfg page_id page v m :
  Forall (fun d => source_page_id d = page_id)
    (build_documents ext cfg page_id page v m).
Proof.
  unfold build_documents. constructor; [reflexivity|].
  apply Forall_forall. intros d Hd.
  apply list_elem_of_In, in_map_iff in Hd as (s & <- & _). reflexivity.
Qed.

Lemma enabled_has_info pc page_id :
  jtruthy (is_page_enabled pc page_id) = true ->
  is_Some (get_page_info pc page_id).
Proof.
  unfold is_page_enabled. destruct (get_page_info pc page_id); [by eexists|].
  discriminate.
Qed.

(** The loop ends normally; what it uploads are batches of its pages, at
    most one for each. *)
Lemma run_pages_uploads ext cfg pc ids s f w :
  Forall (fun page_id => is_Some (get_page_info pc page_id)) ids ->
  exists s' f' w' batches,
    run_pages ext cfg pc ids s f w = (Ok (s', f'), w') /\
    (s' + f' = s + f + List.length ids)%nat /\
    uploads (sink w') = uploads (sink w) ++ batches /\
    batches_of ids batches /\
    (List.length batches <= List.length ids)%nat.
Proof.
  intros Hids. revert s f w.
  induction Hids as [|pid ids [page_info Hinfo] _ IH]; intros s f w.
  - exists s, f, w, []. cbn. unfold ret. rewrite app_nil_r.
    repeat split; [lia|constructor|lia].
  - cbn [run_pages]. rewrite Hinfo. unfold bind at 1, log at 1.
    match goal with
    | |- context [bind _ _ ?w0] =>
        set (w1 := w0);
        destruct (process_page_cases ext cfg pid w1)
          as (ok & w2 & Hrun & _ & _ & Hcases)
    end.
    unfold bind at 1. rewrite Hrun.
    assert (exists mine, uploads (sink w2) = uploads (sink w) ++ mine /\
              batches_of (pid :: ids) mine /\ (List.length mine <= 1)%nat)
      as (mine & Hup & Hmine & Hlen).
    { assert (sink w1 = sink w) as Hs1 by reflexivity.
      destruct (remote w1 !! pid) as [page|].
      - cbn zeta in Hcases.
        destruct Hcases as [(_ & Hs & _)|[(_ & _ & _ & _ & Hu & _)|
          [(_ & _ & _ & _ & Hu & _)|(_ & _ & _ & Hs & _)]]].
        + exists []. rewrite Hs, Hs1, app_nil_r.
          repeat split; [constructor|cbn; lia].
        + exists []. rewrite Hu, Hs1, app_nil_r.
          repeat split; [constructor|cbn; lia].
        + eexists [_]. rewrite Hu, Hs1. split; [reflexivity|].
          split; [|cbn; lia]. constructor; [|constructor].
          exists pid. split; [by left|apply build_documents_source].
        + exists []. rewrite Hs, Hs1, app_nil_r.
          repeat split; [constructor|cbn; lia].
      - destruct Hcases as (_ & Hs & _). exists []. rewrite Hs, Hs1, app_nil_r.
        repeat split; [constructor|cbn; lia]. }
    assert (forall s0 f0, exists s' f' w' batches,
              run_pages ext cfg pc ids s0 f0 w2 = (Ok (s', f'), w') /\
              (s' + f' = s0 + f0 + List.length ids)%nat /\
              uploads (sink w') = uploads (sink w) ++ batches /\
              batches_of (pid :: ids) batches /\
              (List.length batches <= S (List.length ids))%nat) as Hrest.
    { intros s0 f0.
      destruct (IH s0 f0 w2) as (s' & f' & w' & rest & Hr & Hsum & Hu & Hb & Hl).
      exists s', f', w', (mine ++ rest). split; [exact Hr|]. split; [exact Hsum|].
      split; [by rewrite Hu, Hup, app_assoc|].
      split.
      - apply Forall_app. split; [exact Hmine|].
        eapply Forall_impl; [exact Hb|].
        intros batch (p & Hp & Hall). exists p. split; [by right|exact Hall].
      - rewrite List.length_app. lia. }
    destruct ok.
    + destruct (Hrest (S s) f) as (s' & f' & w' & batches & Hr & Hsum & Hrem).
      exists s', f', w', batches. split; [exact Hr|]. split; [cbn; lia|exact Hrem].
    + destruct (Hrest s (S f)) as (s' & f' & w' & batches & Hr & Hsum & Hrem).
      exists s', f', w', batches. split; [exact Hr|]. split; [cbn; lia|exact Hrem].
Qed.

(** X25. The run over the configuration ends with exit code 0 whatever page
    fails, and what it adds to the index are batches of pages that are
    configured and enabled, at most one batch for each: a page that is
    disabled, or whose entry is empty, is never uploaded. *)
Theorem process_all_only_enabled ext cfg pc w :
  exists w' batches,
    process_all ext cfg pc w = (Ok 0%Z, w') /\
    uploads (sink w') = uploads (sink w) ++ batches /\
    batches_of (enabled_pages pc) batches /\
    (List.length batches <= List.length (enabled_pages pc))%nat /\
    Forall (fun batch => forall d, In d batch ->
              jtruthy (is_page_enabled pc (source_page_id d)) = true) batches.
Proof.
  assert (Forall (fun page_id => is_Some (get_page_info pc page_id))
            (enabled_pages pc)) as Hinfo.
  { apply Forall_forall. intros pid Hpid.
    apply list_elem_of_In, filter_In in Hpid as [_ Hen].
    by apply enabled_has_info. }
  assert (forall batches, batches_of (enabled_pages pc) batches ->
            Forall (fun batch => forall d, In d batch ->
              jtruthy (is_page_enabled pc (source_page_id d)) = true) batches)
    as Henabled.
  { intros batches Hb. eapply Forall_impl; [exact Hb|].
    intros batch (pid & Hpid & Hall) d Hd.
    rewrite Forall_forall in Hall.
    rewrite (Hall d) by (by apply list_elem_of_In).
    by apply filter_In in Hpid as [_ Hen]. }
  unfold process_all.
  destruct (enabled_pages pc) as [|pid ids] eqn:Hen.
  - exists (logged "No enabled pages found in configuration" w), [].
    rewrite app_nil_r. repeat split; constructor.
  - unfold try_except. unfold bind at 1, log at 1. unfold bind at 1.
    match goal with
    | |- context [run_pages ext cfg pc ?l 0 0 ?w0] =>
        destruct (run_pages_uploads ext cfg pc l 0 0 w0 Hinfo)
          as (s' & f' & w' & batches & Hrun & _ & Hup & Hb & Hlen)
    end.
    rewrite Hrun. unfold bind, log, ret. cbn [fst snd].
    eexists _, batches. split; [reflexivity|].
    cbn [sink] in *. split; [exact Hup|]. split; [exact Hb|].
    split; [exact Hlen|]. by apply Henabled.
Qed.

End MainLaws.

(** ** The endpoint of the index *)

Module EndpointLaws.

Import Endpoint.

Lemma chars_app a b : Str.chars (a +:+ b) = Str.chars a ++ Str.chars b.
Proof.
  unfold Str.chars. induction a as [|c a IH]; [reflexivity|].
  change (String c a +:+ b) with (String c (a +:+ b)).
  cbn [list_ascii_of_string app]. by rewrite IH.
Qed.

Lemma of_chars_app a b :
  Str.of_chars (a ++ b) = Str.of_chars a +:+ Str.of_chars b.
Proof.
  unfold Str.of_chars. induction a as [|c a IH]; [reflexivity|].
  cbn [app string_of_list_ascii]. rewrite IH. reflexivity.
Qed.

Lemma of_chars_chars s : Str.of_chars (Str.chars s) = s.
Proof. apply string_of_list_ascii_of_string. Qed.

(** A comparison with a pattern looks at no more characters than the
    pattern has. *)
Lemma prefix_of_extend p l r :
  (List.length p <= List.length l)%nat ->
  Str.prefix_of p (l ++ r) = Str.prefix_of p l.
Proof.
  revert l. induction p as [|a p IH]; intros l Hlen; [by destruct l|].
  destruct l as [|b l]; [cbn in Hlen; lia|].
  cbn [app Str.prefix_of]. rewrite IH; [reflexivity|]. cbn in Hlen. lia.
Qed.

Lemma replace_absent old new s :
  Str.contains_l old s = false -> replace_l old new 0 s = s.
Proof.
  induction s as [|c s IH]; [reflexivity|].
  cbn [Str.contains_l replace_l]. intros H.
  apply orb_false_elim in H as [Hp Hc]. rewrite Hp. f_equal. by apply IH.
Qed.

Lemma replace_skip old new w s :
  replace_l old new (List.length w) (w ++ s) = replace_l old new 0 s.
Proof. induction w as [|c w IH]; [reflexivity|exact IH]. Qed.

(** A part of the text in which no occurrence starts is copied. [m] is the
    text behind it as far as an occurrence can reach. *)
Lemma replace_before old new h m r :
  (List.length old <= S (List.length m))%nat ->
  Str.contains_l old (h ++ m) = false ->
  replace_l old new 0 (h ++ m ++ r) = h ++ replace_l old new 0 (m ++ r).
Proof.
  intros Hlen. induction h as [|c h IH]; [reflexivity|].
  cbn [app Str.contains_l replace_l]. intros H.
  apply orb_false_elim in H as [Hp Hc].
  assert (Str.prefix_of old (c :: h ++ m ++ r) = false) as ->.
  { rewrite <- Hp. change (c :: h ++ m ++ r) with ((c :: h) ++ m ++ r).
    rewrite (app_assoc (c :: h) m r). apply prefix_of_extend.
    cbn [app List.length]. rewrite List.length_app. lia. }
  f_equal. by apply IH.
Qed.

Lemma contains_from old h s :
  Str.prefix_of old s = true -> Str.contains_l old (h ++ s) = true.
Proof.
  intros Hs. induction h as [|c h IH].
  - destruct s; cbn [app Str.contains_l]; by rewrite Hs.
  - cbn [app Str.contains_l]. rewrite IH. apply orb_true_r.
Qed.

Lemma prefix_of_app p t : Str.prefix_of p (p ++ t) = true.
Proof.
  induction p as [|c p IH]; [reflexivity|].
  cbn [app Str.prefix_of]. by rewrite Ascii.eqb_refl, IH.
Qed.

Lemma replace_at old new t :
  old <> [] -> replace_l old new 0 (old ++ t) = new ++ replace_l old new 0 t.
Proof.
  destruct old as [|c old]; [done|]. intros _.
  change ((c :: old) ++ t) with (c :: old ++ t). cbn [replace_l].
  change (c :: old ++ t) with ((c :: old) ++ t). rewrite prefix_of_app.
  assert (List.length (c :: old) - 1 = List.length old)%nat as ->
    by (cbn; lia).
  by rewrite replace_skip.
Qed.

(** X26. An endpoint in which windows.ne occurs and which does not end in
    .net has the occurrence replaced by windows.net, whatever follows it,
    before the trailing slashes are removed: the truncated host is repaired,
    but a complete host followed by a slash or a path gets a second t. *)
Theorem endpoint_rewritten h t :
  Str.contains "windows.ne" (h +:+ "windows.n") = false ->
  Str.contains "windows.ne" t = false ->
  endswith (h +:+ "windows.ne" +:+ t) ".net" = false ->
  endpoint_of (h +:+ "windows.ne" +:+ t) =
  rstrip_slash (h +:+ "windows.net" +:+ t).
Proof.
  unfold Str.contains, endpoint_of, replace. intros Hh Ht Hend.
  rewrite chars_app in Hh. rewrite Hend.
  unfold Str.contains. rewrite !chars_app.
  rewrite contains_from by apply prefix_of_app. cbn [andb negb]. f_equal.
  assert (replace_l (Str.chars "windows.ne") (Str.chars "windows.net") 0
            (Str.chars "windows.ne" ++ Str.chars t)
          = Str.chars "windows.net" ++ Str.chars t) as Hocc.
  { rewrite replace_at by done. by rewrite replace_absent. }
  change (Str.chars "windows.ne" ++ Str.chars t)
    with (Str.chars "windows.n" ++ "e"%char :: Str.chars t) in *.
  rewrite replace_before; [|cbn; lia|exact Hh].
  rewrite Hocc. by rewrite !of_chars_app, !of_chars_chars.
Qed.

Lemma endpoint_rewritten_witness :
  endpoint_of "https://docs.search.windows.net/"
    = "https://docs.search.windows.nett" /\
  endpoint_of ("https://docs.search." +:+ "windows.ne" +:+ "t/") =
  rstrip_slash ("https://docs.search." +:+ "windows.net" +:+ "t/").
Proof.
  split; [reflexivity|].
  apply (endpoint_rewritten "https://docs.search." "t/"); reflexivity.
Defined.

End EndpointLaws.

(** ** A dry run *)

Module DryRunLaws.

Import Sql Processor Observe EffectFacts CacheFacts ProcessorFacts RunFacts
  VersionFacts.

(** X29. A dry run marks what it meets as processed. With forced
    reprocessing off and no storage fault, a page that is due and passes the
    status gate is, by an invocation with a dry-run client, cached at its
    version with one upsert while nothing is sent to the index; a later
    invocation on the same cache with a client that does send skips the page
    at the version gate, so this version never reaches the index. *)
Theorem dry_run_marks_processed ext cfg pid page w :
  force_reindex cfg = false ->
  faults (store w) = [] ->
  remote w !! pid = Some page ->
  skips cfg (cached_version pid w) (default 0%Z (version_number page)) = false ->
  status_allowed (Metadata.extract_metadata page) = true ->
  dry_run (sink w) = true ->
  exists w1,
    process_page ext cfg pid w = (Ok true, w1) /\
    sink w1 = sink w /\
    cached_version pid w1 = Some (default 0%Z (version_number page)) /\
    upserts w1 = S (upserts w) /\
    forall live, dry_run live = false ->
      exists w2,
        process_page ext cfg pid (with_sink live w1) = (Ok true, w2) /\
        uploads (sink w2) = uploads live /\
        upserts w2 = upserts w1.
Proof.
  intros Hforce Hnf Hpage Hskip Hstatus Hdry.
  destruct (process_page_dry ext cfg pid page w Hnf Hdry Hpage Hskip Hstatus)
    as (w1 & Hrun1 & Hnf1 & Hrem1 & Hs1 & Hc1 & Hu1).
  exists w1. repeat (split; [assumption|]).
  intros live Hlive.
  destruct (process_page_refines ext cfg pid page (with_sink live w1))
    as (ok2 & w2 & Hrun2 & Hstep2 & _); [exact Hnf1|exact Hlive| |].
  { cbn [with_sink remote]. by rewrite Hrem1. }
  rewrite gated_step_skip in Hstep2.
  - injection Hstep2 as -> Hu2 _ Hp2 _. by exists w2.
  - change (seen_version (view pid (with_sink live w1)))
      with (cached_version pid w1).
    rewrite Hc1. by apply skips_same.
Qed.

Lemma dry_run_marks_processed_witness :
  let page := Examples.approved_page 3 in
  let w := Examples.dry_run_world page [] in
  dry_run (sink w) = true /\
  exists w1,
    process_page Examples.plain Examples.no_flags "42" w = (Ok true, w1) /\
    sink w1 = sink w /\
    cached_version "42" w1 = Some 3%Z /\
    upserts w1 = S (upserts w) /\
    forall live, dry_run live = false ->
      exists w2,
        process_page Examples.plain Examples.no_flags "42" (with_sink live w1)
          = (Ok true, w2) /\
        uploads (sink w2) = uploads live /\
        upserts w2 = upserts w1.
Proof.
  split; [reflexivity|].
  apply (dry_run_marks_processed Examples.plain Examples.no_flags "42"
           (Examples.approved_page 3)
           (Examples.dry_run_world (Examples.approved_page 3) []));
    reflexivity.
Defined.

End DryRunLaws.
